(** * WoopWoop: the cache, retry and throttling core of the storefront bot

    A shallow embedding of
      - [utils/cache.py]               (class [EnhancedCache]),
      - [utils/retryable.py]           (class [RetryableOperation]),
      - [apis/google_api_manager.py]   (class [GoogleAPIsManager]),
      - [config/constants.py]          ([DEFAULT_INVENTORY]),
    followed by the properties of these components.

    Conventions of the embedding.
      - Python [int] is [Z]; Python [float] durations and timestamps are
        exact rationals [Q] (rounding is not modelled), compared with
        [Qle_bool] and tested for truthiness against [0]; converting an
        int that is too large for a float raises [OverflowError].
      - [time.time()] is an input: cache methods receive the clock reading
        [now] they would obtain; the manager reads it from the world.
      - A Python [dict] used as a map is a [gmap]; a [dict] whose iteration
        order is observed is an association list; [None] is [None].  *)

From Stdlib Require Import ZArith QArith Qminmax Lqa Lia List Ascii String.
From stdpp Require Import gmap strings list.

#[local] Set Warnings "-clear-no-such-hyp".

Local Open Scope Z_scope.

(** ** Python helpers *)

(** [a > b] on floats. *)
Definition Qgt_bool (a b : Q) : bool := negb (Qle_bool a b).

(** [a < b] on floats. *)
Definition Qlt_bool (a b : Q) : bool := negb (Qle_bool b a).

(** Truthiness of an optional number: [None] and [0] are falsy. *)
Definition truthy (a : option Q) : bool :=
  match a with
  | Some q => negb (Qeq_bool q 0)
  | None => false
  end.

(** [a or b] where [a] is [None] or a number and [b] a number. *)
Definition py_or (a : option Q) (b : Q) : Q :=
  match a with
  | Some q => if truthy a then q else b
  | None => b
  end.

(** ** [collections.deque] with [maxlen] *)

Module Deque.

Record deque := Deque { items : list string; maxlen : Z }.

(** [deque(maxlen=n)]: [ValueError] for a negative [n]. *)
Definition new (n : Z) : option deque :=
  if n <? 0 then None else Some (Deque [] n).

(** [key in d] *)
Definition contains (key : string) (d : deque) : bool :=
  bool_decide (key ∈ items d).

(** [list.remove]: the first occurrence goes. *)
Fixpoint remove_first (key : string) (l : list string) : list string :=
  match l with
  | [] => []
  | x :: l' => if decide (x = key) then l' else x :: remove_first key l'
  end.

(** [d.remove(key)], called only under [key in d]. *)
Definition remove (key : string) (d : deque) : deque :=
  Deque (remove_first key (items d)) (maxlen d).

(** [d.append(key)]: the item is added on the right and, when the bound
    is exceeded, one item is discarded from the left. *)
Definition append (key : string) (d : deque) : deque :=
  let l := items d ++ [key] in
  Deque (if maxlen d <? Z.of_nat (length l) then tail l else l) (maxlen d).

(** [d.clear()] *)
Definition clear (d : deque) : deque := Deque [] (maxlen d).

End Deque.

(** ** [utils/cache.py]: [EnhancedCache] *)

Module EnhancedCache.
Section WithPayload.

(** The cached payloads; a stored Python object is [None] or a payload. *)
Context {V : Type}.

(** A cache entry is the dict [{"data": _, "timestamp": _, "ttl": _}];
    a field is [None] when the dict has no such key, which is what
    [entry.get(field, default)] tests. *)
Record entry := Entry {
  e_data : option (option V);
  e_timestamp : option Q;
  e_ttl : option Q
}.

Record t := Cache {
  cache : gmap string entry;
  access_order : Deque.deque;
  hits : Z;
  misses : Z;
  max_items : Z;
  default_ttl : Q
}.

Definition with_cache (m : gmap string entry) (self : t) : t :=
  Cache m (access_order self) (hits self) (misses self) (max_items self) (default_ttl self).
Definition with_access_order (d : Deque.deque) (self : t) : t :=
  Cache (cache self) d (hits self) (misses self) (max_items self) (default_ttl self).
Definition with_hits (n : Z) (self : t) : t :=
  Cache (cache self) (access_order self) n (misses self) (max_items self) (default_ttl self).
Definition with_misses (n : Z) (self : t) : t :=
  Cache (cache self) (access_order self) (hits self) n (max_items self) (default_ttl self).
(** [cache.default_ttl = ttl], as the manager does after construction. *)
Definition with_default_ttl (ttl : Q) (self : t) : t :=
  Cache (cache self) (access_order self) (hits self) (misses self) (max_items self) ttl.

(** [EnhancedCache(max_items)]; [None] when [deque] rejects the bound. *)
Definition __init__ (max_items : Z) : option t :=
  match Deque.new max_items with
  | None => None
  | Some d => Some (Cache ∅ d 0 0 max_items 60%Q)
  end.

Definition _update_access_order (self : t) (key : string) : t :=
  let d := access_order self in
  let d := if Deque.contains key d then Deque.remove key d else d in
  with_access_order (Deque.append key d) self.

Definition _remove_entry (self : t) (key : string) : t :=
  let self :=
    if bool_decide (is_Some (cache self !! key))
    then with_cache (delete key (cache self)) self else self in
  if Deque.contains key (access_order self)
  then with_access_order (Deque.remove key (access_order self)) self
  else self.

(** [if self.access_order:] takes the head [self.access_order[0]]. *)
Definition _evict_lru (self : t) : t :=
  match Deque.items (access_order self) with
  | lru_key :: _ => _remove_entry self lru_key
  | [] => self
  end.

(** [get(key, default_ttl)] at clock reading [now]. *)
Definition get (self : t) (key : string) (default_ttl_arg : option Q) (now : Q)
  : (bool * option V) * t :=
  match cache self !! key with
  | None => ((false, None), with_misses (misses self + 1) self)
  | Some entry =>
      let ttl := default (py_or default_ttl_arg (default_ttl self)) (e_ttl entry) in
      if Qgt_bool (now - default 0%Q (e_timestamp entry)) ttl then
        let self := _remove_entry self key in
        ((false, None), with_misses (misses self + 1) self)
      else
        let self := _update_access_order self key in
        ((true, default None (e_data entry)), with_hits (hits self + 1) self)
  end.

(** [set(key, value, ttl)] at clock reading [now]. *)
Definition set (self : t) (key : string) (value : option V) (ttl : option Q) (now : Q)
  : option V * t :=
  let self :=
    if (max_items self <=? Z.of_nat (size (cache self)))
       && negb (bool_decide (is_Some (cache self !! key)))
    then _evict_lru self else self in
  let self :=
    with_cache (<[key := Entry (Some value) (Some now) (Some (py_or ttl (default_ttl self)))]>
                  (cache self)) self in
  let self := _update_access_order self key in
  (value, self).

(** [clear(key)]: a falsy key (absent, or the empty string) clears all. *)
Definition clear (self : t) (key : option string) : t :=
  match key with
  | Some k =>
      if bool_decide (k = EmptyString) then
        with_access_order (Deque.clear (access_order self)) (with_cache ∅ self)
      else if bool_decide (is_Some (cache self !! k)) then
        let self := with_cache (delete k (cache self)) self in
        if Deque.contains k (access_order self)
        then with_access_order (Deque.remove k (access_order self)) self
        else self
      else self
  | None => with_access_order (Deque.clear (access_order self)) (with_cache ∅ self)
  end.

(** [get_stats()]: the counters and the hit ratio, [0] before any request. *)
Record stats := Stats {
  st_hits : Z; st_misses : Z; st_hit_ratio : Q;
  st_total_requests : Z; st_items : Z; st_max_items : Z
}.

Definition get_stats (self : t) : stats :=
  let total_requests := hits self + misses self in
  let hit_ratio :=
    if total_requests =? 0 then 0%Q
    else (inject_Z (hits self) / inject_Z total_requests)%Q in
  Stats (hits self) (misses self) hit_ratio total_requests
        (Z.of_nat (size (cache self))) (max_items self).

(** The calls a client can make on a cache object, with the clock
    reading each one obtains. *)
Inductive op :=
| OpGet (key : string) (default_ttl_arg : option Q) (now : Q)
| OpSet (key : string) (value : option V) (ttl : option Q) (now : Q)
| OpClear (key : option string)
| OpDefaultTtl (ttl : Q).

Definition step (self : t) (o : op) : t :=
  match o with
  | OpGet key d now => snd (get self key d now)
  | OpSet key value ttl now => snd (set self key value ttl now)
  | OpClear key => clear self key
  | OpDefaultTtl ttl => with_default_ttl ttl self
  end.

(** The state after a history of calls, oldest first. *)
Definition run (self : t) (history : list op) : t := fold_left step history self.

(** The keys a call uses in the sense of the LRU policy: the key of a
    [get] or of a [set]. *)
Definition uses (o : op) (key : string) : bool :=
  match o with
  | OpGet k _ _ | OpSet k _ _ _ => bool_decide (k = key)
  | _ => false
  end.

(** Position in the history of the last [get] or [set] of [key]. *)
Fixpoint last_use_from (i : nat) (history : list op) (key : string) : option nat :=
  match history with
  | [] => None
  | o :: rest =>
      match last_use_from (S i) rest key with
      | Some j => Some j
      | None => if uses o key then Some i else None
      end
  end.

Definition last_use (history : list op) (key : string) : option nat :=
  last_use_from 0 history key.

End WithPayload.
Arguments entry : clear implicits.
Arguments t : clear implicits.
Arguments op : clear implicits.
End EnhancedCache.

(** ** Exceptions, outcomes and log records *)

(** What a call produces: a value, or a raised exception.  The exception
    type [exn] stands for the instances of [Exception]. *)
Inductive outcome (exn A : Type) :=
| Returned (a : A)
| Raised (e : exn).
Arguments Returned {exn A} a.
Arguments Raised {exn A} e.

Inductive level := ERROR | WARNING | INFO.

(** The f-string templates of the log calls, with the interpolated values. *)
Inductive message (exn : Type) :=
| OperationFailedAfter (operation_name : string) (retry_count : Z) (e : exn)
| OperationAttemptFailed (operation_name : string) (retry_count max_retries : Z) (e : exn) (delay : Q)
| NonRetryableError (operation_name : string) (e : exn)
| FailedForUnknownReasons (operation_name : string)
| FailedToOpenSpreadsheet (e : exn)
| ErrorAccessingOrdersSheet (e : exn)
| ErrorCreatingOrdersSheet (e : exn)
| ErrorAccessingInventorySheet (e : exn)
| ErrorCreatingInventorySheet (e : exn)
| ErrorSettingSheetHeaders (e : exn)
| FailedToInitializeSheets (e : exn)
| FailedToAuthenticate (e : exn)
| ErrorFetchingInventory (e : exn)
| UsingDefaultInventory
| FailedToInitializeSheetForAddingOrder
| ErrorFindingNextRow (e : exn)
| FailedToAddOrder (e : exn)
| FailedToGetSheetForOrderDetails
| FailedToGetOrderDetails (e : exn).
Arguments OperationFailedAfter {exn}.
Arguments OperationAttemptFailed {exn}.
Arguments NonRetryableError {exn}.
Arguments FailedForUnknownReasons {exn}.
Arguments FailedToOpenSpreadsheet {exn}.
Arguments ErrorAccessingOrdersSheet {exn}.
Arguments ErrorCreatingOrdersSheet {exn}.
Arguments ErrorAccessingInventorySheet {exn}.
Arguments ErrorCreatingInventorySheet {exn}.
Arguments ErrorSettingSheetHeaders {exn}.
Arguments FailedToInitializeSheets {exn}.
Arguments FailedToAuthenticate {exn}.
Arguments ErrorFetchingInventory {exn}.
Arguments UsingDefaultInventory {exn}.
Arguments FailedToInitializeSheetForAddingOrder {exn}.
Arguments ErrorFindingNextRow {exn}.
Arguments FailedToAddOrder {exn}.
Arguments FailedToGetSheetForOrderDetails {exn}.
Arguments FailedToGetOrderDetails {exn}.

(** A record handed to [loggers[logger]] at [level]. *)
Record log_record (exn : Type) := LogRecord {
  lr_logger : string;
  lr_level : level;
  lr_message : message exn
}.
Arguments LogRecord {exn}.
Arguments lr_logger {exn}.
Arguments lr_level {exn}.
Arguments lr_message {exn}.

(** ** [utils/retryable.py]: [RetryableOperation] *)

Module RetryableOperation.
Section WithRuntime.

(** [S] is everything an awaited call may change (the remote backend,
    the clock, the caller's own objects); [R] is what the operation
    returns. *)
Context {S R exn : Type}.

(** The runtime the retrier calls into: [asyncio.sleep], the draw
    [random.random()] in [[0,1)] behind [random.uniform], the loggers,
    the constructor of [RuntimeError], and the [OverflowError] of an int
    that is too large to convert to float. *)
Variable asyncio_sleep : Q -> S -> S.
Variable random_random : S -> Q * S.
Variable log : log_record exn -> S -> S.
Variable RuntimeError : message exn -> exn.
Variable OverflowError : exn.

(** [random.uniform(a, b)] is [a + (b - a) * random()]. *)
Definition random_uniform (a b : Q) (s : S) : Q * S :=
  let '(r, s) := random_random s in ((a + (b - a) * r)%Q, s).

(** An async callable with its [__name__], when it has one. *)
Record callable := Callable {
  __name__ : option string;
  call : S -> outcome exn R * S
}.

(** [retry_on] is the [isinstance] test against the configured tuple;
    [base_delay] is a float, as the constructor documents it and as its
    default [1.0] is, which every caller in the program leaves. *)
Record t := Retryable {
  max_retries : Z;
  base_delay : Q;
  retry_on : exn -> bool;
  use_jitter : bool
}.

(** What [run] does that its caller can count: calls of the operation
    and sleeps. *)
Inductive event :=
| EvCall (o : outcome exn R)
| EvSleep (delay : Q).

(** [float(2 ** n)], the conversion that the product of a float and the
    int [2 ** n] makes of its int operand: [2 ** 1023] is the largest
    power of two that is a float, and from [2 ** 1024] on the conversion
    raises [OverflowError] (int too large to convert to float). *)
Definition float_of_pow2 (n : Z) : outcome exn Q :=
  if 1024 <=? n then Raised OverflowError else Returned (inject_Z (2 ^ n)).

(** The backoff before retry number [retry_count]:
    [min(self.base_delay * (2 ** (retry_count - 1)), 60)].  The power is
    computed on ints and converted for the product, before the cap. *)
Definition backoff (self : t) (retry_count : Z) : outcome exn Q :=
  match float_of_pow2 (retry_count - 1) with
  | Returned power => Returned (Qmin (base_delay self * power) 60)
  | Raised err => Raised err
  end.

(** The statement after the loop: [raise last_exception or RuntimeError(..)]
    (an exception object is truthy). *)
Definition raise_last (operation_name : string) (last_exception : option exn)
  : outcome exn R :=
  Raised (default (RuntimeError (FailedForUnknownReasons operation_name)) last_exception).

(** The [while retry_count <= self.max_retries] loop; [fuel] bounds the
    number of iterations.  An exception raised inside the [except]
    clause, as by the backoff, leaves [run] at once. *)
Fixpoint run_loop (fuel : nat) (self : t) (operation_func : callable)
    (operation_name : string) (retry_count : Z) (last_exception : option exn) (s : S)
  : option (outcome exn R * S * list event) :=
  match fuel with
  | O => None
  | Datatypes.S fuel =>
      if retry_count <=? max_retries self then
        let '(o, s) := call operation_func s in
        match o with
        | Returned result => Some (Returned result, s, [EvCall o])
        | Raised e =>
            if retry_on self e then
              let retry_count := retry_count + 1 in
              let last_exception := Some e in
              if retry_count >? max_retries self then
                let s := log (LogRecord "errors" ERROR
                                (OperationFailedAfter operation_name retry_count e)) s in
                Some (raise_last operation_name last_exception, s, [EvCall o])
              else
                match backoff self retry_count with
                | Raised err => Some (Raised err, s, [EvCall o])
                | Returned delay =>
                    let '(delay, s) :=
                      if use_jitter self then
                        let '(jitter_amount, s) := random_uniform 0 (0.5 * delay) s in
                        ((delay + jitter_amount)%Q, s)
                      else (delay, s) in
                    let s := log (LogRecord "main" WARNING
                                    (OperationAttemptFailed operation_name retry_count
                                       (max_retries self) e delay)) s in
                    let s := asyncio_sleep delay s in
                    match run_loop fuel self operation_func operation_name
                            retry_count last_exception s with
                    | Some (r, s, events) =>
                        Some (r, s, EvCall o :: EvSleep delay :: events)
                    | None => None
                    end
                end
            else
              let s := log (LogRecord "errors" ERROR
                              (NonRetryableError operation_name e)) s in
              Some (Raised e, s, [EvCall o])
        end
      else Some (raise_last operation_name last_exception, s, [])
  end.

(** [run(operation_func, operation_name)]. *)
Definition run (self : t) (operation_func : callable) (operation_name : option string)
    (s : S) : option (outcome exn R * S * list event) :=
  let operation_name :=
    match operation_name with
    | Some n => if bool_decide (n = EmptyString)
                then default "unknown_operation"%string (__name__ operation_func) else n
    | None => default "unknown_operation"%string (__name__ operation_func)
    end in
  run_loop (Datatypes.S (Z.to_nat (max_retries self + 1))) self operation_func
    operation_name 0 None s.

(** The outcomes of the calls of the operation, in order. *)
Fixpoint calls (events : list event) : list (outcome exn R) :=
  match events with
  | [] => []
  | EvCall o :: events => o :: calls events
  | EvSleep _ :: events => calls events
  end.

(** The delays slept, in order. *)
Fixpoint sleeps (events : list event) : list Q :=
  match events with
  | [] => []
  | EvCall _ :: events => sleeps events
  | EvSleep d :: events => d :: sleeps events
  end.

End WithRuntime.
Arguments callable : clear implicits.
Arguments t : clear implicits.
Arguments event : clear implicits.
Arguments backoff : simpl never.
End RetryableOperation.

(** ** Insertion-ordered [dict] with string keys

    [last_request_time] is sorted by [sorted(d.items(), ...)], which
    observes the insertion order of the dict on ties. *)

Module OrderedDict.
Section WithValue.
Context {A : Type}.

(** [d.get(key)] *)
Fixpoint get (key : string) (d : list (string * A)) : option A :=
  match d with
  | [] => None
  | (k, v) :: d => if decide (k = key) then Some v else get key d
  end.

(** [d[key] = value]: in place for a present key, at the end otherwise. *)
Fixpoint set (key : string) (value : A) (d : list (string * A)) : list (string * A) :=
  match d with
  | [] => [(key, value)]
  | (k, v) :: d => if decide (k = key) then (k, value) :: d else (k, v) :: set key value d
  end.

End WithValue.

(** One step of a stable sort by decreasing value: [x] goes before the
    first item whose value does not exceed its own. *)
Fixpoint insert_desc (x : string * Q) (sorted : list (string * Q)) : list (string * Q) :=
  match sorted with
  | [] => [x]
  | y :: rest =>
      if Qlt_bool (snd x) (snd y) then y :: insert_desc x rest else x :: y :: rest
  end.

(** [sorted(d.items(), key=lambda x: x[1], reverse=True)] *)
Definition sorted_desc (d : list (string * Q)) : list (string * Q) :=
  foldr insert_desc [] d.

End OrderedDict.

(** ** [str.lower] and [str.replace(' ', '_')] on ASCII text *)

Definition ascii_lower (c : ascii) : ascii :=
  let n := Ascii.N_of_ascii c in
  if ((65 <=? n) && (n <=? 90))%N then Ascii.ascii_of_N (n + 32) else c.

Fixpoint lower (s : string) : string :=
  match s with
  | EmptyString => EmptyString
  | String c s => String (ascii_lower c) (lower s)
  end.

Fixpoint replace_space_by_underscore (s : string) : string :=
  match s with
  | EmptyString => EmptyString
  | String c s =>
      String (if Ascii.eqb c " "%char then "_"%char else c) (replace_space_by_underscore s)
  end.

(** ** [config/constants.py] *)

(** A spreadsheet cell as [gspread] hands it over: text or a number. *)
Inductive cell := CStr (s : string) | CNum (q : Q).

Definition CInt (n : Z) : cell := CNum (inject_Z n).

Definition SHEET_HEADERS : list string :=
  ["Order ID"; "Telegram ID"; "Customer Name"; "Address"; "Contact"; "Product";
   "Quantity"; "Price"; "Status"; "Payment URL"; "Order Date"; "Notes";
   "Tracking Link"]%string.

Definition GOOGLE_SHEET_NAME : string := "Telegram Orders".

Definition DEFAULT_INVENTORY : list (gmap string cell) :=
  [ list_to_map [("Name", CStr "Unknown Indica"); ("Type", CStr "indica");
                 ("Tag", CStr "buds"); ("Price", CInt 2000); ("Stock", CInt 5)];
    list_to_map [("Name", CStr "Unknown Sativa"); ("Type", CStr "sativa");
                 ("Tag", CStr "buds"); ("Price", CInt 2000); ("Stock", CInt 5)];
    list_to_map [("Name", CStr "Unknown Hybrid"); ("Type", CStr "hybrid");
                 ("Tag", CStr "buds"); ("Price", CInt 2000); ("Stock", CInt 5)];
    list_to_map [("Name", CStr "Local BG"); ("Type", CStr EmptyString);
                 ("Tag", CStr "local"); ("Price", CInt 1000); ("Stock", CInt 10)];
    list_to_map [("Name", CStr "Basic Cart"); ("Type", CStr EmptyString);
                 ("Tag", CStr "carts"); ("Brand", CStr "Generic");
                 ("Weight", CStr "1g"); ("Price", CInt 1500); ("Stock", CInt 3)];
    list_to_map [("Name", CStr "Basic Edible"); ("Type", CStr "hybrid");
                 ("Tag", CStr "edibs"); ("Price", CInt 500); ("Stock", CInt 5)] ]%string.

(** ** [apis/google_api_manager.py]: [GoogleAPIsManager] *)

Module GoogleAPIsManager.

(** The product dict built from an inventory row. *)
Record product := Product {
  p_name : string;
  p_key : string;
  p_price : cell;
  p_stock : cell;
  p_tag : string;
  p_strain : string;
  p_weight : cell;
  p_brand : cell
}.

(** [(products_by_tag, products_by_strain, all_products)] *)
Definition inventory : Type :=
  gmap string (list product) * gmap string (list product) * list product.

(** What the manager stores in its caches. *)
Inductive payload :=
| InventoryData (inv : inventory)
| OrderRecord (order : gmap string cell).

(** [self.caches]: a dict with four fixed keys. *)
Record cache_table := CacheTable {
  inventory_cache : EnhancedCache.t payload;
  orders_cache : EnhancedCache.t payload;
  sheets_cache : EnhancedCache.t payload;
  drive_cache : EnhancedCache.t payload
}.

(** [self.caches.get(cache_type)] *)
Definition caches_lookup (cache_type : string) (c : cache_table)
  : option (EnhancedCache.t payload) :=
  if bool_decide (cache_type = "inventory"%string) then Some (inventory_cache c)
  else if bool_decide (cache_type = "orders"%string) then Some (orders_cache c)
  else if bool_decide (cache_type = "sheets"%string) then Some (sheets_cache c)
  else if bool_decide (cache_type = "drive"%string) then Some (drive_cache c)
  else None.

(** The cache object under [cache_type] after a method changed it. *)
Definition caches_store (cache_type : string) (x : EnhancedCache.t payload)
    (c : cache_table) : cache_table :=
  if bool_decide (cache_type = "inventory"%string)
  then CacheTable x (orders_cache c) (sheets_cache c) (drive_cache c)
  else if bool_decide (cache_type = "orders"%string)
  then CacheTable (inventory_cache c) x (sheets_cache c) (drive_cache c)
  else if bool_decide (cache_type = "sheets"%string)
  then CacheTable (inventory_cache c) (orders_cache c) x (drive_cache c)
  else if bool_decide (cache_type = "drive"%string)
  then CacheTable (inventory_cache c) (orders_cache c) (sheets_cache c) x
  else c.

Section WithBackend.

(** The world outside the process (remote spreadsheet, clock, random
    source), the exceptions, and the [gspread] handles. *)
Context {World exn client spreadsheet worksheet : Type}.

(** The calls into libraries: each takes the world and gives it back. *)
Record backend := Backend {
  (** [time.time()] *)
  clock : World -> Q;
  (** [await asyncio.sleep(d)] *)
  asyncio_sleep : Q -> World -> World;
  (** [random.random()] *)
  random_random : World -> Q * World;
  (** the credential loading and [gspread.authorize] of [get_sheet_client] *)
  authorize : World -> outcome exn client * World;
  (** [client.open(name)] *)
  client_open : client -> string -> World -> outcome exn spreadsheet * World;
  (** [spreadsheet.sheet1] *)
  spreadsheet_sheet1 : spreadsheet -> World -> outcome exn worksheet * World;
  (** [spreadsheet.add_worksheet(title, rows, cols)] *)
  spreadsheet_add_worksheet :
    spreadsheet -> string -> Z -> Z -> World -> outcome exn worksheet * World;
  (** [spreadsheet.worksheet(title)] *)
  spreadsheet_worksheet : spreadsheet -> string -> World -> outcome exn worksheet * World;
  (** [worksheet.append_row(values)] *)
  worksheet_append_row : worksheet -> list cell -> World -> outcome exn unit * World;
  (** [worksheet.row_values(row)] *)
  worksheet_row_values : worksheet -> Z -> World -> outcome exn (list cell) * World;
  (** [worksheet.update(range, values)] *)
  worksheet_update :
    worksheet -> string -> list (list cell) -> World -> outcome exn unit * World;
  (** [worksheet.get_all_records()] *)
  worksheet_get_all_records :
    worksheet -> World -> outcome exn (list (gmap string cell)) * World;
  (** [worksheet.col_values(col)] *)
  worksheet_col_values : worksheet -> Z -> World -> outcome exn (list cell) * World;
  (** [worksheet.insert_row(values, index)] *)
  worksheet_insert_row : worksheet -> list cell -> Z -> World -> outcome exn unit * World;
  (** [RuntimeError(message)] *)
  RuntimeError : message exn -> exn;
  (** the [OverflowError] of an int too large to convert to float *)
  OverflowError : exn;
  (** the [TypeError] of comparing text with a number *)
  TypeError : exn;
  (** the [AttributeError] of a method missing on a number or on [None] *)
  AttributeError : exn;
  (** [isinstance(e, (ConnectionError, TimeoutError, BrokenPipeError))] *)
  is_connection_error : exn -> bool
}.

Variable B : backend.

(** The manager object: the attributes that the methods below read or
    write ([loggers] is the log of the state, further down). *)
Record manager := Manager {
  last_request_time : list (string * Q);
  _sheet_client : option client;
  _sheet : option worksheet;
  _inventory_sheet : option worksheet;
  _sheet_initialized : bool;
  caches : cache_table
}.

Definition with_last_request_time (l : list (string * Q)) (m : manager) : manager :=
  Manager l (_sheet_client m) (_sheet m) (_inventory_sheet m) (_sheet_initialized m) (caches m).
Definition with_sheet_client (c : option client) (m : manager) : manager :=
  Manager (last_request_time m) c (_sheet m) (_inventory_sheet m) (_sheet_initialized m) (caches m).
Definition with_sheet (w : option worksheet) (m : manager) : manager :=
  Manager (last_request_time m) (_sheet_client m) w (_inventory_sheet m) (_sheet_initialized m) (caches m).
Definition with_inventory_sheet (w : option worksheet) (m : manager) : manager :=
  Manager (last_request_time m) (_sheet_client m) (_sheet m) w (_sheet_initialized m) (caches m).
Definition with_sheet_initialized (b : bool) (m : manager) : manager :=
  Manager (last_request_time m) (_sheet_client m) (_sheet m) (_inventory_sheet m) b (caches m).
Definition with_caches (c : cache_table) (m : manager) : manager :=
  Manager (last_request_time m) (_sheet_client m) (_sheet m) (_inventory_sheet m) (_sheet_initialized m) c.

(** A cache of [max_items] entries whose [default_ttl] is then assigned. *)
Definition new_cache (max_items : Z) (ttl : Q) : option (EnhancedCache.t payload) :=
  EnhancedCache.with_default_ttl ttl <$> EnhancedCache.__init__ max_items.

(** [GoogleAPIsManager(loggers)] *)
Definition __init__ : option manager :=
  inventory ← new_cache 20 300;
  orders ← new_cache 100 60;
  sheets ← new_cache 50 120;
  drive ← new_cache 30 600;
  Some (Manager [] None None None false (CacheTable inventory orders sheets drive)).

(** The state a method runs in: the world, the manager object, the log
    records emitted so far and the delays passed to [asyncio.sleep] so
    far (newest last). *)
Record state := State {
  world : World;
  self : manager;
  logs : list (log_record exn);
  slept : list Q
}.

(** A method: it may raise, it changes the state, and [None] stands for
    a loop that ran out of fuel. *)
Definition M (A : Type) : Type := state -> option (outcome exn A * state).

Definition ret {A} (a : A) : M A := fun s => Some (Returned a, s).

Definition raise {A} (e : exn) : M A := fun s => Some (Raised e, s).

Definition bind {A C} (m : M A) (k : A -> M C) : M C :=
  fun s =>
    match m s with
    | Some (Returned a, s) => k a s
    | Some (Raised e, s) => Some (Raised e, s)
    | None => None
    end.

(** [try: m  except Exception as e: handler(e)] *)
Definition try_except {A} (m : M A) (handler : exn -> M A) : M A :=
  fun s =>
    match m s with
    | Some (Raised e, s) => handler e s
    | r => r
    end.

(** The outcome of [m] as a value, for a [try] around one call. *)
Definition attempt {A} (m : M A) : M (outcome exn A) :=
  fun s =>
    match m s with
    | Some (o, s) => Some (Returned o, s)
    | None => None
    end.

Definition get_self : M manager := fun s => Some (Returned (self s), s).

Definition modify_self (f : manager -> manager) : M unit :=
  fun s => Some (Returned tt, State (world s) (f (self s)) (logs s) (slept s)).

(** [time.time()] *)
Definition time_time : M Q := fun s => Some (Returned (clock B (world s)), s).

(** A library call that may raise. *)
Definition remote {A} (f : World -> outcome exn A * World) : M A :=
  fun s => let '(o, w) := f (world s) in Some (o, State w (self s) (logs s) (slept s)).

Definition sleep_state (d : Q) (s : state) : state :=
  State (asyncio_sleep B d (world s)) (self s) (logs s) (slept s ++ [d]).

Definition random_state (s : state) : Q * state :=
  let '(r, w) := random_random B (world s) in (r, State w (self s) (logs s) (slept s)).

Definition log_state (r : log_record exn) (s : state) : state :=
  State (world s) (self s) (logs s ++ [r]) (slept s).

(** [await asyncio.sleep(d)] *)
Definition sleep (d : Q) : M unit := fun s => Some (Returned tt, sleep_state d s).

(** [random.uniform(a, b)] *)
Definition uniform (a b : Q) : M Q :=
  fun s =>
    let '(r, s) := RetryableOperation.random_uniform random_state a b s in
    Some (Returned r, s).

(** [self.loggers[logger].<level>(message)] *)
Definition log (logger : string) (lvl : level) (msg : message exn) : M unit :=
  fun s => Some (Returned tt, log_state (LogRecord logger lvl msg) s).

(** A computation on local values that may raise. *)
Definition lift_outcome {A} (o : outcome exn A) : M A := fun s => Some (o, s).

Notation "x <- m ;; k" := (bind m (fun x => k))
  (at level 100, m at next level, right associativity).

Definition log_error (msg : message exn) : M unit := log "errors" ERROR msg.

(** *** Rate limiting *)

(** The [min_wait_times] table of [_rate_limit_request], in seconds. *)
Definition min_wait_times : list (string * Q) :=
  [("sheets", 1); ("sheets_read", 1 # 2); ("sheets_write", 12 # 10);
   ("drive", 15 # 10); ("inventory", 8 # 10); ("default", 1)]%string%Q.

(** [min_wait_times.get(api_name, min_wait_times['default'])] *)
Definition min_wait (api_name : string) : Q :=
  default (default 1%Q (OrderedDict.get "default" min_wait_times))
          (OrderedDict.get api_name min_wait_times).

(** The wait of a call that finds [time_since_last < min_wait], for the
    draw [u] of [random.uniform(-0.1, 0.1)]. *)
Definition adjusted_wait (min_wait time_since_last u : Q) : Q :=
  let wait_time := (min_wait - time_since_last + (1 # 10))%Q in
  let jitter := (u * wait_time)%Q in
  Qmax (1 # 10) (wait_time + jitter).

Definition _rate_limit_request (api_name : string) : M unit :=
  now <- time_time ;;
  let min_wait := min_wait api_name in
  self <- get_self ;;
  let last_request := default 0%Q (OrderedDict.get api_name (last_request_time self)) in
  let time_since_last := (now - last_request)%Q in
  _ <- (if Qlt_bool time_since_last min_wait then
          u <- uniform (- (1 # 10)) (1 # 10) ;;
          sleep (adjusted_wait min_wait time_since_last u)
        else ret tt) ;;
  now <- time_time ;;
  _ <- modify_self (fun self =>
         with_last_request_time (OrderedDict.set api_name now (last_request_time self)) self) ;;
  self <- get_self ;;
  if 20 <? Z.of_nat (length (last_request_time self)) then
    let recent_apis := take 10 (OrderedDict.sorted_desc (last_request_time self)) in
    modify_self (with_last_request_time recent_apis)
  else ret tt.

(** *** Sheets *)

Definition get_sheet_client : M client :=
  self <- get_self ;;
  match _sheet_client self with
  | Some c => ret c
  | None =>
      try_except
        (c <- remote (authorize B) ;;
         _ <- modify_self (with_sheet_client (Some c)) ;;
         ret c)
        (fun e => _ <- log_error (FailedToAuthenticate e) ;; raise e)
  end.

Definition inventory_headers : list cell :=
  map CStr ["Name"; "Strain"; "Type"; "Tag"; "Price"; "Stock";
            "Weight"; "Brand"; "Description"; "Image_URL"]%string.

(** The block of [initialize_sheets] that gets or creates the inventory
    sheet; its failures are logged and swallowed. *)
Definition init_inventory_sheet (sp : spreadsheet) : M unit :=
  r <- attempt (remote (spreadsheet_worksheet B sp "Inventory")) ;;
  match r with
  | Returned w => modify_self (with_inventory_sheet (Some w))
  | Raised inv_err =>
      _ <- log_error (ErrorAccessingInventorySheet inv_err) ;;
      try_except
        (w <- remote (spreadsheet_add_worksheet B sp "Inventory" 100 10) ;;
         _ <- modify_self (with_inventory_sheet (Some w)) ;;
         remote (worksheet_append_row B w inventory_headers))
        (fun create_err => log_error (ErrorCreatingInventorySheet create_err))
  end.

(** The block of [initialize_sheets] that checks the header row. *)
Definition init_headers : M unit :=
  try_except
    (self <- get_self ;;
     match _sheet self with
     | None => raise (AttributeError B)
     | Some sh =>
         current_headers <- remote (worksheet_row_values B sh 1) ;;
         if bool_decide (current_headers = [])
            || (Z.of_nat (length current_headers) <? Z.of_nat (length SHEET_HEADERS))
         then remote (worksheet_update B sh "A1" [map CStr SHEET_HEADERS])
         else ret tt
     end)
    (fun header_err => log_error (ErrorSettingSheetHeaders header_err)).

(** [get_sheet_client] returns a client object or raises, and a client
    object is truthy: the [if not client] branch is never taken. *)
Definition initialize_sheets : M (option worksheet * option worksheet) :=
  self <- get_self ;;
  if _sheet_initialized self && bool_decide (is_Some (_sheet self))
     && bool_decide (is_Some (_inventory_sheet self))
  then ret (_sheet self, _inventory_sheet self)
  else
    try_except
      (_ <- _rate_limit_request "sheets" ;;
       client <- get_sheet_client ;;
       r <- attempt (remote (client_open B client GOOGLE_SHEET_NAME)) ;;
       match r with
       | Raised sheet_err =>
           _ <- log_error (FailedToOpenSpreadsheet sheet_err) ;;
           ret (None, None)
       | Returned sp =>
           r <- attempt (remote (spreadsheet_sheet1 B sp)) ;;
           have_orders <-
             match r with
             | Returned sh => _ <- modify_self (with_sheet (Some sh)) ;; ret true
             | Raised orders_err =>
                 _ <- log_error (ErrorAccessingOrdersSheet orders_err) ;;
                 r <- attempt (remote (spreadsheet_add_worksheet B sp "Orders" 1000 20)) ;;
                 match r with
                 | Returned sh => _ <- modify_self (with_sheet (Some sh)) ;; ret true
                 | Raised create_err =>
                     _ <- log_error (ErrorCreatingOrdersSheet create_err) ;;
                     ret false
                 end
             end ;;
           if have_orders then
             _ <- init_inventory_sheet sp ;;
             _ <- init_headers ;;
             _ <- modify_self (with_sheet_initialized true) ;;
             self <- get_self ;;
             ret (_sheet self, _inventory_sheet self)
           else ret (None, None)
       end)
      (fun e => _ <- log_error (FailedToInitializeSheets e) ;; ret (None, None)).

(** *** Cache access *)

(** [if cache_type not in self.caches: cache_type = "inventory"], then
    [self.caches[cache_type]]. *)
Definition select_cache (cache_type : string) (c : cache_table)
  : string * EnhancedCache.t payload :=
  match caches_lookup cache_type c with
  | Some x => (cache_type, x)
  | None => ("inventory"%string, inventory_cache c)
  end.

Definition _check_cache (cache_key cache_type : string) (max_age : option Q)
  : M (bool * option payload) :=
  self <- get_self ;;
  let '(cache_type, cache) := select_cache cache_type (caches self) in
  let ttl := match max_age with Some a => Some a | None => None end in
  now <- time_time ;;
  let '(r, cache) := EnhancedCache.get cache cache_key ttl now in
  _ <- modify_self (fun self => with_caches (caches_store cache_type cache (caches self)) self) ;;
  ret r.

Definition _update_cache (cache_key : string) (data : option payload)
    (cache_type : string) (ttl : option Q) : M (option payload) :=
  self <- get_self ;;
  let '(cache_type, cache) := select_cache cache_type (caches self) in
  now <- time_time ;;
  let '(r, cache) := EnhancedCache.set cache cache_key data ttl now in
  _ <- modify_self (fun self => with_caches (caches_store cache_type cache (caches self)) self) ;;
  ret r.

(** *** Inventory *)

(** [c.lower()] for a cell: a number has no such method. *)
Definition cell_lower (c : cell) : outcome exn string :=
  match c with
  | CStr s => Returned (lower s)
  | CNum _ => Raised (AttributeError B)
  end.

(** The lines shared by the two loops over inventory rows, from
    [product_name = ...] to the [product] dict. *)
Definition make_product (item : gmap string cell) : outcome exn product :=
  let product_name :=
    default (default (CStr "Unknown") (item !! "Strain"%string)) (item !! "Name"%string) in
  match product_name with
  | CNum _ => Raised (AttributeError B)
  | CStr name =>
      let product_key := replace_space_by_underscore (lower name) in
      match cell_lower (default (CStr EmptyString) (item !! "Tag"%string)) with
      | Raised e => Raised e
      | Returned product_tag =>
          match cell_lower (default (CStr EmptyString) (item !! "Type"%string)) with
          | Raised e => Raised e
          | Returned strain_type =>
              let price := default (CInt 0) (item !! "Price"%string) in
              let stock := default (CInt 0) (item !! "Stock"%string) in
              Returned (Product name product_key price stock product_tag strain_type
                          (default (CStr EmptyString) (item !! "Weight"%string))
                          (default (CStr EmptyString) (item !! "Brand"%string)))
          end
      end
  end.

(** [if key in d: d[key].append(product)] *)
Definition append_under (key : string) (p : product) (d : gmap string (list product))
  : gmap string (list product) :=
  match d !! key with
  | Some l => <[key := l ++ [p]]> d
  | None => d
  end.

Definition empty_products_by_tag : gmap string (list product) :=
  list_to_map [("buds", []); ("local", []); ("carts", []); ("edibs", [])]%string.

Definition empty_products_by_strain : gmap string (list product) :=
  list_to_map [("indica", []); ("sativa", []); ("hybrid", [])]%string.

Definition empty_inventory : inventory :=
  (empty_products_by_tag, empty_products_by_strain, []).

(** The loop of [fetch_inventory] over the rows read from the sheet. *)
Fixpoint categorize (inventory_data : list (gmap string cell)) (acc : inventory)
  : outcome exn inventory :=
  match inventory_data with
  | [] => Returned acc
  | item :: rest =>
      match item !! "Stock"%string with
      | None => categorize rest acc
      | Some (CStr _) => Raised (TypeError B)
      | Some (CNum stock) =>
          if Qle_bool stock 0 then categorize rest acc
          else
            match make_product item with
            | Raised e => Raised e
            | Returned p =>
                let '(products_by_tag, products_by_strain, all_products) := acc in
                categorize rest
                  (append_under (p_tag p) p products_by_tag,
                   append_under (p_strain p) p products_by_strain,
                   all_products ++ [p])
            end
      end
  end.

(** The loop of [_create_default_inventory]. *)
Fixpoint categorize_default (items : list (gmap string cell)) (acc : inventory)
  : outcome exn inventory :=
  match items with
  | [] => Returned acc
  | item :: rest =>
      match make_product item with
      | Raised e => Raised e
      | Returned p =>
          let '(products_by_tag, products_by_strain, all_products) := acc in
          let products_by_tag :=
            if negb (bool_decide (p_tag p = EmptyString))
            then append_under (p_tag p) p products_by_tag else products_by_tag in
          let products_by_strain :=
            if negb (bool_decide (p_strain p = EmptyString))
            then append_under (p_strain p) p products_by_strain else products_by_strain in
          categorize_default rest (products_by_tag, products_by_strain, all_products ++ [p])
      end
  end.

Definition _create_default_inventory : M inventory :=
  result <- lift_outcome (categorize_default DEFAULT_INVENTORY empty_inventory) ;;
  _ <- log "errors" WARNING UsingDefaultInventory ;;
  ret result.

Definition fetch_inventory : M (option payload) :=
  r <- _check_cache "inventory_data" "inventory" None ;;
  let '(is_valid, cached_data) := r in
  if is_valid then ret cached_data
  else
    try_except
      (r <- initialize_sheets ;;
       let '(_, inventory_sheet) := r in
       match inventory_sheet with
       | None =>
           default_inventory <- _create_default_inventory ;;
           _update_cache "inventory_data" (Some (InventoryData default_inventory))
             "inventory" None
       | Some inventory_sheet =>
           _ <- _rate_limit_request "inventory" ;;
           inventory_data <- remote (worksheet_get_all_records B inventory_sheet) ;;
           result <- lift_outcome (categorize inventory_data empty_inventory) ;;
           _update_cache "inventory_data" (Some (InventoryData result)) "inventory" None
       end)
      (fun e =>
         _ <- log_error (ErrorFetchingInventory e) ;;
         default_inventory <- _create_default_inventory ;;
         _update_cache "inventory_data" (Some (InventoryData default_inventory))
           "inventory" None).

(** *** Orders *)

(** [await RetryableOperation(...).run(operation_func, operation_name)] *)
Definition run_retryable {R} (handler : RetryableOperation.t exn)
    (operation_func : RetryableOperation.callable state R exn)
    (operation_name : option string) : M R :=
  fun s =>
    match RetryableOperation.run sleep_state random_state log_state (RuntimeError B)
            (OverflowError B) handler operation_func operation_name s with
    | Some (o, s, _) => Some (o, s)
    | None => None
    end.

(** The column adjustment of [add_order_to_sheet]. *)
Definition adjust_columns (order_data : list cell) : list cell :=
  let expected_columns := length SHEET_HEADERS in
  if bool_decide (length order_data = expected_columns) then order_data
  else if bool_decide (length order_data < expected_columns)%nat
  then order_data ++ replicate (expected_columns - length order_data)%nat (CStr EmptyString)
  else take expected_columns order_data.

(** The closure [add_to_sheet]. *)
Definition add_to_sheet (sheet : worksheet) (order_data : list cell) (next_row : option Z)
  : RetryableOperation.callable state bool exn :=
  RetryableOperation.Callable (Some "add_to_sheet"%string)
    (fun s =>
       let '(o, w) :=
         match next_row with
         | Some n =>
             if negb (n =? 0) then worksheet_insert_row B sheet order_data n (world s)
             else worksheet_append_row B sheet order_data (world s)
         | None => worksheet_append_row B sheet order_data (world s)
         end in
       (match o with Returned _ => Returned true | Raised e => Raised e end,
        State w (self s) (logs s) (slept s))).

Definition add_order_to_sheet (order_data : list cell) : M bool :=
  try_except
    (r <- initialize_sheets ;;
     match fst r with
     | None =>
         _ <- log_error FailedToInitializeSheetForAddingOrder ;;
         ret false
     | Some sheet =>
         _ <- _rate_limit_request "sheets_write" ;;
         let order_data := adjust_columns order_data in
         r <- attempt (remote (worksheet_col_values B sheet 1)) ;;
         next_row <-
           match r with
           | Returned col_a => ret (Some (Z.of_nat (length col_a) + 1))
           | Raised row_err => _ <- log_error (ErrorFindingNextRow row_err) ;; ret None
           end ;;
         let retry_handler :=
           RetryableOperation.Retryable 3 1%Q (is_connection_error B) true in
         success <- run_retryable retry_handler (add_to_sheet sheet order_data next_row)
                      (Some "add_order_to_sheet"%string) ;;
         _ <- (if success then
                 self <- get_self ;;
                 match caches_lookup "orders" (caches self) with
                 | Some orders =>
                     modify_self (fun self =>
                       with_caches (caches_store "orders" (EnhancedCache.clear orders None)
                                      (caches self)) self)
                 | None => ret tt
                 end
               else ret tt) ;;
         ret success
     end)
    (fun e => _ <- log_error (FailedToAddOrder e) ;; ret false).

(** [cell == text] *)
Definition cell_is (c : option cell) (text : string) : bool :=
  match c with
  | Some (CStr s) => bool_decide (s = text)
  | _ => false
  end.

(** The [try] block of [get_order_details]: the remote read. *)
Definition read_order_details (cache_key order_id : string) : M (option payload) :=
  try_except
    (r <- initialize_sheets ;;
     match fst r with
     | None =>
         _ <- log_error FailedToGetSheetForOrderDetails ;;
         ret None
     | Some sheet =>
         _ <- _rate_limit_request "sheets_read" ;;
         orders <- remote (worksheet_get_all_records B sheet) ;;
         match List.find (fun order : gmap string cell =>
                            cell_is (order !! "Order ID"%string) order_id
                            && cell_is (order !! "Product"%string) "COMPLETE ORDER")
                 orders with
         | Some order => _update_cache cache_key (Some (OrderRecord order)) "orders" None
         | None => _update_cache cache_key None "orders" (Some 30%Q)
         end
     end)
    (fun e => _ <- log_error (FailedToGetOrderDetails e) ;; ret None).

Definition get_order_details (order_id : string) : M (option payload) :=
  let cache_key := ("order_" ++ order_id)%string in
  r <- _check_cache cache_key "orders" (Some 30%Q) ;;
  let '(is_valid, cached_data) := r in
  if is_valid then ret cached_data
  else read_order_details cache_key order_id.

End WithBackend.
Arguments backend : clear implicits.
Arguments manager : clear implicits.
Arguments state : clear implicits.
End GoogleAPIsManager.

(** * Specifications *)

(** ** Cache: residency, the lockstep invariant, histories *)

Module CacheSpec.
Section WithPayload.
Context {V : Type}.
Implicit Types (c : EnhancedCache.t V) (key : string).

(** [key in self.cache] *)
Definition resident c key : Prop := is_Some (EnhancedCache.cache c !! key).

(** The recency sequence of a cache, least recently used first. *)
Definition recency c : list string := Deque.items (EnhancedCache.access_order c).

(** The recency sequence names exactly the resident keys, each once. *)
Definition lockstep c : Prop :=
  NoDup (recency c) /\ forall key, key ∈ recency c <-> resident c key.

(** The invariant of the data model: bounded and in lockstep. *)
Definition bounded_lockstep c : Prop :=
  Z.of_nat (size (EnhancedCache.cache c)) <= EnhancedCache.max_items c /\ lockstep c.

(** What holds of every cache object whatever its bound: the deque is
    the one built by the constructor, it has no duplicates, and it
    names resident keys only; with a positive bound it names them all. *)
Definition consistent c : Prop :=
  Deque.maxlen (EnhancedCache.access_order c) = EnhancedCache.max_items c
  /\ 0 <= EnhancedCache.max_items c
  /\ Z.of_nat (length (recency c)) <= EnhancedCache.max_items c
  /\ NoDup (recency c)
  /\ (forall key, key ∈ recency c -> resident c key)
  /\ (1 <= EnhancedCache.max_items c -> forall key, resident c key -> key ∈ recency c).

(** Every entry has the three fields that [set] writes. *)
Definition complete c : Prop :=
  forall key e, EnhancedCache.cache c !! key = Some e ->
    is_Some (EnhancedCache.e_data e) /\ is_Some (EnhancedCache.e_timestamp e)
    /\ is_Some (EnhancedCache.e_ttl e).

(** [c] is the cache built with bound [max_items] after the calls of
    [history]. *)
Definition reached (max_items : Z) (history : list (EnhancedCache.op V)) c : Prop :=
  exists c0, EnhancedCache.__init__ max_items = Some c0 /\ c = EnhancedCache.run c0 history.

(** [key] was used strictly before [key'] was last used. *)
Definition older (history : list (EnhancedCache.op V)) key key' : Prop :=
  exists i j, EnhancedCache.last_use history key = Some i
              /\ EnhancedCache.last_use history key' = Some j /\ (i < j)%nat.

(** [key] is the least recently used resident key. *)
Definition least_recently_used (history : list (EnhancedCache.op V)) c key : Prop :=
  resident c key /\ forall key', resident c key' -> key' <> key -> older history key key'.

(** The recency sequence lists keys by increasing time of last use. *)
Fixpoint by_last_use (history : list (EnhancedCache.op V)) (l : list string) : Prop :=
  match l with
  | [] => True
  | key :: l => (forall key', key' ∈ l -> older history key key') /\ by_last_use history l
  end.

(** The state on which [set] stores the entry: after the eviction, if any. *)
Definition before_store c key : EnhancedCache.t V :=
  if (EnhancedCache.max_items c <=? Z.of_nat (size (EnhancedCache.cache c)))
     && negb (bool_decide (is_Some (EnhancedCache.cache c !! key)))
  then EnhancedCache._evict_lru c else c.

(** Every key of the recency sequence was used, and the sequence lists
    the keys by increasing time of last use. *)
Definition ordered (history : list (EnhancedCache.op V)) (l : list string) : Prop :=
  by_last_use history l /\ forall key, key ∈ l -> is_Some (EnhancedCache.last_use history key).

End WithPayload.
End CacheSpec.

(** The deque after [_update_access_order]: the key moves to the tail. *)
Definition moved_to_tail (key : string) (d : Deque.deque) : Deque.deque :=
  Deque.append key (if Deque.contains key d then Deque.remove key d else d).
Arguments moved_to_tail : simpl never.

(** ** Manager: totality and the cache frame *)

Module ManagerSpec.
Section WithState.
Context {World exn client worksheet : Type}.
Import GoogleAPIsManager.

(** A method that always produces a result. *)
Definition total {A} (m : M (World:=World) (exn:=exn) (client:=client) (worksheet:=worksheet) A)
  : Prop :=
  forall s, is_Some (m s).

(** A method that leaves the four caches as they are. *)
Definition keeps_caches {A}
    (m : M (World:=World) (exn:=exn) (client:=client) (worksheet:=worksheet) A) : Prop :=
  forall s r s', m s = Some (r, s') -> caches (self s') = caches (self s).

(** Every key of [keys] has a product under it in [d]. *)
Definition stocked (d : gmap string (list product)) (keys : list string) : bool :=
  forallb (fun k => match d !! k with Some (_ :: _) => true | _ => false end) keys.

(** The housekeeping at the end of [_rate_limit_request]. *)
Definition housekept (d : list (string * Q)) : list (string * Q) :=
  if 20 <? Z.of_nat (length d) then take 10 (OrderedDict.sorted_desc d) else d.

End WithState.
End ManagerSpec.

(** * Examples: concrete runtimes and states *)

Module Examples.
Import RetryableOperation GoogleAPIsManager.

(** A retrier runtime whose state counts the calls of the operation. *)
Definition sleep_nat (d : Q) (s : nat) : nat := s.
Definition draw_half (s : nat) : Q * nat := ((1 # 2)%Q, s).
Definition no_log (r : log_record string) (s : nat) : nat := s.
Definition runtime_error (m : message string) : string := "RuntimeError".
Definition overflow_error : string := "OverflowError".

Definition always_times_out : callable nat unit string :=
  Callable (Some "always_times_out"%string) (fun s => (Raised "TimeoutError"%string, S s)).

Definition rejects_input : callable nat unit string :=
  Callable (Some "rejects_input"%string) (fun s => (Raised "ValueError"%string, S s)).

(** [RetryableOperation(loggers, max_retries=3, retry_on=(TimeoutError,))] *)
Definition policy : RetryableOperation.t string :=
  Retryable 3 1%Q (fun e => bool_decide (e = "TimeoutError"%string)) true.

(** [RetryableOperation(loggers, max_retries=1025, retry_on=(TimeoutError,))] *)
Definition patient : RetryableOperation.t string :=
  Retryable 1025 1%Q (fun e => bool_decide (e = "TimeoutError"%string)) true.

(** The run of [always_times_out] under [policy]. *)
Definition exhausted : outcome string unit * nat * list (event unit string) :=
  default (Raised EmptyString, 0%nat, [])
    (run sleep_nat draw_half no_log runtime_error overflow_error policy always_times_out
       None 0%nat).

(** A backend whose clock is the world itself and whose calls succeed. *)
Definition online : backend Q string unit unit string :=
  {| clock := fun w => w;
     asyncio_sleep := fun d w => (w + d)%Q;
     random_random := fun w => ((1 # 2)%Q, w);
     authorize := fun w => (Returned tt, w);
     client_open := fun _ _ w => (Returned tt, w);
     spreadsheet_sheet1 := fun _ w => (Returned "Orders"%string, w);
     spreadsheet_add_worksheet := fun _ title _ _ w => (Returned title, w);
     spreadsheet_worksheet := fun _ title w => (Returned title, w);
     worksheet_append_row := fun _ _ w => (Returned tt, w);
     worksheet_row_values := fun _ _ w => (Returned [], w);
     worksheet_update := fun _ _ _ w => (Returned tt, w);
     worksheet_get_all_records := fun _ w => (Returned [], w);
     worksheet_col_values := fun _ _ w => (Returned [], w);
     worksheet_insert_row := fun _ _ _ w => (Returned tt, w);
     RuntimeError := fun _ => "RuntimeError"%string;
     OverflowError := "OverflowError"%string;
     TypeError := "TypeError"%string;
     AttributeError := "AttributeError"%string;
     is_connection_error := fun e => bool_decide (e = "ConnectionError"%string) |}.

(** The same backend with a spreadsheet that cannot be read. *)
Definition offline : backend Q string unit unit string :=
  {| clock := clock online;
     asyncio_sleep := asyncio_sleep online;
     random_random := random_random online;
     authorize := authorize online;
     client_open := client_open online;
     spreadsheet_sheet1 := spreadsheet_sheet1 online;
     spreadsheet_add_worksheet := spreadsheet_add_worksheet online;
     spreadsheet_worksheet := spreadsheet_worksheet online;
     worksheet_append_row := worksheet_append_row online;
     worksheet_row_values := worksheet_row_values online;
     worksheet_update := worksheet_update online;
     worksheet_get_all_records := fun _ w => (Raised "ConnectionError"%string, w);
     worksheet_col_values := worksheet_col_values online;
     worksheet_insert_row := worksheet_insert_row online;
     RuntimeError := RuntimeError online;
     OverflowError := OverflowError online;
     TypeError := TypeError online;
     AttributeError := AttributeError online;
     is_connection_error := is_connection_error online |}.

Definition no_cache : EnhancedCache.t payload :=
  EnhancedCache.Cache ∅ (Deque.Deque [] 0) 0 0 0 0%Q.

(** The manager as constructed. *)
Definition fresh_manager : manager unit string :=
  default (Manager [] None None None false (CacheTable no_cache no_cache no_cache no_cache))
    __init__.

(** The process right after start, at some Unix time. *)
Definition boot : state Q string unit string :=
  State (inject_Z 1700000000) fresh_manager [] [].

(** The state a method leaves. *)
Definition after {A} (m : M (World:=Q) (exn:=string) (client:=unit) (worksheet:=string) A)
    (s : state Q string unit string) : state Q string unit string :=
  match m s with
  | Some (_, s') => s'
  | None => s
  end.

Definition an_order : gmap string cell :=
  list_to_map [("Order ID", CStr "WW-1"); ("Product", CStr "COMPLETE ORDER")]%string.

(** A cache of two entries holding one key written at time 0. *)
Definition one_key_history : list (EnhancedCache.op nat) :=
  [EnhancedCache.OpSet "k" (Some 7%nat) None 0%Q].

Definition one_key_cache : EnhancedCache.t nat :=
  EnhancedCache.run
    (default (EnhancedCache.Cache ∅ (Deque.Deque [] 0) 0 0 0 0%Q) (EnhancedCache.__init__ 2))
    one_key_history.

(** A full cache of two entries: [set(A)], [set(B)], [get(A)]. *)
Definition full_history : list (EnhancedCache.op nat) :=
  [EnhancedCache.OpSet "A" (Some 1%nat) None 0%Q;
   EnhancedCache.OpSet "B" (Some 2%nat) None 1%Q;
   EnhancedCache.OpGet "A" None 2%Q].

Definition full_cache : EnhancedCache.t nat :=
  EnhancedCache.run
    (default (EnhancedCache.Cache ∅ (Deque.Deque [] 0) 0 0 0 0%Q) (EnhancedCache.__init__ 2))
    full_history.

(** The process after [get_order_details] cached the order [WW-1]. *)
Definition with_order : state Q string unit string :=
  after (_update_cache online "order_WW-1" (Some (OrderRecord an_order)) "orders" None) boot.

(** The process after a first throttled write, and the start of a second
    one 0.2s later. *)
Definition first_write : state Q string unit string :=
  after (_rate_limit_request online "sheets_write") boot.

Definition second_write_start : state Q string unit string :=
  State (clock online (world first_write) + (2 # 10))%Q (self first_write) [] [].

Definition second_write : state Q string unit string :=
  after (_rate_limit_request online "sheets_write") second_write_start.

End Examples.

(** * Further parts of the program *)

(** ** [utils/retryable.py]: loggers that may raise, and [retry_operation] *)

Module RetryOperation.
Section WithLoggers.
Context {S R exn : Type}.
Import RetryableOperation.

Variable asyncio_sleep : Q -> S -> S.
Variable random_random : S -> Q * S.
Variable RuntimeError : message exn -> exn.
Variable OverflowError : exn.
(** The [AttributeError] of a method missing on an object. *)
Variable AttributeError : exn.
(** [isinstance(e, (ConnectionError, TimeoutError, BrokenPipeError))] *)
Variable is_connection_error : exn -> bool.

(** The dict [loggers]: a call [loggers[name].<level>(message)] may raise. *)
Definition loggers : Type := log_record exn -> S -> outcome exn unit * S.

(** The default [{"errors": print, "main": print}]: the built-in [print]
    has no attribute [error] or [warning], so every logging call raises
    [AttributeError] at the attribute lookup. *)
Definition print_loggers : loggers := fun _ s => (Raised AttributeError, s).

(** The loop of [RetryableOperation.run] with such loggers: an exception
    raised by a logging call inside an [except] clause leaves [run]. *)
Fixpoint run_loop (log : loggers) (fuel : nat) (self : RetryableOperation.t exn)
    (operation_func : callable S R exn) (operation_name : string) (retry_count : Z)
    (last_exception : option exn) (s : S)
  : option (outcome exn R * S * list (event R exn)) :=
  match fuel with
  | O => None
  | Datatypes.S fuel =>
      if retry_count <=? max_retries self then
        let '(o, s) := call operation_func s in
        match o with
        | Returned result => Some (Returned result, s, [EvCall o])
        | Raised e =>
            if retry_on self e then
              let retry_count := retry_count + 1 in
              let last_exception := Some e in
              if retry_count >? max_retries self then
                match log (LogRecord "errors" ERROR
                             (OperationFailedAfter operation_name retry_count e)) s with
                | (Raised log_err, s) => Some (Raised log_err, s, [EvCall o])
                | (Returned _, s) =>
                    Some (raise_last RuntimeError operation_name last_exception, s,
                          [EvCall o])
                end
              else
                match backoff OverflowError self retry_count with
                | Raised err => Some (Raised err, s, [EvCall o])
                | Returned delay =>
                    let '(delay, s) :=
                      if use_jitter self then
                        let '(jitter_amount, s) :=
                          random_uniform random_random 0 (0.5 * delay) s in
                        ((delay + jitter_amount)%Q, s)
                      else (delay, s) in
                    match log (LogRecord "main" WARNING
                                 (OperationAttemptFailed operation_name retry_count
                                    (max_retries self) e delay)) s with
                    | (Raised log_err, s) => Some (Raised log_err, s, [EvCall o])
                    | (Returned _, s) =>
                        let s := asyncio_sleep delay s in
                        match run_loop log fuel self operation_func operation_name
                                retry_count last_exception s with
                        | Some (r, s, events) =>
                            Some (r, s, EvCall o :: EvSleep delay :: events)
                        | None => None
                        end
                    end
                end
            else
              match log (LogRecord "errors" ERROR
                           (NonRetryableError operation_name e)) s with
              | (Raised log_err, s) => Some (Raised log_err, s, [EvCall o])
              | (Returned _, s) => Some (Raised e, s, [EvCall o])
              end
        end
      else Some (raise_last RuntimeError operation_name last_exception, s, [])
  end.

(** [RetryableOperation(loggers, ...).run(operation_func, operation_name)] *)
Definition run (log : loggers) (self : RetryableOperation.t exn)
    (operation_func : callable S R exn) (operation_name : option string) (s : S)
  : option (outcome exn R * S * list (event R exn)) :=
  let operation_name :=
    match operation_name with
    | Some n => if bool_decide (n = EmptyString)
                then default "unknown_operation"%string (__name__ operation_func) else n
    | None => default "unknown_operation"%string (__name__ operation_func)
    end in
  run_loop log (Datatypes.S (Z.to_nat (max_retries self + 1))) self operation_func
    operation_name 0 None s.

(** [retry_operation(operation, operation_name, max_retries, loggers)];
    [given] is [None] for a falsy [loggers] argument ([None] or [{}]). *)
Definition retry_operation (operation : callable S R exn) (operation_name : option string)
    (max_retries : Z) (given : option loggers) (s : S)
  : option (outcome exn R * S * list (event R exn)) :=
  let loggers :=
    match given with
    | Some l => l
    | None => print_loggers
    end in
  let retry_handler := Retryable max_retries 1%Q is_connection_error true in
  run loggers retry_handler operation operation_name s.

End WithLoggers.
End RetryOperation.

(** ** [config/constants.py]: the column indices *)

(** [{name: idx+1 for idx, name in enumerate(SHEET_HEADERS)}] *)
Definition SHEET_COLUMN_INDICES : list (string * Z) :=
  imap (fun idx name => (name, Z.of_nat idx + 1)) SHEET_HEADERS.

(** ** [apis/google_api_manager.py]: statistics and status updates *)

(** The f-string templates of the log calls of [update_order_status]. *)
Inductive note (exn : Type) :=
| FailedToInitializeSheetsForUpdatingOrder (order_id : string)
| UpdatedOrderStatus (order_id new_status : string) (with_tracking : bool)
| FailedToUpdateSheetCells (order_id : string)
| OrderNotFoundForStatusUpdate (order_id : string)
| ErrorUpdatingOrderStatus (e : exn).
Arguments FailedToInitializeSheetsForUpdatingOrder {exn}.
Arguments UpdatedOrderStatus {exn}.
Arguments FailedToUpdateSheetCells {exn}.
Arguments OrderNotFoundForStatusUpdate {exn}.
Arguments ErrorUpdatingOrderStatus {exn}.

Module OrderStatus.
Import GoogleAPIsManager.

Section Stats.
Context {client worksheet : Type}.

(** The entry [stats["total"]] of [get_cache_stats]. *)
Record totals := Totals {
  t_hits : Z; t_misses : Z; t_hit_ratio : Q; t_total_requests : Z; t_cache_types : Z
}.

(** [self.caches.items()], in the order of the dict literal. *)
Definition caches_items (c : cache_table) : list (string * EnhancedCache.t payload) :=
  [("inventory", inventory_cache c); ("orders", orders_cache c);
   ("sheets", sheets_cache c); ("drive", drive_cache c)]%string.

(** [get_cache_stats()]: the statistics of each cache, and the totals. *)
Definition get_cache_stats (self : manager client worksheet)
  : list (string * EnhancedCache.stats) * totals :=
  let '(stats, total_hits, total_misses) :=
    fold_left
      (fun (acc : list (string * EnhancedCache.stats) * Z * Z)
           (item : string * EnhancedCache.t payload) =>
         let '(stats, total_hits, total_misses) := acc in
         let cache_stats := EnhancedCache.get_stats (snd item) in
         (stats ++ [(fst item, cache_stats)],
          total_hits + EnhancedCache.st_hits cache_stats,
          total_misses + EnhancedCache.st_misses cache_stats))
      (caches_items (caches self)) ([], 0, 0) in
  let total_requests := total_hits + total_misses in
  let hit_ratio :=
    if total_requests =? 0 then 0%Q
    else (inject_Z total_hits / inject_Z total_requests)%Q in
  (stats,
   Totals total_hits total_misses hit_ratio total_requests
     (Z.of_nat (length (caches_items (caches self))))).

End Stats.

Section WithBackend.
Context {World exn client spreadsheet worksheet : Type}.
Variable B : backend World exn client spreadsheet worksheet.

(** [worksheet.update_cell(row, col, value)] *)
Variable worksheet_update_cell :
  worksheet -> Z -> Z -> cell -> World -> outcome exn unit * World.
(** [int(text)]; [None] stands for the [ValueError] of text that is not
    an integer literal. *)
Variable int_of_text : string -> option Z.
(** What the loggers do with a record of [update_order_status]: their
    handlers write to the world outside the process. *)
Variable emit : string -> level -> note exn -> World -> World.

Notation "x <- m ;; k" := (bind m (fun x => k))
  (at level 100, m at next level, right associativity).

(** [self.loggers[logger].<level>(message)] *)
Definition log_note (logger : string) (lvl : level) (n : note exn)
  : M (World:=World) (exn:=exn) (client:=client) (worksheet:=worksheet) unit :=
  fun s => Some (Returned tt,
                 State (emit logger lvl n (world s)) (self s) (logs s) (slept s)).

(** [int(cell)] under [except (ValueError, TypeError)]: a number is
    truncated towards zero. *)
Definition py_int (c : cell) : option Z :=
  match c with
  | CNum q => Some (Z.quot (Qnum q) (Z.pos (Qden q)))
  | CStr s => int_of_text s
  end.

(** The [for idx, order in enumerate(all_orders)] loop: the first row
    with the order id whose product is [COMPLETE ORDER], and its index. *)
Fixpoint find_order (order_id : string) (idx : Z) (all_orders : list (gmap string cell))
  : option (Z * gmap string cell) :=
  match all_orders with
  | [] => None
  | order :: rest =>
      if cell_is (order !! "Order ID"%string) order_id
         && cell_is (order !! "Product"%string) "COMPLETE ORDER"
      then Some (idx, order)
      else find_order order_id (idx + 1) rest
  end.

(** The body of the closure [update_sheet_cells]: one [update_cell] and
    a sleep of half a second for each field that has a column. *)
Fixpoint update_cells (sheet : worksheet) (row_number : Z) (updates : list (string * cell))
    (s : state World exn client worksheet)
  : outcome exn bool * state World exn client worksheet :=
  match updates with
  | [] => (Returned true, s)
  | (field, value) :: rest =>
      match OrderedDict.get field SHEET_COLUMN_INDICES with
      | Some col_idx =>
          let '(o, w) := worksheet_update_cell sheet row_number col_idx value (world s) in
          let s := State w (self s) (logs s) (slept s) in
          match o with
          | Returned _ => update_cells sheet row_number rest (sleep_state B (1 # 2) s)
          | Raised e => (Raised e, s)
          end
      | None => update_cells sheet row_number rest s
      end
  end.

Definition update_sheet_cells (sheet : worksheet) (row_number : Z)
    (updates : list (string * cell))
  : RetryableOperation.callable (state World exn client worksheet) bool exn :=
  RetryableOperation.Callable (Some "update_sheet_cells"%string)
    (update_cells sheet row_number updates).

(** The dict [updates]: the status, and the tracking link when truthy. *)
Definition status_updates (new_status : string) (tracking_link : option string)
  : list (string * cell) :=
  ("Status"%string, CStr new_status)
  :: match tracking_link with
     | Some link =>
         if bool_decide (link = EmptyString) then []
         else [("Tracking Link"%string, CStr link)]
     | None => []
     end.

(** [if tracking_link] *)
Definition has_tracking (tracking_link : option string) : bool :=
  match tracking_link with
  | Some link => negb (bool_decide (link = EmptyString))
  | None => false
  end.

Definition update_order_status (order_id new_status : string)
    (tracking_link : option string) : M (bool * option Z) :=
  try_except
    (r <- initialize_sheets B ;;
     match fst r with
     | None =>
         _ <- log_note "errors" ERROR (FailedToInitializeSheetsForUpdatingOrder order_id) ;;
         ret (false, None)
     | Some sheet =>
         _ <- _rate_limit_request B "sheets_write" ;;
         all_orders <- remote (worksheet_get_all_records B sheet) ;;
         match find_order order_id 0 all_orders with
         | Some (idx, order) =>
             let customer_id :=
               match order !! "Telegram ID"%string with
               | Some c => py_int c
               | None => None
               end in
             let row_number := idx + 2 in
             let updates := status_updates new_status tracking_link in
             let retry_handler :=
               RetryableOperation.Retryable 3 1%Q (is_connection_error B) true in
             success <- run_retryable B retry_handler
                          (update_sheet_cells sheet row_number updates)
                          (Some ("update_order_status_" ++ order_id)%string) ;;
             let cache_key := ("order_" ++ order_id)%string in
             _ <- (self <- get_self ;;
                   match caches_lookup "orders" (caches self) with
                   | Some orders =>
                       modify_self (fun self =>
                         with_caches
                           (caches_store "orders"
                              (EnhancedCache.clear orders (Some cache_key))
                              (caches self)) self)
                   | None => ret tt
                   end) ;;
             _ <- (if success : bool then
                     log_note "main" INFO
                       (UpdatedOrderStatus order_id new_status (has_tracking tracking_link))
                   else log_note "errors" ERROR (FailedToUpdateSheetCells order_id)) ;;
             ret (success, customer_id)
         | None =>
             _ <- log_note "errors" ERROR (OrderNotFoundForStatusUpdate order_id) ;;
             ret (false, None)
         end
     end)
    (fun e =>
       _ <- log_note "errors" ERROR (ErrorUpdatingOrderStatus e) ;;
       ret (false, None)).

End WithBackend.
End OrderStatus.

(** * Further notions and scenarios *)

(** ** Cache statistics: the lookups of a history *)

Module StatsSpec.
Section WithPayload.
Context {V : Type}.

(** A call of [get]: the only method that counts a hit or a miss. *)
Definition is_get (o : EnhancedCache.op V) : bool :=
  match o with
  | EnhancedCache.OpGet _ _ _ => true
  | _ => false
  end.

(** The number of [get] calls of a history. *)
Definition lookups (history : list (EnhancedCache.op V)) : nat :=
  length (List.filter is_get history).

End WithPayload.
End StatsSpec.

(** ** Retrier: the time slept *)

Module RetrySpec.

(** The sum of the delays passed to [asyncio.sleep]. *)
Definition total_delay (delays : list Q) : Q := foldr Qplus 0%Q delays.

End RetrySpec.

(** ** Manager: what a method returns and what it may change *)

Module FrameSpec.
Section WithBackend.
Context {World exn client spreadsheet worksheet : Type}.
Variable B : GoogleAPIsManager.backend World exn client spreadsheet worksheet.
Import GoogleAPIsManager.

Notation "x <- m ;; k" := (bind m (fun x => k))
  (at level 100, m at next level, right associativity).

(** A method that returns a value in every state: it neither raises nor
    runs out of fuel. *)
Definition returns {A}
    (m : M (World:=World) (exn:=exn) (client:=client) (worksheet:=worksheet) A) : Prop :=
  forall s, exists a s', m s = Some (Returned a, s').

(** A method that leaves the four caches as they are, except possibly
    when it returns a value that satisfies [good]. *)
Definition changes_caches_only_on {A} (good : A -> Prop)
    (m : M (World:=World) (exn:=exn) (client:=client) (worksheet:=worksheet) A) : Prop :=
  forall s r s', m s = Some (r, s') ->
    (exists a, r = Returned a /\ good a) \/ caches (self s') = caches (self s).

(** The part of [fetch_inventory] between the cache lookup and the cache
    store: the catalog read from the inventory sheet, or the default
    catalog when there is no inventory sheet. *)
Definition read_inventory : M inventory :=
  r <- initialize_sheets B ;;
  match snd r with
  | None => _create_default_inventory B
  | Some inventory_sheet =>
      _ <- _rate_limit_request B "inventory" ;;
      inventory_data <- remote (worksheet_get_all_records B inventory_sheet) ;;
      lift_outcome (categorize B inventory_data empty_inventory)
  end.

(** The cache store that ends every path of [fetch_inventory]. *)
Definition store_inventory (inv : inventory) : M (option payload) :=
  _update_cache B "inventory_data" (Some (InventoryData inv)) "inventory" None.

End WithBackend.
End FrameSpec.

(** ** Inventory: what a catalog lists *)

Module InventorySpec.
Import GoogleAPIsManager.

(** The fixed categories of [fetch_inventory]. *)
Definition tags : list string := ["buds"; "local"; "carts"; "edibs"]%string.
Definition strains : list string := ["indica"; "sativa"; "hybrid"]%string.

(** The dict [d] files the products of [all] by their field [f]: its
    keys are [keys], the list under a key holds products of [all] whose
    field is that key, and every product of [all] whose field is one of
    [keys] is in the list under it. *)
Definition filed_by (f : product -> string) (keys : list string)
    (d : gmap string (list product)) (all : list product) : Prop :=
  (forall k l, d !! k = Some l -> k ∈ keys /\ forall p, p ∈ l -> f p = k /\ p ∈ all)
  /\ (forall k, k ∈ keys -> is_Some (d !! k))
  /\ (forall p, p ∈ all -> f p ∈ keys -> exists l, d !! f p = Some l /\ p ∈ l).

(** A product whose stock is a positive number. *)
Definition in_stock (p : product) : Prop :=
  exists q, p_stock p = CNum q /\ (0 < q)%Q.

(** A catalog filed by tag and by strain. *)
Definition filed (inv : inventory) : Prop :=
  filed_by p_tag tags (fst (fst inv)) (snd inv)
  /\ filed_by p_strain strains (snd (fst inv)) (snd inv).

End InventorySpec.

(** ** Scenarios *)

Module Scenarios.
Import RetryableOperation GoogleAPIsManager Examples.

(** An operation that times out twice and then succeeds; the state counts
    its calls. *)
Definition flaky : callable nat unit string :=
  Callable (Some "flaky"%string)
    (fun s => if (s <? 2)%nat then (Raised "TimeoutError"%string, S s) else (Returned tt, S s)).

(** The failures [flaky] still has in stock. *)
Definition flaky_left (s : nat) : nat := (2 - s)%nat.

(** The run of [flaky] under [policy]. *)
Definition recovered : outcome string unit * nat * list (event unit string) :=
  default (Raised EmptyString, 0%nat, [])
    (run sleep_nat draw_half no_log runtime_error overflow_error policy flaky None
       0%nat).

(** [RetryableOperation(loggers, max_retries=-1)] *)
Definition no_attempts : RetryableOperation.t string :=
  Retryable (-1) 1%Q (fun e => bool_decide (e = "TimeoutError"%string)) true.

(** The process after [initialize_sheets] obtained both sheets. *)
Definition sheets_ready : state Q string unit string :=
  after (initialize_sheets online) boot.

(** The process after a [fetch_inventory] that could not read the sheet,
    what that call returned, and the cache entry it left. *)
Definition degraded : state Q string unit string :=
  after (fetch_inventory offline) boot.

Definition degraded_catalog : option payload :=
  match fetch_inventory offline boot with
  | Some (Returned v, _) => v
  | _ => None
  end.

Definition cached_catalog : EnhancedCache.entry payload :=
  default (EnhancedCache.Entry None None None)
    (EnhancedCache.cache (inventory_cache (caches (self degraded)))
       !! "inventory_data"%string).

(** Two rows of an inventory sheet: one in stock, one sold out. *)
Definition sheet_rows : list (gmap string cell) :=
  [ list_to_map [("Name", CStr "Purple Haze"); ("Type", CStr "Sativa");
                 ("Tag", CStr "buds"); ("Price", CInt 2500); ("Stock", CInt 4)];
    list_to_map [("Name", CStr "Old Batch"); ("Type", CStr "indica");
                 ("Tag", CStr "buds"); ("Price", CInt 900); ("Stock", CInt 0)] ]%string.

Definition listed : inventory :=
  match categorize online sheet_rows empty_inventory with
  | Returned inv => inv
  | Raised _ => empty_inventory
  end.

(** A backend whose inventory sheet has a row with an empty stock cell. *)
Definition blank_stock : backend Q string unit unit string :=
  {| clock := clock online;
     asyncio_sleep := asyncio_sleep online;
     random_random := random_random online;
     authorize := authorize online;
     client_open := client_open online;
     spreadsheet_sheet1 := spreadsheet_sheet1 online;
     spreadsheet_add_worksheet := spreadsheet_add_worksheet online;
     spreadsheet_worksheet := spreadsheet_worksheet online;
     worksheet_append_row := worksheet_append_row online;
     worksheet_row_values := worksheet_row_values online;
     worksheet_update := worksheet_update online;
     worksheet_get_all_records := fun _ w =>
       (Returned [list_to_map [("Name", CStr "Purple Haze"); ("Tag", CStr "buds");
                               ("Stock", CStr EmptyString)]%string], w);
     worksheet_col_values := worksheet_col_values online;
     worksheet_insert_row := worksheet_insert_row online;
     RuntimeError := RuntimeError online;
     OverflowError := OverflowError online;
     TypeError := TypeError online;
     AttributeError := AttributeError online;
     is_connection_error := is_connection_error online |}.

(** The steps of a lookup of the unknown order [WW-9] right after start. *)
Definition lookup_missed : state Q string unit string :=
  after (_check_cache online "order_WW-9" "orders" (Some 30%Q)) boot.

Definition lookup_sheets : state Q string unit string :=
  after (initialize_sheets online) lookup_missed.

Definition lookup_throttled : state Q string unit string :=
  after (_rate_limit_request online "sheets_read") lookup_sheets.

(** The retryable set of [policy]. *)
Definition on_timeout (e : string) : bool := bool_decide (e = "TimeoutError"%string).

(** An orders sheet holding the order [WW-1] of customer 42, a sheet
    whose cells can be updated, and loggers that leave the world alone. *)
Definition paid_order : gmap string cell :=
  list_to_map [("Order ID", CStr "WW-1"); ("Telegram ID", CInt 42);
               ("Product", CStr "COMPLETE ORDER");
               ("Status", CStr "Pending Payment Review")]%string.

Definition with_orders_sheet : backend Q string unit unit string :=
  {| clock := clock online;
     asyncio_sleep := asyncio_sleep online;
     random_random := random_random online;
     authorize := authorize online;
     client_open := client_open online;
     spreadsheet_sheet1 := spreadsheet_sheet1 online;
     spreadsheet_add_worksheet := spreadsheet_add_worksheet online;
     spreadsheet_worksheet := spreadsheet_worksheet online;
     worksheet_append_row := worksheet_append_row online;
     worksheet_row_values := worksheet_row_values online;
     worksheet_update := worksheet_update online;
     worksheet_get_all_records := fun _ w => (Returned [paid_order], w);
     worksheet_col_values := worksheet_col_values online;
     worksheet_insert_row := worksheet_insert_row online;
     RuntimeError := RuntimeError online;
     OverflowError := OverflowError online;
     TypeError := TypeError online;
     AttributeError := AttributeError online;
     is_connection_error := is_connection_error online |}.

Definition update_cell_ok (sheet : string) (row col : Z) (value : cell) (w : Q)
  : outcome string unit * Q := (Returned tt, w).

Definition no_int (text : string) : option Z := None.

Definition quiet_notes (logger : string) (lvl : level) (n : note string) (w : Q) : Q := w.

(** The process after the status of the cached order [WW-1] was updated. *)
Definition shipped : state Q string unit string :=
  after (OrderStatus.update_order_status with_orders_sheet update_cell_ok no_int
           quiet_notes "WW-1" "Shipped" None) with_order.

(** The process after a lookup of [WW-1] that could not read the sheet. *)
Definition lookup_failed_miss : state Q string unit string :=
  after (_check_cache offline "order_WW-1" "orders" (Some 30%Q)) boot.

End Scenarios.

(** * Properties *)

(** ** Deque *)

Lemma remove_first_subseteq key l x :
  x ∈ Deque.remove_first key l -> x ∈ l.
Proof.
  induction l as [|y l IH]; simpl; [done|].
  destruct (decide (y = key)); set_solver.
Qed.

Lemma remove_first_NoDup key l : NoDup l -> NoDup (Deque.remove_first key l).
Proof.
  induction 1 as [|y l Hy Hl IH]; simpl; [constructor|].
  destruct (decide (y = key)); [done|].
  constructor; [|done]. intros Hin. apply Hy. by eapply remove_first_subseteq.
Qed.

Lemma elem_of_remove_first key l x :
  NoDup l -> x ∈ Deque.remove_first key l <-> x ∈ l /\ x <> key.
Proof.
  induction 1 as [|y l Hy Hl IH]; simpl; [set_solver|].
  destruct (decide (y = key)) as [->|Hne].
  - split; [|set_solver]. intros Hx. split; [set_solver|]. by intros ->.
  - rewrite elem_of_cons, IH, elem_of_cons. naive_solver.
Qed.

Lemma remove_first_length key l :
  key ∈ l -> S (length (Deque.remove_first key l)) = length l.
Proof.
  induction l as [|y l IH]; simpl; [by intros ?%elem_of_nil|].
  destruct (decide (y = key)); [done|].
  intros [?|?]%elem_of_cons; [congruence|]. simpl. by rewrite IH.
Qed.

Lemma remove_first_notin key l : key ∉ l -> Deque.remove_first key l = l.
Proof.
  induction l as [|y l IH]; simpl; [done|].
  intros Hnot. destruct (decide (y = key)) as [->|]; [set_solver|].
  rewrite IH; set_solver.
Qed.

Lemma tail_subseteq {A} (l : list A) x : x ∈ tail l -> x ∈ l.
Proof. destruct l; simpl; set_solver. Qed.

Lemma tail_NoDup {A} (l : list A) : NoDup l -> NoDup (tail l).
Proof. destruct 1; simpl; [constructor|done]. Qed.

Lemma moved_to_tail_items key d :
  Deque.items (moved_to_tail key d) =
    let l := Deque.remove_first key (Deque.items d) ++ [key] in
    if Deque.maxlen d <? Z.of_nat (length l) then tail l else l.
Proof.
  unfold moved_to_tail, Deque.append, Deque.contains.
  case_bool_decide as Hin; simpl; [done|].
  by rewrite (remove_first_notin _ _ Hin).
Qed.

Lemma moved_to_tail_maxlen key d : Deque.maxlen (moved_to_tail key d) = Deque.maxlen d.
Proof. unfold moved_to_tail, Deque.append, Deque.contains. by case_bool_decide. Qed.

Lemma moved_to_tail_NoDup key d :
  NoDup (Deque.items d) -> NoDup (Deque.items (moved_to_tail key d)).
Proof.
  intros Hnd. rewrite moved_to_tail_items. cbv zeta.
  assert (NoDup (Deque.remove_first key (Deque.items d) ++ [key])) as Hnd'.
  { apply NoDup_app. split; [by apply remove_first_NoDup|]. split.
    - intros x Hx ->%list_elem_of_singleton.
      apply elem_of_remove_first in Hx; [|done]. naive_solver.
    - apply NoDup_singleton. }
  case_match; [by apply tail_NoDup|done].
Qed.

Lemma moved_to_tail_subseteq key d x :
  x ∈ Deque.items (moved_to_tail key d) -> x = key \/ x ∈ Deque.items d.
Proof.
  rewrite moved_to_tail_items. cbv zeta. intros Hx.
  assert (x ∈ Deque.remove_first key (Deque.items d) ++ [key]) as Hx'.
  { case_match; [by apply tail_subseteq|done]. }
  apply elem_of_app in Hx' as [Hx'|Hx']; [right; by eapply remove_first_subseteq|].
  left. by apply list_elem_of_singleton.
Qed.

Lemma moved_to_tail_length key d :
  0 <= Deque.maxlen d ->
  Z.of_nat (length (Deque.items d)) <= Deque.maxlen d ->
  Z.of_nat (length (Deque.items (moved_to_tail key d))) <= Deque.maxlen d.
Proof.
  intros Hm Hlen. rewrite moved_to_tail_items. cbv zeta.
  set (l := Deque.remove_first key (Deque.items d) ++ [key]).
  assert (length l <= S (length (Deque.items d)))%nat as Hl.
  { unfold l. rewrite length_app. simpl.
    destruct (decide (key ∈ Deque.items d)) as [Hin|Hnot].
    - pose proof (remove_first_length _ _ Hin). lia.
    - rewrite (remove_first_notin _ _ Hnot). lia. }
  destruct (Z.ltb_spec (Deque.maxlen d) (Z.of_nat (length l))); [|lia].
  destruct l; simpl in *; lia.
Qed.

(** With room for the key, nothing is discarded. *)
Lemma moved_to_tail_room key d :
  key ∈ Deque.items d \/ Z.of_nat (length (Deque.items d)) < Deque.maxlen d ->
  Z.of_nat (length (Deque.items d)) <= Deque.maxlen d ->
  Deque.items (moved_to_tail key d) = Deque.remove_first key (Deque.items d) ++ [key].
Proof.
  intros Hroom Hlen. rewrite moved_to_tail_items. cbv zeta.
  case_match eqn:Hc; [|done]. apply Z.ltb_lt in Hc.
  rewrite length_app in Hc. simpl in Hc.
  destruct Hroom as [Hin|Hlt].
  - pose proof (remove_first_length _ _ Hin). lia.
  - destruct (decide (key ∈ Deque.items d)) as [Hin|Hnot].
    + pose proof (remove_first_length _ _ Hin). lia.
    + rewrite (remove_first_notin _ _ Hnot) in Hc. lia.
Qed.

(** A full deque discards from the left; a deque of length 0 keeps nothing. *)
Example deque_append_full :
  Deque.items (Deque.append "c" (Deque.Deque ["a"; "b"]%string 2)) = ["b"; "c"]%string
  /\ Deque.items (Deque.append "a" (Deque.Deque [] 0)) = [].
Proof. split; reflexivity. Qed.

(** [sorted(..., reverse=True)] keeps the order of items with equal values. *)
Example sorted_desc_stable :
  OrderedDict.sorted_desc [("a", 1); ("b", 2); ("c", 1); ("d", 2)]%string%Q
  = [("b", 2); ("d", 2); ("a", 1); ("c", 1)]%string%Q.
Proof. reflexivity. Qed.

Example product_key_of_name :
  replace_space_by_underscore (lower "Unknown Indica") = "unknown_indica"%string.
Proof. reflexivity. Qed.

(** [get_stats]: three hits and one miss give a ratio of 0.75; no request
    gives 0. *)
Example hit_ratio_three_of_four :
  (EnhancedCache.st_hit_ratio
     (EnhancedCache.get_stats
        (EnhancedCache.Cache (V:=nat) ∅ (Deque.Deque [] 2) 3 1 2 60)) == 3 # 4)%Q
  /\ EnhancedCache.st_hit_ratio
       (EnhancedCache.get_stats
          (EnhancedCache.Cache (V:=nat) ∅ (Deque.Deque [] 2) 0 0 2 60)) = 0%Q.
Proof. split; reflexivity. Qed.

(** ** Cache: the methods keep the cache consistent *)

Section CacheFacts.
Context {V : Type}.
Implicit Types (c : EnhancedCache.t V) (key : string).
Import EnhancedCache CacheSpec.

Lemma lockstep_size (m : gmap string (entry V)) (l : list string) :
  NoDup l -> (forall key, key ∈ l <-> is_Some (m !! key)) -> length l = size m.
Proof.
  intros Hnd Hl. rewrite <- size_dom, <- (size_list_to_set (C:=gset string) l Hnd).
  f_equal. apply set_eq. intros k. rewrite elem_of_list_to_set, elem_of_dom. apply Hl.
Qed.

Lemma consistent_size c :
  consistent c -> 1 <= max_items c -> length (recency c) = size (cache c).
Proof.
  intros (_ & _ & _ & Hnd & Hsub & Hsup) Hpos. apply lockstep_size; [done|].
  intros k. split; [apply Hsub|by apply Hsup].
Qed.

Lemma remove_entry_cache c key : cache (_remove_entry c key) = delete key (cache c).
Proof.
  unfold _remove_entry. case_bool_decide as Hin.
  - by destruct (Deque.contains _ _).
  - rewrite delete_id; [by destruct (Deque.contains _ _)|].
    by apply eq_None_not_Some.
Qed.

Lemma remove_entry_recency c key :
  recency (_remove_entry c key) = Deque.remove_first key (recency c).
Proof.
  unfold _remove_entry, recency, Deque.contains.
  assert (forall c', access_order c' = access_order c ->
    Deque.items (access_order
      (if bool_decide (key ∈ Deque.items (access_order c'))
       then with_access_order (Deque.remove key (access_order c')) c' else c'))
    = Deque.remove_first key (Deque.items (access_order c))) as Haux.
  { intros c' Hc'. case_bool_decide as Hin; simpl; rewrite Hc' in *; [done|].
    by rewrite remove_first_notin. }
  destruct (bool_decide (is_Some (cache c !! key))); by apply Haux.
Qed.

Lemma remove_entry_frame c key :
  hits (_remove_entry c key) = hits c /\ misses (_remove_entry c key) = misses c
  /\ max_items (_remove_entry c key) = max_items c
  /\ default_ttl (_remove_entry c key) = default_ttl c
  /\ Deque.maxlen (access_order (_remove_entry c key)) = Deque.maxlen (access_order c).
Proof.
  unfold _remove_entry, Deque.contains.
  repeat case_bool_decide; simpl; done.
Qed.

Lemma remove_entry_consistent c key : consistent c -> consistent (_remove_entry c key).
Proof.
  intros (Hmax & Hnn & Hlen & Hnd & Hsub & Hsup).
  destruct (remove_entry_frame c key) as (_ & _ & Hmi & _ & Hml).
  unfold consistent, resident.
  rewrite Hmi, Hml, remove_entry_recency, remove_entry_cache.
  split; [done|]. split; [done|]. split.
  { destruct (decide (key ∈ recency c)) as [Hin|Hnot].
    - pose proof (remove_first_length _ _ Hin). lia.
    - by rewrite remove_first_notin. }
  split; [by apply remove_first_NoDup|]. split.
  - intros k [Hk Hne]%elem_of_remove_first; [|done].
    rewrite lookup_delete_ne by done. by apply Hsub.
  - intros Hpos k Hk. apply elem_of_remove_first; [done|].
    destruct (decide (key = k)) as [->|Hne].
    + rewrite lookup_delete_eq in Hk. by destruct Hk.
    + rewrite lookup_delete_ne in Hk by done. split; [by apply Hsup|done].
Qed.

(** Moving a resident key to the tail, the map having gained at most
    that key. *)
Lemma touch_consistent c key (m : gmap string (entry V)) :
  consistent c ->
  (forall k, is_Some (m !! k) <-> k = key \/ resident c k) ->
  (1 <= max_items c ->
   key ∈ recency c \/ Z.of_nat (length (recency c)) < max_items c) ->
  consistent (with_access_order (moved_to_tail key (access_order c)) (with_cache m c)).
Proof.
  intros (Hmax & Hnn & Hlen & Hnd & Hsub & Hsup) Hm Hroom.
  unfold consistent, resident, recency in *.
  cbn [access_order with_access_order with_cache cache max_items].
  rewrite moved_to_tail_maxlen. split; [done|]. split; [done|]. split.
  { rewrite <- Hmax. apply moved_to_tail_length; lia. }
  split; [by apply moved_to_tail_NoDup|]. split.
  - intros k [->|Hk]%moved_to_tail_subseteq; apply Hm; [by left|right; by apply Hsub].
  - intros Hpos k Hk. rewrite moved_to_tail_room; [|rewrite Hmax; by apply Hroom|lia].
    apply elem_of_app. destruct (decide (k = key)) as [->|Hne].
    + right. by apply list_elem_of_singleton.
    + left. apply elem_of_remove_first; [done|]. split; [|done].
      apply Hsup; [done|]. apply Hm in Hk as [?|?]; done.
Qed.

Lemma with_cache_id c : with_cache (cache c) c = c.
Proof. by destruct c. Qed.

Lemma update_access_order_eq c key :
  _update_access_order c key =
    with_access_order (moved_to_tail key (access_order c)) c.
Proof. done. Qed.

Lemma with_misses_consistent n c : consistent c -> consistent (with_misses n c).
Proof. by intros ?. Qed.

Lemma with_hits_consistent n c : consistent c -> consistent (with_hits n c).
Proof. by intros ?. Qed.

Lemma get_consistent c key d now : consistent c -> consistent (snd (get c key d now)).
Proof.
  intros Hc. unfold get. destruct (cache c !! key) as [e|] eqn:He.
  - case_match; cbn [snd].
    + apply with_misses_consistent. by apply remove_entry_consistent.
    + apply with_hits_consistent. rewrite update_access_order_eq.
      rewrite <- (with_cache_id c) at 2.
      apply touch_consistent; [done| |].
      * intros k. unfold resident. split; [by right|]. intros [->|?]; [by eexists|done].
      * intros Hpos. left. destruct Hc as (_ & _ & _ & _ & _ & Hsup).
        apply Hsup; [done|]. by eexists.
  - by apply with_misses_consistent.
Qed.

Lemma evict_lru_consistent c : consistent c -> consistent (_evict_lru c).
Proof.
  intros Hc. unfold _evict_lru. case_match; [done|]. by apply remove_entry_consistent.
Qed.

Lemma set_consistent c key v ttl now : consistent c -> consistent (snd (set c key v ttl now)).
Proof.
  intros Hc. unfold set. simpl. rewrite update_access_order_eq.
  match goal with
  | |- context [with_cache (<[key := ?e]> (cache ?c1)) ?c1] =>
      set (c' := c1); set (e' := e)
  end.
  assert (consistent c') as Hc'.
  { unfold c'. case_match; [by apply evict_lru_consistent|done]. }
  assert (1 <= max_items c' ->
          key ∈ recency c' \/ Z.of_nat (length (recency c')) < max_items c') as Hroom.
  { unfold c'. destruct (max_items c <=? Z.of_nat (size (cache c))) eqn:Hfull; simpl.
    - case_bool_decide as Hres; simpl.
      + intros Hpos. left. destruct Hc as (_ & _ & _ & _ & _ & Hsup). by apply Hsup.
      + unfold _evict_lru. destruct (Deque.items (access_order c)) as [|lru l] eqn:Hl.
        * intros Hpos. apply Z.leb_le in Hfull.
          pose proof (consistent_size c Hc Hpos) as Hsz.
          unfold recency in Hsz. rewrite Hl in Hsz. simpl in Hsz. lia.
        * destruct (remove_entry_frame c lru) as (_ & _ & Hmi & _ & _).
          rewrite Hmi, remove_entry_recency. intros Hpos. right.
          unfold recency. rewrite Hl. simpl. rewrite decide_True by done.
          destruct Hc as (_ & _ & Hlen & _). unfold recency in Hlen.
          rewrite Hl in Hlen. simpl in Hlen. lia.
    - apply Z.leb_gt in Hfull. intros Hpos. right.
      rewrite (consistent_size c Hc Hpos). lia. }
  refine (touch_consistent c' key (<[key := e']> (cache c')) Hc' _ Hroom).
  intros k. unfold resident. destruct (decide (key = k)) as [->|Hne].
  - rewrite lookup_insert_eq. split; [by left|by eexists].
  - rewrite lookup_insert_ne by done. split; [by right|]. intros [?|?]; [congruence|done].
Qed.

Lemma clear_consistent c (k0 : option string) : consistent c -> consistent (clear c k0).
Proof.
  intros Hc.
  assert (consistent (with_access_order (Deque.clear (access_order c))
            (with_cache ∅ c))) as Hall.
  { destruct Hc as (Hmax & Hnn & _). unfold consistent, resident, recency. simpl.
    split; [done|]. split; [done|]. split; [lia|]. split; [constructor|].
    split; [by intros k ?%elem_of_nil|].
    intros _ k [? Hk]. by rewrite lookup_empty in Hk. }
  unfold clear. destruct k0 as [k|]; [|done].
  case_bool_decide; [done|].
  case_bool_decide as Hres; [|done].
  assert (_remove_entry c k =
    (if Deque.contains k (access_order (with_cache (delete k (cache c)) c))
     then with_access_order
            (Deque.remove k (access_order (with_cache (delete k (cache c)) c)))
            (with_cache (delete k (cache c)) c)
     else with_cache (delete k (cache c)) c)) as <-.
  { unfold _remove_entry. by rewrite bool_decide_eq_true_2. }
  by apply remove_entry_consistent.
Qed.

Lemma step_consistent c o : consistent c -> consistent (step c o).
Proof.
  destruct o; simpl.
  - apply get_consistent.
  - apply set_consistent.
  - apply clear_consistent.
  - by intros ?.
Qed.

Lemma run_consistent c history : consistent c -> consistent (run c history).
Proof.
  revert c. induction history as [|o history IH]; intros c Hc; [done|].
  simpl. apply IH. by apply step_consistent.
Qed.

Lemma init_consistent n c : __init__ n = Some c -> consistent c /\ max_items c = n.
Proof.
  unfold __init__, Deque.new. destruct (Z.ltb_spec n 0); [done|].
  intros [= <-]. split; [|done]. unfold consistent, resident, recency. simpl.
  split; [done|]. split; [lia|]. split; [lia|]. split; [constructor|]. split.
  - by intros k ?%elem_of_nil.
  - intros _ k [? Hk]. by rewrite lookup_empty in Hk.
Qed.

Lemma step_max_items c o : max_items (step c o) = max_items c.
Proof.
  destruct o as [key d now|key v ttl now|k0|ttl]; simpl; [| | |done].
  - unfold get. destruct (cache c !! key); [|done]. case_match; simpl; [|done].
    by destruct (remove_entry_frame c key) as (_ & _ & -> & _).
  - unfold set. simpl. case_match; [|done]. unfold _evict_lru. case_match; [done|].
    by destruct (remove_entry_frame c s) as (_ & _ & -> & _).
  - unfold clear. destruct k0; [|done]. repeat case_bool_decide; try done.
    unfold Deque.contains. by case_bool_decide.
Qed.

Lemma run_max_items c history : max_items (run c history) = max_items c.
Proof.
  revert c. induction history as [|o history IH]; intros c; [done|].
  simpl. by rewrite IH, step_max_items.
Qed.

Lemma reached_consistent n history c :
  reached n history c -> consistent c /\ max_items c = n.
Proof.
  intros (c0 & Hinit & ->). apply init_consistent in Hinit as [Hc <-].
  split; [by apply run_consistent|apply run_max_items].
Qed.

(** For a positive bound the data-model invariant holds throughout. *)
Lemma reached_bounded_lockstep n history c :
  1 <= n -> reached n history c -> bounded_lockstep c.
Proof.
  intros Hpos Hr. apply reached_consistent in Hr as [Hc <-].
  pose proof (consistent_size c Hc Hpos) as Hsz.
  destruct Hc as (_ & _ & Hlen & Hnd & Hsub & Hsup).
  split; [lia|]. split; [done|]. intros k. split; [apply Hsub|by apply Hsup].
Qed.

End CacheFacts.

(** ** Cache: what [get] and [set] compute *)

Section CacheMethods.
Context {V : Type}.
Implicit Types (c : EnhancedCache.t V) (key : string).
Import EnhancedCache CacheSpec.

Lemma Qgt_bool_true a b : Qgt_bool a b = true <-> (b < a)%Q.
Proof.
  unfold Qgt_bool. rewrite negb_true_iff, <- not_true_iff_false, Qle_bool_iff.
  split; [apply Qnot_le_lt|apply Qlt_not_le].
Qed.

Lemma Qgt_bool_false a b : Qgt_bool a b = false <-> (a <= b)%Q.
Proof. unfold Qgt_bool. by rewrite negb_false_iff, Qle_bool_iff. Qed.

Lemma get_absent c key d now :
  cache c !! key = None ->
  get c key d now = ((false, None), with_misses (misses c + 1) c).
Proof. intros H. unfold get. by rewrite H. Qed.

Lemma get_expired c key e d now :
  cache c !! key = Some e ->
  (default (py_or d (default_ttl c)) (e_ttl e) < now - default 0%Q (e_timestamp e))%Q ->
  get c key d now =
    ((false, None), with_misses (misses c + 1) (_remove_entry c key)).
Proof.
  intros H Hlt. unfold get. rewrite H. apply Qgt_bool_true in Hlt. rewrite Hlt.
  by destruct (remove_entry_frame c key) as (_ & -> & _).
Qed.

Lemma get_fresh c key e d now :
  cache c !! key = Some e ->
  (now - default 0%Q (e_timestamp e) <= default (py_or d (default_ttl c)) (e_ttl e))%Q ->
  get c key d now =
    ((true, default None (e_data e)),
     with_hits (hits c + 1) (_update_access_order c key)).
Proof.
  intros H Hle. unfold get. rewrite H. apply Qgt_bool_false in Hle. by rewrite Hle.
Qed.

(** The map after [get] is the old one, or the old one without the key. *)
Lemma get_cache c key d now :
  cache (snd (get c key d now)) = cache c
  \/ cache (snd (get c key d now)) = delete key (cache c).
Proof.
  unfold get. destruct (cache c !! key); [|by left].
  case_match; cbn [snd]; [right|by left]. apply remove_entry_cache.
Qed.

Lemma evict_lru_frame c :
  hits (_evict_lru c) = hits c /\ misses (_evict_lru c) = misses c
  /\ max_items (_evict_lru c) = max_items c
  /\ default_ttl (_evict_lru c) = default_ttl c.
Proof.
  unfold _evict_lru. case_match; [done|].
  destruct (remove_entry_frame c s) as (-> & -> & -> & -> & _). done.
Qed.

Lemma before_store_default_ttl c key : default_ttl (before_store c key) = default_ttl c.
Proof.
  unfold before_store. case_match; [|done]. by destruct (evict_lru_frame c) as (_ & _ & _ & ->).
Qed.

Lemma set_eq c key v ttl now :
  set c key v ttl now =
    (v, _update_access_order
          (with_cache (<[key := Entry (Some v) (Some now) (Some (py_or ttl (default_ttl c)))]>
                         (cache (before_store c key))) (before_store c key)) key).
Proof. unfold set. fold (before_store c key). by rewrite before_store_default_ttl. Qed.

Lemma set_cache c key v ttl now :
  cache (snd (set c key v ttl now)) =
    <[key := Entry (Some v) (Some now) (Some (py_or ttl (default_ttl c)))]>
      (cache (before_store c key)).
Proof. by rewrite set_eq. Qed.

Lemma before_store_cache c key :
  cache (before_store c key) = cache c
  \/ exists lru, cache (before_store c key) = delete lru (cache c).
Proof.
  unfold before_store. case_match; [|by left]. unfold _evict_lru.
  case_match; [by left|]. right. eexists. apply remove_entry_cache.
Qed.

Lemma clear_cache c k0 :
  cache (clear c k0) = ∅ \/ cache (clear c k0) = cache c
  \/ exists k, cache (clear c k0) = delete k (cache c).
Proof.
  unfold clear. destruct k0 as [k|]; [|by left].
  case_bool_decide; [by left|]. case_bool_decide; [|right; by left].
  right. right. exists k. unfold Deque.contains. by case_bool_decide.
Qed.

Lemma complete_delete c c' k :
  cache c' = delete k (cache c) -> complete c -> complete c'.
Proof.
  intros Heq Hc key e. rewrite Heq. intros [_ He]%lookup_delete_Some. by eapply Hc.
Qed.

Lemma complete_same c c' : cache c' = cache c -> complete c -> complete c'.
Proof. intros Heq Hc key e. rewrite Heq. apply Hc. Qed.

Lemma step_complete c o : complete c -> complete (step c o).
Proof.
  intros Hc. destruct o as [key d now|key v ttl now|k0|ttl]; cbn [step].
  - destruct (get_cache c key d now) as [H|H];
      [by eapply complete_same|by eapply complete_delete].
  - intros k e. rewrite set_cache. intros [[_ <-]|[_ He]]%lookup_insert_Some.
    + simpl. repeat split; by eexists.
    + destruct (before_store_cache c key) as [H|[lru H]]; rewrite H in He.
      * by eapply Hc.
      * apply lookup_delete_Some in He as [_ He]. by eapply Hc.
  - destruct (clear_cache c k0) as [H|[H|[k H]]].
    + intros key e. rewrite H. by rewrite lookup_empty.
    + by eapply complete_same.
    + by eapply complete_delete.
  - exact Hc.
Qed.

Lemma run_complete c history : complete c -> complete (run c history).
Proof.
  revert c. induction history as [|o history IH]; intros c Hc; [done|].
  simpl. apply IH. by apply step_complete.
Qed.

Lemma reached_complete n history c : reached n history c -> complete c.
Proof.
  intros (c0 & Hinit & ->). apply run_complete.
  unfold __init__ in Hinit. destruct (Deque.new n); [|done].
  injection Hinit as <-. intros key e. simpl. by rewrite lookup_empty.
Qed.

End CacheMethods.

(** ** Cache: the recency sequence is ordered by last use *)

Section CacheRecency.
Context {V : Type}.
Implicit Types (c : EnhancedCache.t V) (key : string) (history : list (EnhancedCache.op V)).
Import EnhancedCache CacheSpec.

Lemma last_use_from_bounds i history key j :
  last_use_from i history key = Some j -> (i <= j < i + length history)%nat.
Proof.
  revert i. induction history as [|o history IH]; intros i; simpl; [done|].
  destruct (last_use_from (S i) history key) as [j'|] eqn:Hj.
  - intros [= <-]. apply IH in Hj. lia.
  - destruct (uses o key); [|done]. intros [= <-]. lia.
Qed.

Lemma last_use_from_snoc i history o key :
  last_use_from i (history ++ [o]) key =
    if uses o key then Some (i + length history)%nat else last_use_from i history key.
Proof.
  revert i. induction history as [|a history IH]; intros i; simpl.
  - destruct (uses o key); [|done]. f_equal. lia.
  - rewrite IH. destruct (uses o key); [|done]. f_equal. lia.
Qed.

Lemma last_use_snoc history o key :
  last_use (history ++ [o]) key =
    if uses o key then Some (length history) else last_use history key.
Proof. unfold last_use. by rewrite last_use_from_snoc. Qed.

Lemma last_use_bound history key j :
  last_use history key = Some j -> (j < length history)%nat.
Proof. intros H%last_use_from_bounds. lia. Qed.

Lemma by_last_use_sublist history (l1 l2 : list string) :
  l1 `sublist_of` l2 -> by_last_use history l2 -> by_last_use history l1.
Proof.
  induction 1 as [|x l1 l2 Hsub IH|x l1 l2 Hsub IH]; simpl; [done| |].
  - intros [Hx Hl]. split; [|by apply IH].
    intros k Hk. apply Hx. by eapply sublist_submseteq, elem_of_submseteq in Hsub.
  - intros [_ Hl]. by apply IH.
Qed.

Lemma ordered_sublist history (l1 l2 : list string) :
  l1 `sublist_of` l2 -> ordered history l2 -> ordered history l1.
Proof.
  intros Hsub [Hb Hs]. split; [by eapply by_last_use_sublist|].
  intros k Hk. apply Hs. by eapply sublist_submseteq, elem_of_submseteq in Hsub.
Qed.

Lemma remove_first_sublist key (l : list string) : Deque.remove_first key l `sublist_of` l.
Proof.
  induction l as [|x l IH]; simpl; [done|].
  destruct (decide (x = key)); [by apply sublist_cons|by apply sublist_skip].
Qed.

Lemma tail_sublist (l : list string) : tail l `sublist_of` l.
Proof. destruct l; simpl; [done|by apply sublist_cons]. Qed.

Lemma by_last_use_ext history history' (l : list string) :
  (forall key, key ∈ l -> last_use history' key = last_use history key) ->
  by_last_use history l -> by_last_use history' l.
Proof.
  induction l as [|x l IH]; simpl; [done|]. intros Hext [Hx Hl]. split.
  - intros k Hk. destruct (Hx k Hk) as (i & j & Hi & Hj & Hij).
    exists i, j. rewrite !Hext by set_solver. done.
  - apply IH; [|done]. intros k Hk. apply Hext. set_solver.
Qed.

Lemma ordered_ext history history' (l : list string) :
  (forall key, key ∈ l -> last_use history' key = last_use history key) ->
  ordered history l -> ordered history' l.
Proof.
  intros Hext [Hb Hs]. split; [by eapply by_last_use_ext|].
  intros k Hk. rewrite Hext by done. by apply Hs.
Qed.

Lemma by_last_use_snoc history (l : list string) key :
  by_last_use history l -> (forall x, x ∈ l -> older history x key) ->
  by_last_use history (l ++ [key]).
Proof.
  induction l as [|x l IH]; simpl.
  { intros _ _. split; [by intros ? ?%elem_of_nil|done]. }
  intros [Hx Hl] Hk. split.
  - intros k [Hin| ->%list_elem_of_singleton]%elem_of_app; [by apply Hx|].
    apply Hk. set_solver.
  - apply IH; [done|]. intros y Hy. apply Hk. set_solver.
Qed.

(** A call that uses none of the keys of the sequence leaves it ordered. *)
Lemma ordered_unused history o (l : list string) :
  (forall key, key ∈ l -> uses o key = false) ->
  ordered history l -> ordered (history ++ [o]) l.
Proof.
  intros Hun. apply ordered_ext. intros k Hk. by rewrite last_use_snoc, Hun.
Qed.

(** A call that uses [key] and moves it to the tail keeps the order. *)
Lemma ordered_touch history o (l : list string) key :
  (forall k, uses o k = bool_decide (key = k)) ->
  NoDup l -> ordered history l ->
  ordered (history ++ [o]) (Deque.remove_first key l ++ [key]).
Proof.
  intros Huses Hnd Hord.
  assert (ordered (history ++ [o]) (Deque.remove_first key l)) as [Hb Hs].
  { apply ordered_unused.
    - intros k [_ Hne]%elem_of_remove_first; [|done].
      rewrite Huses. by apply bool_decide_eq_false_2.
    - eapply ordered_sublist; [apply remove_first_sublist|done]. }
  assert (last_use (history ++ [o]) key = Some (length history)) as Hkey.
  { by rewrite last_use_snoc, Huses, bool_decide_eq_true_2. }
  split.
  - apply by_last_use_snoc; [done|]. intros x Hx.
    destruct (Hs x Hx) as [i Hi]. exists i, (length history).
    split; [done|]. split; [done|].
    apply elem_of_remove_first in Hx as [_ Hne]; [|done].
    rewrite last_use_snoc, Huses, bool_decide_eq_false_2 in Hi by done.
    by apply last_use_bound in Hi.
  - intros k [Hin| ->%list_elem_of_singleton]%elem_of_app; [by apply Hs|by eexists].
Qed.

Lemma ordered_moved_to_tail history o d key :
  (forall k, uses o k = bool_decide (key = k)) ->
  NoDup (Deque.items d) -> ordered history (Deque.items d) ->
  ordered (history ++ [o]) (Deque.items (moved_to_tail key d)).
Proof.
  intros Huses Hnd Hord. rewrite moved_to_tail_items. cbv zeta.
  pose proof (ordered_touch history o _ key Huses Hnd Hord) as H.
  case_match; [|done]. eapply ordered_sublist; [apply tail_sublist|done].
Qed.

Lemma step_ordered history c o :
  consistent c -> ordered history (recency c) ->
  ordered (history ++ [o]) (recency (step c o)).
Proof.
  intros Hc Hord. pose proof Hc as (_ & _ & _ & Hnd & Hsub & _).
  destruct o as [key d now|key v ttl now|k0|ttl]; cbn [step].
  - unfold get. destruct (cache c !! key) as [e|] eqn:He.
    + case_match; cbn [snd].
      * change (ordered (history ++ [OpGet key d now]) (recency (_remove_entry c key))).
        rewrite remove_entry_recency. apply ordered_unused.
        -- intros k [_ Hne]%elem_of_remove_first; [|done]. simpl.
           by apply bool_decide_eq_false_2.
        -- eapply ordered_sublist; [apply remove_first_sublist|done].
      * change (ordered (history ++ [OpGet key d now])
                  (Deque.items (moved_to_tail key (access_order c)))).
        by apply ordered_moved_to_tail.
    + cbn [snd]. change (ordered (history ++ [OpGet key d now]) (recency c)).
      apply ordered_unused; [|done]. intros k Hk. simpl.
      apply bool_decide_eq_false_2. intros ->. apply Hsub in Hk as [? Hk]. congruence.
  - rewrite set_eq. cbn [snd].
    change (ordered (history ++ [OpSet key v ttl now])
              (Deque.items (moved_to_tail key (access_order (before_store c key))))).
    assert (consistent (before_store c key)) as Hc'.
    { unfold before_store. case_match; [by apply evict_lru_consistent|done]. }
    apply ordered_moved_to_tail; [done|by destruct Hc' as (_ & _ & _ & ? & _)|].
    unfold before_store. case_match; [|done]. unfold _evict_lru.
    case_match; [done|].
    change (ordered history (recency (_remove_entry c s))).
    rewrite remove_entry_recency.
    eapply ordered_sublist; [apply remove_first_sublist|done].
  - apply ordered_unused; [done|]. unfold clear. destruct k0 as [k|].
    + case_bool_decide; [split; [done|by intros ? ?%elem_of_nil]|].
      case_bool_decide; [|done]. unfold Deque.contains. cbn [access_order with_cache].
      case_bool_decide; [|done].
      eapply ordered_sublist; [apply remove_first_sublist|done].
    + split; [done|by intros ? ?%elem_of_nil].
  - by apply ordered_unused.
Qed.

Lemma run_snoc c history o : run c (history ++ [o]) = step (run c history) o.
Proof. unfold run. by rewrite fold_left_app. Qed.

Lemma reached_ordered n history c : reached n history c -> ordered history (recency c).
Proof.
  revert c. induction history as [|o history IH] using rev_ind; intros c (c0 & Hinit & ->).
  - unfold __init__ in Hinit. destruct (Deque.new n) as [d|] eqn:Hd; [|done].
    unfold Deque.new in Hd. destruct (n <? 0); [done|].
    injection Hd as <-. injection Hinit as <-.
    split; [done|by intros ? ?%elem_of_nil].
  - rewrite run_snoc. apply step_ordered.
    + apply init_consistent in Hinit as [Hc _]. by apply run_consistent.
    + apply IH. by exists c0.
Qed.

End CacheRecency.

(** ** Cache: the claims *)

Section CacheClaims.
Context {V : Type}.
Implicit Types (c : EnhancedCache.t V) (key : string).
Import EnhancedCache CacheSpec.

(** C4. An entry stored at [t0] with time-to-live [T] is served by a
    [get] at [t] when [t - t0 <= T], the boundary [t - t0 = T] included:
    the result is [(True, value)], the hit counter grows by one and the
    map is unchanged.  When [t - t0 > T] the result is [(False, None)],
    the miss counter grows by one and the entry and its recency record
    are removed.  A [get] of an absent key gives [(False, None)], counts
    a miss and changes nothing else. *)
Theorem get_ttl_boundary :
  (forall n history c key (value : option V) (t0 T t : Q) d,
     reached n history c ->
     cache c !! key = Some (Entry (Some value) (Some t0) (Some T)) ->
     ((t - t0 <= T)%Q ->
        fst (get c key d t) = (true, value)
        /\ hits (snd (get c key d t)) = hits c + 1
        /\ misses (snd (get c key d t)) = misses c
        /\ cache (snd (get c key d t)) = cache c)
     /\ ((T < t - t0)%Q ->
        fst (get c key d t) = (false, None)
        /\ misses (snd (get c key d t)) = misses c + 1
        /\ hits (snd (get c key d t)) = hits c
        /\ cache (snd (get c key d t)) = delete key (cache c)
        /\ key ∉ recency (snd (get c key d t))))
  /\ (forall c key d (t : Q),
        cache c !! key = None ->
        fst (get c key d t) = (false, None)
        /\ misses (snd (get c key d t)) = misses c + 1
        /\ hits (snd (get c key d t)) = hits c
        /\ cache (snd (get c key d t)) = cache c
        /\ recency (snd (get c key d t)) = recency c).
Proof.
  split.
  - intros n history c key value t0 T t d Hr He. split.
    + intros Hle. rewrite (get_fresh c key _ d t He) by done. done.
    + intros Hlt. rewrite (get_expired c key _ d t He) by done. cbn [fst snd].
      destruct (remove_entry_frame c key) as (Hh & Hm & _).
      split; [done|]. split; [done|]. split; [done|].
      split; [apply remove_entry_cache|].
      change (key ∉ recency (_remove_entry c key)). rewrite remove_entry_recency.
      apply reached_consistent in Hr as [(_ & _ & _ & Hnd & _) _].
      intros [_ Hne]%elem_of_remove_first; done.
  - intros c key d t Hnone. by rewrite (get_absent c key d t Hnone).
Qed.

Lemma least_recently_used_head n history c lru0 l :
  reached n history c -> recency c = lru0 :: l ->
  least_recently_used history c lru0
  /\ forall lru, least_recently_used history c lru -> lru = lru0.
Proof.
  intros Hr Hl. pose proof (reached_ordered _ _ _ Hr) as [Hord _].
  apply reached_consistent in Hr as [Hc <-].
  pose proof Hc as (_ & _ & Hlen & Hnd & Hsub & Hsup).
  rewrite Hl in *. simpl in Hord. destruct Hord as [Hhead _].
  assert (1 <= max_items c) as Hpos by (simpl in Hlen; lia).
  assert (resident c lru0) as Hres0 by (apply Hsub; set_solver).
  split.
  - split; [done|]. intros k Hk Hne. apply Hhead.
    apply Hsup in Hk; [|done]. set_solver.
  - intros lru [Hres Hlru]. destruct (decide (lru = lru0)) as [|Hne]; [done|].
    destruct (Hlru lru0 Hres0 (not_eq_sym Hne)) as (i & j & Hi & Hj & Hij).
    apply Hsup in Hres; [|done].
    assert (lru ∈ l) as Hin by set_solver.
    destruct (Hhead lru Hin) as (i' & j' & Hi' & Hj' & Hij').
    rewrite Hi in Hj'. rewrite Hj in Hi'. simplify_eq. lia.
Qed.

(** C5. On a cache at capacity, [set] of a key that is not resident
    evicts the least recently used resident key (the resident key whose
    last [get] or [set] is the oldest; one exists as soon as the cache
    holds an entry), keeps every other entry, and stores the key.  In
    particular with [max_items = 2], after [set(A)], [set(B)], a
    successful [get(A)] and [set(C)], the key [B] is gone and the keys [A]
    and [C] are resident. *)
Theorem set_evicts_least_recently_used :
  (forall n history c key (value : option V) ttl now,
     reached n history c ->
     Z.of_nat (size (cache c)) = max_items c ->
     ~ resident c key ->
     resident (snd (set c key value ttl now)) key
     /\ (forall lru, least_recently_used history c lru ->
           ~ resident (snd (set c key value ttl now)) lru
           /\ forall k, resident c k -> k <> lru ->
                cache (snd (set c key value ttl now)) !! k = cache c !! k)
     /\ (size (cache c) <> 0%nat -> exists lru, least_recently_used history c lru))
  /\ (forall c0 (va vb vc : option V) ttl_a ttl_b ttl_c (ta tb tg tc : Q) d,
        __init__ 2 = Some c0 ->
        fst (fst (get (snd (set (snd (set c0 "A" va ttl_a ta)) "B" vb ttl_b tb))
                    "A" d tg)) = true ->
        let c3 := snd (get (snd (set (snd (set c0 "A" va ttl_a ta)) "B" vb ttl_b tb))
                         "A" d tg) in
        let c4 := snd (set c3 "C" vc ttl_c tc) in
        ~ resident c4 "B" /\ resident c4 "A" /\ resident c4 "C").
Proof.
  split.
  - intros n history c key value ttl now Hr Hfull Hnew.
    pose proof (reached_consistent _ _ _ Hr) as [Hc Hn].
    pose proof Hc as (_ & _ & Hlen & Hnd & Hsub & Hsup).
    unfold resident in *. rewrite set_cache.
    split; [rewrite lookup_insert_eq; by eexists|].
    assert (before_store c key = _evict_lru c) as Hbs.
    { unfold before_store. rewrite (proj2 (Z.leb_le _ _)) by lia.
      by rewrite bool_decide_eq_false_2. }
    rewrite Hbs. unfold _evict_lru. fold (recency c).
    destruct (recency c) as [|lru0 l] eqn:Hl.
    + assert (size (cache c) = 0%nat) as Hsz.
      { destruct (decide (1 <= max_items c)) as [Hpos|Hz].
        - rewrite <- (consistent_size c Hc Hpos), Hl. done.
        - simpl in Hlen. lia. }
      apply map_size_empty_inv in Hsz. split; [|by rewrite Hsz, map_size_empty].
      intros lru [[e He] _]. by rewrite Hsz, lookup_empty in He.
    + destruct (least_recently_used_head _ _ _ _ _ Hr Hl) as [Hlru0 Huniq].
      split; [|intros _; by exists lru0].
      intros lru Hlru. apply Huniq in Hlru as ->. rewrite remove_entry_cache.
      destruct Hlru0 as [Hres0 _]. unfold resident in Hres0.
      assert (key <> lru0) as Hne by (by intros ->).
      split.
      * rewrite lookup_insert_ne, lookup_delete_eq by done. by intros [? ?].
      * intros k Hk Hk'. rewrite lookup_insert_ne, lookup_delete_ne by congruence. done.
  - intros c0 va vb vc ttl_a ttl_b ttl_c ta tb tg tc d [= <-].
    match goal with |- context [get ?c _ _ _] => set (c2 := c) end.
    assert (cache c2 !! "A"%string
            = Some (Entry (Some va) (Some ta) (Some (py_or ttl_a 60)))) as HA.
    { vm_compute. reflexivity. }
    unfold get. rewrite HA. cbn [e_ttl e_timestamp e_data default].
    destruct (Qgt_bool _ _); [done|]. intros _. cbv zeta. cbn [snd].
    match goal with |- ~ resident ?c _ /\ _ => set (c4 := c) end.
    assert (cache c4 =
              <["C"%string := Entry (Some vc) (Some tc) (Some (py_or ttl_c 60))]>
                (<["A"%string := Entry (Some va) (Some ta) (Some (py_or ttl_a 60))]> ∅))
      as Hc4.
    { vm_compute. reflexivity. }
    unfold resident. rewrite Hc4. split; [|split].
    + rewrite !lookup_insert_ne, lookup_empty by done. by intros [? ?].
    + rewrite lookup_insert_ne, lookup_insert_eq by done. by eexists.
    + rewrite lookup_insert_eq. by eexists.
Qed.

(** C6, at the input where it fails.  A cache built with [max_items = 0]
    holds one entry after one [set]: more than its bound, and the entry
    is missing from the recency sequence. *)
Theorem zero_capacity_cache_overflows (v : option V) (now : Q) :
  exists c0 : EnhancedCache.t V,
    __init__ 0 = Some c0
    /\ let c := step c0 (OpSet "a" v None now) in
       size (cache c) = 1%nat /\ max_items c = 0 /\ resident c "a"
       /\ recency c = [] /\ ~ bounded_lockstep c.
Proof.
  eexists. split; [reflexivity|]. cbv zeta.
  assert (size (cache (step (Cache ∅ (Deque.Deque [] 0) 0 0 0 60%Q)
                         (OpSet "a" v None now))) = 1%nat) as Hsz
    by (vm_compute; reflexivity).
  split; [exact Hsz|]. split; [reflexivity|]. split.
  { unfold resident. vm_compute. by eexists. }
  split; [reflexivity|].
  intros [Hbound _]. rewrite Hsz in Hbound. vm_compute in Hbound. by apply Hbound.
Qed.

(** Every entry of a reached cache carries the [ttl] that [set] wrote,
    so the [default_ttl] argument of [get] is never consulted. *)
Lemma get_ignores_default_ttl n history c key d1 d2 now :
  reached n history c -> get c key d1 now = get c key d2 now.
Proof.
  intros Hr%reached_complete. unfold get.
  destruct (cache c !! key) as [e|] eqn:He; [|done].
  destruct (Hr key e He) as (_ & _ & [ttl Httl]). by rewrite Httl.
Qed.

(** The [ttl] field that [set] writes: the argument when truthy, the
    default of the cache otherwise. *)
Lemma set_stores_ttl c key (value : option V) ttl now :
  cache (snd (set c key value ttl now)) !! key =
    Some (Entry (Some value) (Some now)
            (Some (if truthy ttl then default 0%Q ttl else default_ttl c))).
Proof.
  rewrite set_cache, lookup_insert_eq. do 3 f_equal. unfold py_or.
  destruct ttl as [q|]; [|done]. simpl. by destruct (Qeq_bool q 0).
Qed.

End CacheClaims.

(** ** Cache: further properties *)

Section CacheFurther.
Context {V : Type}.
Implicit Types (c : EnhancedCache.t V) (key : string).
Import EnhancedCache CacheSpec.

Lemma before_store_frame c key :
  hits (before_store c key) = hits c /\ misses (before_store c key) = misses c
  /\ max_items (before_store c key) = max_items c.
Proof.
  unfold before_store. case_match; [|done].
  by destruct (evict_lru_frame c) as (-> & -> & -> & _).
Qed.

Lemma before_store_consistent c key : consistent c -> consistent (before_store c key).
Proof.
  intros Hc. unfold before_store. case_match; [by apply evict_lru_consistent|done].
Qed.

(** After the eviction, if any, there is room for the key. *)
Lemma before_store_room c key :
  consistent c -> 1 <= max_items c ->
  key ∈ recency (before_store c key)
  \/ Z.of_nat (length (recency (before_store c key))) < max_items c.
Proof.
  intros Hc Hpos. unfold before_store.
  destruct (max_items c <=? Z.of_nat (size (cache c))) eqn:Hfull; simpl.
  - case_bool_decide as Hres; simpl.
    + left. destruct Hc as (_ & _ & _ & _ & _ & Hsup). by apply Hsup.
    + unfold _evict_lru. destruct (Deque.items (access_order c)) as [|lru l] eqn:Hl.
      * apply Z.leb_le in Hfull. pose proof (consistent_size c Hc Hpos) as Hsz.
        unfold recency in Hsz. rewrite Hl in Hsz. simpl in Hsz. lia.
      * rewrite remove_entry_recency. right. unfold recency. rewrite Hl. simpl.
        rewrite decide_True by done. destruct Hc as (_ & _ & Hlen & _).
        unfold recency in Hlen. rewrite Hl in Hlen. simpl in Hlen. lia.
  - apply Z.leb_gt in Hfull. right. rewrite (consistent_size c Hc Hpos). lia.
Qed.

Lemma set_recency c key (v : option V) ttl now :
  consistent c -> 1 <= max_items c ->
  recency (snd (set c key v ttl now))
  = Deque.remove_first key (recency (before_store c key)) ++ [key].
Proof.
  intros Hc Hpos. rewrite set_eq. cbn [snd]. rewrite update_access_order_eq.
  unfold recency. cbn [access_order with_access_order with_cache].
  pose proof (before_store_consistent c key Hc) as (Hmax & _ & Hlen & _).
  destruct (before_store_frame c key) as (_ & _ & Hmi).
  apply moved_to_tail_room.
  - rewrite Hmax, Hmi. by apply before_store_room.
  - rewrite Hmax. exact Hlen.
Qed.

Lemma get_hit_recency c key d now :
  consistent c -> 1 <= max_items c ->
  fst (fst (get c key d now)) = true ->
  recency (snd (get c key d now)) = Deque.remove_first key (recency c) ++ [key].
Proof.
  intros Hc Hpos. unfold get. destruct (cache c !! key) as [e|] eqn:He; [|done].
  case_match; [done|]. intros _. cbn [snd]. rewrite update_access_order_eq.
  unfold recency. cbn [access_order with_access_order with_hits].
  destruct Hc as (Hmax & _ & Hlen & _ & _ & Hsup).
  apply moved_to_tail_room; [|by rewrite Hmax].
  left. apply Hsup; [done|]. by eexists.
Qed.

Lemma get_hit_resident c key d now :
  fst (fst (get c key d now)) = true -> resident c key.
Proof.
  unfold get, resident. destruct (cache c !! key) as [e|]; [by eexists|done].
Qed.

(** In a sequence without duplicates that ends in [key] and has another
    item, the head is not [key]. *)
Lemma head_is_not_last (l : list string) lru rest key :
  NoDup l -> l = lru :: rest -> rest <> [] -> last l = Some key -> lru <> key.
Proof.
  intros Hnd -> Hrest Hlast. apply NoDup_cons in Hnd as [Hnot _].
  intros ->. apply Hnot. destruct rest as [|x rest]; [done|].
  change (last (x :: rest) = Some key) in Hlast. by apply last_Some_elem_of.
Qed.

Lemma get_counters c key d now :
  (fst (fst (get c key d now)) = true ->
     hits (snd (get c key d now)) = hits c + 1
     /\ misses (snd (get c key d now)) = misses c)
  /\ (fst (fst (get c key d now)) = false ->
     hits (snd (get c key d now)) = hits c
     /\ misses (snd (get c key d now)) = misses c + 1).
Proof.
  unfold get. destruct (cache c !! key) as [e|]; [|by split].
  case_match; cbv zeta; cbn [fst snd]; split; try done; intros _.
  destruct (remove_entry_frame c key) as (Hh & Hm & _).
  cbn [hits misses with_misses]. by rewrite Hh, Hm.
Qed.

Lemma set_counters c key (v : option V) ttl now :
  hits (snd (set c key v ttl now)) = hits c
  /\ misses (snd (set c key v ttl now)) = misses c.
Proof.
  rewrite set_eq. cbn [snd]. rewrite update_access_order_eq.
  cbn [hits misses with_access_order with_cache].
  by destruct (before_store_frame c key) as (-> & -> & _).
Qed.

Lemma clear_frame c (k0 : option string) :
  hits (clear c k0) = hits c /\ misses (clear c k0) = misses c
  /\ max_items (clear c k0) = max_items c /\ default_ttl (clear c k0) = default_ttl c.
Proof.
  unfold clear, Deque.contains. destruct k0 as [k|]; [|done].
  repeat case_bool_decide; done.
Qed.

Lemma step_counters c o :
  hits c <= hits (step c o) /\ misses c <= misses (step c o)
  /\ hits (step c o) + misses (step c o)
     = hits c + misses c + (if StatsSpec.is_get o then 1 else 0).
Proof.
  destruct o as [key d now|key v ttl now|k0|ttl]; cbn [step StatsSpec.is_get].
  - destruct (get_counters c key d now) as [Hhit Hmiss].
    destruct (fst (fst (get c key d now))).
    + destruct (Hhit eq_refl) as [-> ->]. lia.
    + destruct (Hmiss eq_refl) as [-> ->]. lia.
  - destruct (set_counters c key v ttl now) as [-> ->]. lia.
  - destruct (clear_frame c k0) as (-> & -> & _). lia.
  - cbn [hits misses with_default_ttl]. lia.
Qed.

Lemma run_counters c history :
  hits c <= hits (run c history) /\ misses c <= misses (run c history)
  /\ hits (run c history) + misses (run c history)
     = hits c + misses c + Z.of_nat (StatsSpec.lookups history).
Proof.
  revert c. induction history as [|o history IH]; intros c.
  - unfold StatsSpec.lookups. simpl. lia.
  - change (run c (o :: history)) with (run (step c o) history).
    destruct (IH (step c o)) as (H1 & H2 & H3).
    destruct (step_counters c o) as (G1 & G2 & G3).
    unfold StatsSpec.lookups in *. simpl. destruct (StatsSpec.is_get o); simpl; lia.
Qed.

(** X1. With a bound of at least one entry the data-model invariant
    holds after every history of [get], [set] and [clear] calls on a
    fresh cache: the entries never exceed [max_items], the recency
    sequence has no duplicates and names exactly the resident keys, so
    that its length is the number of entries. *)
Theorem positive_bound_invariant n history c :
  1 <= n -> reached n history c ->
  bounded_lockstep c /\ max_items c = n /\ length (recency c) = size (cache c).
Proof.
  intros Hpos Hr. split; [by eapply reached_bounded_lockstep|].
  apply reached_consistent in Hr as [Hc <-]. split; [done|]. by apply consistent_size.
Qed.

(** X2. The counters of a cache count its lookups: after any history of
    calls on a fresh cache, [hits + misses] is the number of [get] calls
    made ([set] and [clear] count nothing), both counters are
    non-negative, and the hit ratio reported by [get_stats] lies between
    0 and 1, being 0 before the first lookup. *)
Theorem stats_count_lookups n history c :
  reached n history c ->
  0 <= hits c /\ 0 <= misses c
  /\ st_total_requests (get_stats c) = Z.of_nat (StatsSpec.lookups history)
  /\ st_hits (get_stats c) + st_misses (get_stats c) = st_total_requests (get_stats c)
  /\ (0 <= st_hit_ratio (get_stats c) <= 1)%Q
  /\ (StatsSpec.lookups history = 0%nat -> st_hit_ratio (get_stats c) = 0%Q).
Proof.
  intros (c0 & Hinit & ->). unfold __init__ in Hinit.
  destruct (Deque.new n) as [dq|]; [|done]. injection Hinit as <-.
  destruct (run_counters (Cache ∅ dq 0 0 n 60) history) as (Hh & Hm & Hsum).
  cbn [hits misses] in Hh, Hm, Hsum.
  set (c := run (Cache ∅ dq 0 0 n 60) history) in *.
  unfold get_stats. cbn [st_hits st_misses st_hit_ratio st_total_requests].
  split; [done|]. split; [done|]. split; [lia|]. split; [done|].
  destruct (Z.eqb_spec (hits c + misses c) 0) as [Hz|Hnz].
  - split; [split; discriminate|done].
  - assert (0 < inject_Z (hits c + misses c))%Q as Hpos.
    { change 0%Q with (inject_Z 0). rewrite <- Zlt_Qlt. lia. }
    split; [|lia]. split.
    + apply Qle_shift_div_l; [done|]. rewrite Qmult_0_l.
      change 0%Q with (inject_Z 0). rewrite <- Zle_Qle. lia.
    + apply Qle_shift_div_r; [done|]. rewrite Qmult_1_l. rewrite <- Zle_Qle. lia.
Qed.

(** X3. [clear(key)] with a non-empty key removes that key and nothing
    else: the other entries stay, and on a cache reached from the
    constructor the key leaves the recency sequence.  [clear()] and
    [clear('')] (a falsy key) both empty the cache and the recency
    sequence.  No [clear] touches the counters, the bound or the default
    ttl. *)
Theorem clear_removes_one_key_or_all c :
  (forall key, key <> EmptyString ->
     cache (clear c (Some key)) = delete key (cache c)
     /\ forall n history, reached n history c ->
          recency (clear c (Some key)) = Deque.remove_first key (recency c))
  /\ clear c (Some EmptyString) = clear c None
  /\ cache (clear c None) = ∅ /\ recency (clear c None) = []
  /\ forall k0, hits (clear c k0) = hits c /\ misses (clear c k0) = misses c
                /\ max_items (clear c k0) = max_items c
                /\ default_ttl (clear c k0) = default_ttl c.
Proof.
  split; [|split; [done|split; [done|split; [done|apply clear_frame]]]].
  intros key Hkey. unfold clear. rewrite bool_decide_eq_false_2 by done.
  case_bool_decide as Hres.
  - unfold Deque.contains, recency. cbn [access_order with_cache].
    case_bool_decide as Hin; cbn [cache access_order with_access_order with_cache Deque.remove Deque.items];
      (split; [done|]); intros n history _; [done|by rewrite remove_first_notin].
  - split; [rewrite delete_id; [done|by apply eq_None_not_Some]|].
    intros n history [(_ & _ & _ & _ & Hsub & _) _]%reached_consistent.
    rewrite remove_first_notin; [done|]. intros Hin. by apply Hres, Hsub.
Qed.

(** X4. Writing then reading: [set] returns the value it stores, and a
    [get] of the key at time [t] after a [set] at time [t0] returns
    [(True, value)] as long as [t - t0] does not exceed the ttl in force
    (the [ttl] argument when truthy, the default of the cache
    otherwise), whatever [default_ttl] argument the [get] passes; once
    [t - t0] exceeds it the [get] returns [(False, None)] and the key is
    gone.  This holds for every cache object, whatever its bound. *)
Theorem set_then_get c key (value : option V) ttl (t0 t : Q) d :
  let c1 := snd (set c key value ttl t0) in
  let T := py_or ttl (default_ttl c) in
  fst (set c key value ttl t0) = value
  /\ ((t - t0 <= T)%Q -> fst (get c1 key d t) = (true, value))
  /\ ((T < t - t0)%Q ->
        fst (get c1 key d t) = (false, None) /\ ~ resident (snd (get c1 key d t)) key).
Proof.
  cbv zeta. split; [by rewrite set_eq|].
  pose proof (set_cache c key value ttl t0) as Hc1.
  assert (cache (snd (set c key value ttl t0)) !! key
          = Some (Entry (Some value) (Some t0) (Some (py_or ttl (default_ttl c))))) as He.
  { rewrite Hc1. apply lookup_insert_eq. }
  split.
  - intros Hle. by rewrite (get_fresh _ key _ d t He).
  - intros Hlt. rewrite (get_expired _ key _ d t He) by done. split; [done|].
    unfold resident. cbn [snd cache with_misses]. rewrite remove_entry_cache.
    rewrite lookup_delete_eq. by intros [? ?].
Qed.

(** X5. [set] never drops more than one entry, and drops none when the
    key is resident already (an overwrite) or the cache has room: then
    the map after the call is the map before with the new entry for the
    key, every other key keeping its entry. *)
Theorem set_evicts_at_most_one c key (value : option V) ttl now :
  let e := Entry (Some value) (Some now) (Some (py_or ttl (default_ttl c))) in
  (exists evicted : option string,
     cache (snd (set c key value ttl now))
     = <[key := e]> (from_option (fun lru => delete lru (cache c)) (cache c) evicted))
  /\ (resident c key \/ Z.of_nat (size (cache c)) < max_items c ->
      cache (snd (set c key value ttl now)) = <[key := e]> (cache c)
      /\ forall k, k <> key -> cache (snd (set c key value ttl now)) !! k = cache c !! k).
Proof.
  cbv zeta. rewrite set_cache. split.
  - destruct (before_store_cache c key) as [->|[lru ->]]; [by exists None|by exists (Some lru)].
  - intros Hroom. assert (before_store c key = c) as ->.
    { unfold before_store. destruct Hroom as [Hres|Hlt].
      - rewrite (bool_decide_eq_true_2 _ Hres). by rewrite andb_false_r.
      - by rewrite (proj2 (Z.leb_gt _ _) Hlt). }
    split; [done|]. intros k Hk. by rewrite lookup_insert_ne.
Qed.

(** X6. On a cache with a bound of at least one entry, the key of a
    [set] or of a successful [get] becomes the most recently used one:
    it is the last item of the recency sequence, a [get] reordering the
    sequence without adding or removing a key.  Hence, when another key
    is resident, the head of the sequence (the key the next eviction
    removes) is not the key just used. *)
Theorem used_key_becomes_most_recent n history c key :
  1 <= n -> reached n history c ->
  (forall value ttl now,
     let c' := snd (set c key value ttl now) in
     last (recency c') = Some key
     /\ forall lru l, recency c' = lru :: l -> l <> [] -> lru <> key)
  /\ (forall d now,
        fst (fst (get c key d now)) = true ->
        let c' := snd (get c key d now) in
        last (recency c') = Some key
        /\ (forall k, k ∈ recency c' <-> k ∈ recency c)
        /\ forall lru l, recency c' = lru :: l -> l <> [] -> lru <> key).
Proof.
  intros Hpos [Hc <-]%reached_consistent. split.
  - intros value ttl now c'.
    assert (last (recency c') = Some key) as Hlast.
    { unfold c'. rewrite set_recency by done. apply last_snoc. }
    split; [done|]. intros lru l Hl Hne.
    eapply head_is_not_last; [|exact Hl|exact Hne|exact Hlast].
    by destruct (set_consistent c key value ttl now Hc) as (_ & _ & _ & Hnd & _).
  - intros d now Hhit c'.
    assert (recency c' = Deque.remove_first key (recency c) ++ [key]) as Hrec.
    { unfold c'. by apply get_hit_recency. }
    assert (last (recency c') = Some key) as Hlast by (rewrite Hrec; apply last_snoc).
    split; [done|]. split.
    + intros k. rewrite Hrec, elem_of_app, list_elem_of_singleton.
      destruct Hc as (_ & _ & _ & Hnd & _ & Hsup).
      rewrite elem_of_remove_first by done.
      assert (key ∈ recency c) as Hin.
      { apply Hsup; [done|]. by eapply get_hit_resident. }
      destruct (decide (k = key)) as [->|]; naive_solver.
    + intros lru l Hl Hne.
      eapply head_is_not_last; [|exact Hl|exact Hne|exact Hlast].
      by destruct (get_consistent c key d now Hc) as (_ & _ & _ & Hnd & _).
Qed.

End CacheFurther.

(** ** Retrier *)

Section RetryFacts.
Context {S R exn : Type}.
Variable asyncio_sleep : Q -> S -> S.
Variable random_random : S -> Q * S.
Variable log : log_record exn -> S -> S.
Variable RuntimeError : message exn -> exn.
Variable OverflowError : exn.
Import RetryableOperation.

Abbreviation run_loop :=
  (run_loop (R:=R) asyncio_sleep random_random log RuntimeError OverflowError).
Abbreviation run := (run (R:=R) asyncio_sleep random_random log RuntimeError OverflowError).
Abbreviation backoff := (backoff OverflowError).
Implicit Types (self : RetryableOperation.t exn) (op : callable S R exn).

(** The backoff is the capped product up to retry 1024 and the
    [OverflowError] of the conversion from retry 1025 on. *)
Lemma backoff_cases self k :
  (1025 <= k /\ backoff self k = Raised OverflowError)
  \/ (k <= 1024
      /\ backoff self k
         = Returned (Qmin (base_delay self * inject_Z (2 ^ (k - 1))) 60)).
Proof.
  unfold RetryableOperation.backoff, float_of_pow2.
  destruct (Z.leb_spec 1024 (k - 1)); [left|right]; (split; [lia|done]).
Qed.

(** The loop ends: with fuel above the number of iterations left, the
    result is there. *)
Lemma run_loop_total fuel self op name retry_count last_exception s :
  (Z.to_nat (max_retries self + 1 - retry_count) < fuel)%nat ->
  is_Some (run_loop fuel self op name retry_count last_exception s).
Proof.
  revert retry_count last_exception s.
  induction fuel as [|fuel IH]; intros rc last s Hfuel; [lia|].
  simpl. destruct (Z.leb_spec rc (max_retries self)) as [Hle|Hgt]; [|by eexists].
  destruct (call op s) as [[result|e] s1]; [by eexists|].
  destruct (retry_on self e); [|by eexists].
  destruct (Z.gtb_spec (rc + 1) (max_retries self)) as [Hlast|Hmore]; [by eexists|].
  destruct (backoff_cases self (rc + 1)) as [[_ ->]|[_ ->]]; [by eexists|].
  destruct (use_jitter self); [destruct (random_uniform _ _ _ _) as [j s2]|];
    match goal with
    | |- context [RetryableOperation.run_loop _ _ _ _ _ fuel self op name (rc + 1) ?l ?s2] =>
        destruct (IH (rc + 1) l s2) as [[[r s3] events] ->]; [lia|]
    end; by eexists.
Qed.

(** [run] returns or raises: it never runs out of fuel. *)
Lemma run_total self op name s : is_Some (run self op name s).
Proof. unfold RetryableOperation.run. apply run_loop_total. lia. Qed.

(** An operation that keeps failing, below the overflow: the loop ends
    at the call that exhausts the retries.  [count] is any reading of
    the state that a call of the operation advances by one and that the
    runtime leaves alone. *)
Lemma run_loop_exhausts (count : S -> Z) fuel self op name retry_count last_exception s :
  (forall s, exists e, fst (call op s) = Raised e /\ retry_on self e = true) ->
  (forall s, count (snd (call op s)) = count s + 1) ->
  (forall d s, count (asyncio_sleep d s) = count s) ->
  (forall s, count (snd (random_random s)) = count s) ->
  (forall l s, count (log l s) = count s) ->
  retry_count <= max_retries self ->
  max_retries self <= 1024 ->
  (Z.to_nat (max_retries self + 1 - retry_count) < fuel)%nat ->
  exists e s0 s1 events,
    run_loop fuel self op name retry_count last_exception s
    = Some (Raised e,
            log (LogRecord "errors" ERROR
                   (OperationFailedAfter name (max_retries self + 1) e)) s1,
            events)
    /\ call op s0 = (Raised e, s1)
    /\ count s1 = count s + (max_retries self + 1 - retry_count)
    /\ length (calls events) = Z.to_nat (max_retries self + 1 - retry_count)
    /\ last (calls events) = Some (Raised e)
    /\ length (sleeps events) = Z.to_nat (max_retries self - retry_count).
Proof.
  intros Hfail Hcount Hsleep Hrand Hlog. revert retry_count last_exception s.
  induction fuel as [|fuel IH]; intros rc last_exception s Hle Hsmall Hfuel; [lia|].
  simpl. rewrite (proj2 (Z.leb_le _ _) Hle).
  destruct (Hfail s) as (e & He & Hretry). pose proof (Hcount s) as Hc.
  destruct (call op s) as [o s1] eqn:Hcall. simpl in He, Hc. subst o. rewrite Hretry.
  destruct (Z.gtb_spec (rc + 1) (max_retries self)) as [Hlast|Hmore].
  - exists e, s, s1, [EvCall (Raised e)].
    replace (rc + 1) with (max_retries self + 1) by lia.
    split; [reflexivity|]. split; [done|]. simpl.
    split; [lia|]. split; [lia|]. split; [done|lia].
  - destruct (backoff_cases self (rc + 1)) as [[? _]|[_ ->]]; [lia|].
    destruct (use_jitter self).
    + unfold random_uniform. pose proof (Hrand s1) as Hr.
      destruct (random_random s1) as [u s2]. simpl in Hr.
      match goal with
      | |- context [RetryableOperation.run_loop _ _ _ _ _ fuel self op name (rc + 1) ?l ?s3] =>
          destruct (IH (rc + 1) l s3)
            as (e' & s0 & s4 & events & -> & Hlastcall & Hn & Hcalls & Hlast & Hsleeps);
            [lia|lia|lia|]; rewrite Hsleep, Hlog, Hr in Hn
      end.
      eexists e', s0, s4, _. split; [reflexivity|]. split; [done|]. simpl.
      rewrite Hcalls, Hsleeps, last_cons, Hlast.
      split; [lia|]. split; [lia|]. split; [done|lia].
    + match goal with
      | |- context [RetryableOperation.run_loop _ _ _ _ _ fuel self op name (rc + 1) ?l ?s3] =>
          destruct (IH (rc + 1) l s3)
            as (e' & s0 & s4 & events & -> & Hlastcall & Hn & Hcalls & Hlast & Hsleeps);
            [lia|lia|lia|]; rewrite Hsleep, Hlog in Hn
      end.
      eexists e', s0, s4, _. split; [reflexivity|]. split; [done|]. simpl.
      rewrite Hcalls, Hsleeps, last_cons, Hlast.
      split; [lia|]. split; [lia|]. split; [done|lia].
Qed.

(** An operation that keeps failing, with more than 1024 retries allowed:
    the loop ends at the failure that makes [retry_count] 1025, where
    the backoff raises; nothing is logged or slept after that call. *)
Lemma run_loop_overflows (count : S -> Z) fuel self op name retry_count last_exception s :
  (forall s, exists e, fst (call op s) = Raised e /\ retry_on self e = true) ->
  (forall s, count (snd (call op s)) = count s + 1) ->
  (forall d s, count (asyncio_sleep d s) = count s) ->
  (forall s, count (snd (random_random s)) = count s) ->
  (forall l s, count (log l s) = count s) ->
  0 <= retry_count <= 1024 ->
  1025 <= max_retries self ->
  (Z.to_nat (1025 - retry_count) <= fuel)%nat ->
  exists e s0 s1 events,
    run_loop fuel self op name retry_count last_exception s
    = Some (Raised OverflowError, s1, events)
    /\ call op s0 = (Raised e, s1)
    /\ retry_on self e = true
    /\ count s1 = count s + (1025 - retry_count)
    /\ length (calls events) = Z.to_nat (1025 - retry_count)
    /\ last (calls events) = Some (Raised e)
    /\ length (sleeps events) = Z.to_nat (1024 - retry_count).
Proof.
  intros Hfail Hcount Hsleep Hrand Hlog. revert retry_count last_exception s.
  induction fuel as [|fuel IH]; intros rc last_exception s Hrc Hbig Hfuel; [lia|].
  simpl. rewrite (proj2 (Z.leb_le _ _)) by lia.
  destruct (Hfail s) as (e & He & Hretry). pose proof (Hcount s) as Hc.
  destruct (call op s) as [o s1] eqn:Hcall. simpl in He, Hc. subst o. rewrite Hretry.
  rewrite Z.gtb_ltb, (proj2 (Z.ltb_ge _ _)) by lia.
  destruct (backoff_cases self (rc + 1)) as [[Hover ->]|[Hunder ->]].
  - exists e, s, s1, [EvCall (Raised e)]. split; [reflexivity|]. split; [done|].
    split; [done|]. simpl. split; [lia|]. split; [lia|]. split; [done|lia].
  - destruct (use_jitter self).
    + unfold random_uniform. pose proof (Hrand s1) as Hr.
      destruct (random_random s1) as [u s2]. simpl in Hr.
      match goal with
      | |- context [RetryableOperation.run_loop _ _ _ _ _ fuel self op name (rc + 1) ?l ?s3] =>
          destruct (IH (rc + 1) l s3)
            as (e' & s0 & s4 & events & -> & Hlastcall & Hretry' & Hn & Hcalls & Hlast
                & Hsleeps);
            [lia|lia|lia|]; rewrite Hsleep, Hlog, Hr in Hn
      end.
      eexists e', s0, s4, _. split; [reflexivity|]. split; [done|]. split; [done|].
      simpl. rewrite Hcalls, Hsleeps, last_cons, Hlast.
      split; [lia|]. split; [lia|]. split; [done|lia].
    + match goal with
      | |- context [RetryableOperation.run_loop _ _ _ _ _ fuel self op name (rc + 1) ?l ?s3] =>
          destruct (IH (rc + 1) l s3)
            as (e' & s0 & s4 & events & -> & Hlastcall & Hretry' & Hn & Hcalls & Hlast
                & Hsleeps);
            [lia|lia|lia|]; rewrite Hsleep, Hlog in Hn
      end.
      eexists e', s0, s4, _. split; [reflexivity|]. split; [done|]. split; [done|].
      simpl. rewrite Hcalls, Hsleeps, last_cons, Hlast.
      split; [lia|]. split; [lia|]. split; [done|lia].
Qed.


(** C1, at the inputs where it fails.  With [max_retries >= 1025] and an
    operation that raises a retryable exception on every call, [run]
    calls the operation 1025 times, not [max_retries + 1] times, sleeps
    1024 times, and then raises [OverflowError] instead of the exception
    of the last call: the backoff of retry 1025 converts [2 ** 1024] to
    float before the cap of 60 seconds applies.  The final state is the
    one the 1025th call left: that failure is neither logged nor slept
    for.  [count] is any reading of the state that a call of the
    operation advances by one and that sleeping, drawing the jitter and
    logging leave alone, so [count] tells the calls really made. *)
Theorem run_overflows_after_1025_calls (count : S -> Z) self op name s :
  1025 <= max_retries self ->
  (forall s, exists e, fst (call op s) = Raised e /\ retry_on self e = true) ->
  (forall s, count (snd (call op s)) = count s + 1) ->
  (forall d s, count (asyncio_sleep d s) = count s) ->
  (forall s, count (snd (random_random s)) = count s) ->
  (forall l s, count (log l s) = count s) ->
  exists e s0 s1 events,
    run self op name s = Some (Raised OverflowError, s1, events)
    /\ call op s0 = (Raised e, s1)
    /\ retry_on self e = true
    /\ count s1 = count s + 1025
    /\ length (calls events) = 1025%nat
    /\ last (calls events) = Some (Raised e)
    /\ length (sleeps events) = 1024%nat.
Proof.
  intros Hbig Hfail Hcount Hsleep Hrand Hlog. unfold RetryableOperation.run.
  match goal with
  | |- context [RetryableOperation.run_loop _ _ _ _ _ ?f self op ?nm 0 None s] =>
      destruct (run_loop_overflows count f self op nm 0 None s Hfail Hcount Hsleep Hrand
                  Hlog)
        as (e & s0 & s1 & events & Hrun & Hcall & Hretry & Hn & Hcalls & Hlast & Hsleeps);
        [lia|lia|lia|]
  end.
  exists e, s0, s1, events. rewrite Hcalls, Hsleeps. split; [done|].
  split; [done|]. split; [done|]. split; [lia|]. split; [lia|]. split; [done|lia].
Qed.

(** C2. When the first call raises an exception outside the retryable
    set, [run] logs it and raises that exception: the operation was
    called once and nothing was slept, whatever the retry count. *)
Theorem run_fails_fast self op name s e s1 :
  0 <= max_retries self ->
  call op s = (Raised e, s1) ->
  retry_on self e = false ->
  exists operation_name events,
    run self op name s
      = Some (Raised e,
              log (LogRecord "errors" ERROR (NonRetryableError operation_name e)) s1,
              events)
    /\ calls events = [Raised e] /\ sleeps events = [].
Proof.
  intros Hn Hcall Hfatal. unfold RetryableOperation.run. simpl.
  rewrite (proj2 (Z.leb_le _ _) Hn), Hcall, Hfatal.
  eexists _, _. split; [reflexivity|]. done.
Qed.

Lemma capped_nonneg self k :
  (0 <= base_delay self)%Q ->
  (0 <= Qmin (base_delay self * inject_Z (2 ^ (k - 1))) 60)%Q.
Proof.
  intros Hb. apply Q.min_glb; [|done].
  apply Qmult_le_0_compat; [done|].
  change 0%Q with (inject_Z 0). rewrite <- Zle_Qle. apply Z.pow_nonneg. lia.
Qed.

Lemma run_loop_delays fuel self op name retry_count last_exception s r s' events :
  run_loop fuel self op name retry_count last_exception s = Some (r, s', events) ->
  forall i d, sleeps events !! i = Some d ->
    let k := retry_count + 1 + Z.of_nat i in
    let capped := Qmin (base_delay self * inject_Z (2 ^ (k - 1))) 60 in
    k <= max_retries self /\ k <= 1024
    /\ exists jitter_amount,
         (d == capped + jitter_amount)%Q
         /\ (use_jitter self = false -> jitter_amount = 0%Q)
         /\ (use_jitter self = true -> exists s0,
               jitter_amount = fst (random_uniform random_random 0 (0.5 * capped) s0)).
Proof.
  revert retry_count last_exception s r s' events.
  induction fuel as [|fuel IH]; intros rc last_exception s r s' events; [done|].
  simpl. destruct (Z.leb_spec rc (max_retries self)) as [Hle|Hgt];
    [|intros [= <- <- <-] i d Hi; simpl in Hi; by rewrite lookup_nil in Hi].
  destruct (call op s) as [[result|e] s1];
    [intros [= <- <- <-] i d Hi; simpl in Hi; by rewrite lookup_nil in Hi|].
  destruct (retry_on self e);
    [|intros [= <- <- <-] i d Hi; simpl in Hi; by rewrite lookup_nil in Hi].
  destruct (Z.gtb_spec (rc + 1) (max_retries self)) as [Hlast|Hmore];
    [intros [= <- <- <-] i d Hi; simpl in Hi; by rewrite lookup_nil in Hi|].
  destruct (backoff_cases self (rc + 1)) as [[_ ->]|[Hunder ->]];
    [intros [= <- <- <-] i d Hi; simpl in Hi; by rewrite lookup_nil in Hi|].
  destruct (use_jitter self) eqn:Hj.
  - destruct (random_uniform random_random 0
                (0.5 * Qmin (base_delay self * inject_Z (2 ^ (rc + 1 - 1))) 60) s1)
      as [j s2] eqn:Hdraw.
    destruct (RetryableOperation.run_loop _ _ _ _ _ fuel _ _ _ _ _ _)
      as [[[r' s3] events']|] eqn:Hrec; [|done].
    intros [= <- <- <-] [|i] d Hi; simpl in Hi.
    + injection Hi as <-. cbv zeta. rewrite Z.add_0_r. split; [lia|]. split; [lia|].
      exists j. split; [done|]. split; [done|].
      intros _. exists s1. by rewrite Hdraw.
    + cbv zeta.
      replace (rc + 1 + Z.of_nat (Datatypes.S i)) with (rc + 1 + 1 + Z.of_nat i) by lia.
      by eapply IH.
  - destruct (RetryableOperation.run_loop _ _ _ _ _ fuel _ _ _ _ _ _)
      as [[[r' s3] events']|] eqn:Hrec; [|done].
    intros [= <- <- <-] [|i] d Hi; simpl in Hi.
    + injection Hi as <-. cbv zeta. rewrite Z.add_0_r. split; [lia|]. split; [lia|].
      exists 0%Q. split; [lra|]. split; done.
    + cbv zeta.
      replace (rc + 1 + Z.of_nat (Datatypes.S i)) with (rc + 1 + 1 + Z.of_nat i) by lia.
      by eapply IH.
Qed.


(** What the runtime and the operation leave unchanged, [run] leaves
    unchanged. *)
Lemma run_loop_frame {T} (f : S -> T) fuel self op name retry_count last_exception s
    r s' events :
  (forall d s, f (asyncio_sleep d s) = f s) ->
  (forall s, f (snd (random_random s)) = f s) ->
  (forall l s, f (log l s) = f s) ->
  (forall s, f (snd (call op s)) = f s) ->
  run_loop fuel self op name retry_count last_exception s = Some (r, s', events) ->
  f s' = f s.
Proof.
  intros Hsleep Hrand Hlog Hop. revert retry_count last_exception s r s' events.
  induction fuel as [|fuel IH]; intros rc last_exception s r s' events; [done|].
  simpl. destruct (rc <=? max_retries self); [|by intros [= <- <- <-]].
  specialize (Hop s). destruct (call op s) as [[result|e] s1]; simpl in Hop;
    [by intros [= <- <- <-]|].
  destruct (retry_on self e); [|intros [= <- <- <-]; by rewrite Hlog].
  destruct (rc + 1 >? max_retries self); [intros [= <- <- <-]; by rewrite Hlog|].
  destruct (backoff_cases self (rc + 1)) as [[_ ->]|[_ ->]]; [by intros [= <- <- <-]|].
  destruct (use_jitter self).
  - unfold random_uniform. specialize (Hrand s1).
    destruct (random_random s1) as [u s2]. simpl in Hrand.
    destruct (RetryableOperation.run_loop _ _ _ _ _ fuel _ _ _ _ _ _)
      as [[[r' s3] events']|] eqn:Hrec; [|done].
    intros [= <- <- <-]. apply IH in Hrec. by rewrite Hrec, Hsleep, Hlog, Hrand.
  - destruct (RetryableOperation.run_loop _ _ _ _ _ fuel _ _ _ _ _ _)
      as [[[r' s3] events']|] eqn:Hrec; [|done].
    intros [= <- <- <-]. apply IH in Hrec. by rewrite Hrec, Hsleep, Hlog.
Qed.

End RetryFacts.

(** ** Retrier: further properties *)

Section RetryFurther.
Context {S R exn : Type}.
Variable asyncio_sleep : Q -> S -> S.
Variable random_random : S -> Q * S.
Variable log : log_record exn -> S -> S.
Variable RuntimeError : message exn -> exn.
Variable OverflowError : exn.
Import RetryableOperation.

Abbreviation run_loop :=
  (run_loop (R:=R) asyncio_sleep random_random log RuntimeError OverflowError).
Abbreviation run := (run (R:=R) asyncio_sleep random_random log RuntimeError OverflowError).
Abbreviation backoff := (backoff OverflowError).
Implicit Types (self : RetryableOperation.t exn) (op : callable S R exn).

(** The shape of every run of the loop body: every call but the last
    raised a retryable exception and was followed by one sleep, and the
    outcome is that of the last call, unless the backoff overflowed
    after it: that happens at the failure that makes [retry_count] 1025
    (or the first one, when the count was already past that). *)
Lemma run_loop_shape fuel self op name retry_count last_exception s o s' events :
  run_loop fuel self op name retry_count last_exception s = Some (o, s', events) ->
  retry_count <= max_retries self ->
  length (sleeps events) = pred (length (calls events))
  /\ Z.of_nat (length (calls events)) <= max_retries self + 1 - retry_count
  /\ (forall i o', calls events !! i = Some o' ->
        (Datatypes.S i < length (calls events))%nat ->
        exists e, o' = Raised e /\ retry_on self e = true)
  /\ (last (calls events) = Some o
      \/ (o = Raised OverflowError
          /\ retry_count + Z.of_nat (length (calls events))
             = Z.max (retry_count + 1) 1025
          /\ retry_count + Z.of_nat (length (calls events)) <= max_retries self
          /\ exists e, last (calls events) = Some (Raised e) /\ retry_on self e = true)).
Proof.
  revert retry_count last_exception s o s' events.
  induction fuel as [|fuel IH]; intros rc last_exception s o s' events; [done|].
  simpl. intros Hrun Hle. rewrite (proj2 (Z.leb_le _ _) Hle) in Hrun.
  destruct (call op s) as [[result|e] s1].
  { injection Hrun as <- <- <-. simpl. split; [done|]. split; [lia|].
    split; [|by left]. intros i o' _ Hi. lia. }
  destruct (retry_on self e) eqn:Hretry; cycle 1.
  { injection Hrun as <- <- <-. simpl. split; [done|]. split; [lia|].
    split; [|by left]. intros i o' _ Hi. lia. }
  destruct (Z.gtb_spec (rc + 1) (max_retries self)) as [Hlast|Hmore].
  { injection Hrun as <- <- <-. simpl. split; [done|]. split; [lia|].
    split; [|by left]. intros i o' _ Hi. lia. }
  destruct (backoff_cases OverflowError self (rc + 1)) as [[Hover Hb]|[Hunder Hb]];
    rewrite Hb in Hrun.
  { injection Hrun as <- <- <-. simpl. split; [done|]. split; [lia|].
    split; [intros i o' _ Hi; lia|]. right. split; [done|]. split; [lia|].
    split; [lia|]. by exists e. }
  assert (forall d s2 r,
    match RetryableOperation.run_loop asyncio_sleep random_random log RuntimeError
            OverflowError fuel self op name (rc + 1) (Some e) s2 with
    | Some (r, s, events) => Some (r, s, EvCall (Raised e) :: EvSleep d :: events)
    | None => None
    end = Some r ->
    r = (o, s', events) ->
    length (sleeps events) = pred (length (calls events))
    /\ Z.of_nat (length (calls events)) <= max_retries self + 1 - rc
    /\ (forall i o', calls events !! i = Some o' ->
          (Datatypes.S i < length (calls events))%nat ->
          exists e, o' = Raised e /\ retry_on self e = true)
    /\ (last (calls events) = Some o
        \/ (o = Raised OverflowError
            /\ rc + Z.of_nat (length (calls events)) = Z.max (rc + 1) 1025
            /\ rc + Z.of_nat (length (calls events)) <= max_retries self
            /\ exists e, last (calls events) = Some (Raised e)
                         /\ retry_on self e = true))) as Hstep.
  { intros d s2 r Hrec Hr.
    destruct (RetryableOperation.run_loop _ _ _ _ _ fuel _ _ _ _ _ _)
      as [[[o1 s3] events1]|] eqn:Hloop; [|done].
    injection Hrec as <-. injection Hr as <- <- <-.
    destruct (IH _ _ _ _ _ _ Hloop) as (Hs & Hn & Hearlier & Hl); [lia|].
    simpl. rewrite last_cons.
    destruct (calls events1) as [|c0 cs] eqn:Hcalls.
    { destruct Hl as [[=]|(_ & _ & _ & e' & [=] & _)]. }
    split; [simpl in *; lia|]. split; [simpl in *; lia|]. split.
    - intros [|i] o' Hi Hlen; simpl in Hi.
      + injection Hi as <-. by exists e.
      + apply (Hearlier i o' Hi). simpl in *. lia.
    - destruct Hl as [->|(-> & Hat & Hroom & e' & -> & He')]; [by left|].
      right. split; [done|]. split; [simpl in *; lia|]. split; [simpl in *; lia|].
      by exists e'. }
  destruct (use_jitter self).
  - destruct (random_uniform _ _ _ _) as [j s2]. by eapply Hstep.
  - by eapply Hstep.
Qed.

(** A run of an operation that fails [left s] more times with a
    retryable exception and then returns. *)
Lemma run_loop_recovers (left : S -> nat) fuel self op name retry_count last_exception s :
  (forall s, left s = 0%nat -> exists v, fst (call op s) = Returned v) ->
  (forall s n, left s = Datatypes.S n ->
     exists e, fst (call op s) = Raised e /\ retry_on self e = true
               /\ left (snd (call op s)) = n) ->
  (forall d s, left (asyncio_sleep d s) = left s) ->
  (forall s, left (snd (random_random s)) = left s) ->
  (forall l s, left (log l s) = left s) ->
  retry_count + Z.of_nat (left s) <= max_retries self ->
  retry_count + Z.of_nat (left s) <= 1024 ->
  (Z.to_nat (max_retries self + 1 - retry_count) < fuel)%nat ->
  exists v s' events,
    run_loop fuel self op name retry_count last_exception s = Some (Returned v, s', events)
    /\ length (calls events) = Datatypes.S (left s)
    /\ last (calls events) = Some (Returned v)
    /\ length (sleeps events) = left s.
Proof.
  intros Hok Hfail Hsleep Hrand Hlog. revert retry_count last_exception s.
  induction fuel as [|fuel IH]; intros rc last_exception s Hbudget Hsmall Hfuel; [lia|].
  simpl. rewrite (proj2 (Z.leb_le _ _)) by lia.
  destruct (left s) as [|n] eqn:Hleft.
  - destruct (Hok s Hleft) as [v Hv]. destruct (call op s) as [o s1]. simpl in Hv. subst o.
    by eexists v, _, _.
  - destruct (Hfail s n Hleft) as (e & He & Hretry & Hn).
    destruct (call op s) as [o s1]. simpl in He, Hn. subst o. rewrite Hretry.
    rewrite Z.gtb_ltb, (proj2 (Z.ltb_ge _ _)) by lia.
    destruct (backoff_cases OverflowError self (rc + 1)) as [[? _]|[_ ->]]; [lia|].
    destruct (use_jitter self).
    + unfold random_uniform. pose proof (Hrand s1) as Hr.
      destruct (random_random s1) as [u s2]. simpl in Hr.
      match goal with
      | |- context [RetryableOperation.run_loop _ _ _ _ _ fuel self op name (rc + 1) ?l ?s3] =>
          destruct (IH (rc + 1) l s3) as (v & s' & events & -> & Hcalls & Hlast & Hsleeps);
            [rewrite Hsleep, Hlog, Hr, Hn; lia|rewrite Hsleep, Hlog, Hr, Hn; lia|lia|]
      end.
      eexists v, _, _. split; [reflexivity|]. simpl.
      rewrite Hcalls, Hsleeps, last_cons, Hlast, Hsleep, Hlog, Hr, Hn. done.
    + match goal with
      | |- context [RetryableOperation.run_loop _ _ _ _ _ fuel self op name (rc + 1) ?l ?s3] =>
          destruct (IH (rc + 1) l s3) as (v & s' & events & -> & Hcalls & Hlast & Hsleeps);
            [rewrite Hsleep, Hlog, Hn; lia|rewrite Hsleep, Hlog, Hn; lia|lia|]
      end.
      eexists v, _, _. split; [reflexivity|]. simpl.
      rewrite Hcalls, Hsleeps, last_cons, Hlast, Hsleep, Hlog, Hn. done.
Qed.

(** Every recorded call is a call of the operation. *)
Lemma run_loop_outcomes fuel self op name retry_count last_exception s o s' events :
  run_loop fuel self op name retry_count last_exception s = Some (o, s', events) ->
  forall c, c ∈ calls events -> exists s0, c = fst (call op s0).
Proof.
  revert retry_count last_exception s o s' events.
  induction fuel as [|fuel IH]; intros rc last_exception s o s' events; [done|].
  simpl. destruct (rc <=? max_retries self);
    [|intros [= <- <- <-] c Hc; by apply elem_of_nil in Hc].
  destruct (call op s) as [o1 s1] eqn:Hcall.
  assert (o1 = fst (call op s)) as Ho1 by (by rewrite Hcall).
  assert (forall c : outcome exn R, c ∈ [o1] -> exists s0, c = fst (call op s0)) as Hone.
  { intros c ->%list_elem_of_singleton. by exists s. }
  destruct o1 as [result|e]; [by intros [= <- <- <-]|].
  destruct (retry_on self e); [|by intros [= <- <- <-]].
  destruct (rc + 1 >? max_retries self); [by intros [= <- <- <-]|].
  destruct (backoff_cases OverflowError self (rc + 1)) as [[_ ->]|[_ ->]];
    [by intros [= <- <- <-]|].
  destruct (use_jitter self); [destruct (random_uniform _ _ _ _) as [j s2]|];
    (destruct (RetryableOperation.run_loop _ _ _ _ _ fuel _ _ _ _ _ _)
       as [[[r' s3] events']|] eqn:Hrec; [|done];
     intros [= <- <- <-] c Hc; simpl in Hc;
     apply elem_of_cons in Hc as [->|Hc]; [by exists s|by eapply IH]).
Qed.

Lemma total_delay_bound (l : list Q) :
  (forall d, d ∈ l -> (d <= 90)%Q) ->
  (RetrySpec.total_delay l <= 90 * inject_Z (Z.of_nat (length l)))%Q.
Proof.
  induction l as [|d l IH]; intros Hl; [vm_compute; discriminate|].
  cbn [RetrySpec.total_delay foldr length].
  fold (RetrySpec.total_delay l).
  rewrite Nat2Z.inj_succ, <- Z.add_1_r, inject_Z_plus.
  assert (d <= 90)%Q as Hd by (apply Hl; set_solver).
  assert (RetrySpec.total_delay l <= 90 * inject_Z (Z.of_nat (length l)))%Q as Hrest.
  { apply IH. intros d' Hd'. apply Hl. set_solver. }
  change (inject_Z 1) with 1%Q. lra.
Qed.

(** X31. Up to [max_retries = N = 1024] the retries are exhausted as
    documented: with an operation that raises a retryable exception on
    every call, [run] calls the operation exactly [N + 1] times, sleeps
    [N] times in between, logs the failure after [N + 1] attempts, and
    raises the exception that the last call raised.  [count] is any
    reading of the state that a call of the operation advances by one
    and that sleeping, drawing the jitter and logging leave alone: at the
    end it reads [N + 1] more, so the calls recorded are calls made. *)
Theorem run_exhausts_retries (count : S -> Z) self op name s :
  0 <= max_retries self <= 1024 ->
  (forall s, exists e, fst (call op s) = Raised e /\ retry_on self e = true) ->
  (forall s, count (snd (call op s)) = count s + 1) ->
  (forall d s, count (asyncio_sleep d s) = count s) ->
  (forall s, count (snd (random_random s)) = count s) ->
  (forall l s, count (log l s) = count s) ->
  exists operation_name e s0 s1 s' events,
    run self op name s = Some (Raised e, s', events)
    /\ call op s0 = (Raised e, s1)
    /\ s' = log (LogRecord "errors" ERROR
                   (OperationFailedAfter operation_name (max_retries self + 1) e)) s1
    /\ count s' = count s + (max_retries self + 1)
    /\ Z.of_nat (length (calls events)) = max_retries self + 1
    /\ last (calls events) = Some (Raised e)
    /\ Z.of_nat (length (sleeps events)) = max_retries self.
Proof.
  intros Hn Hfail Hcount Hsleep Hrand Hlog. unfold RetryableOperation.run.
  match goal with
  | |- context [RetryableOperation.run_loop _ _ _ _ _ ?f self op ?nm 0 None s] =>
      destruct (run_loop_exhausts asyncio_sleep random_random log RuntimeError
                  OverflowError count f self op nm 0 None s Hfail Hcount Hsleep Hrand Hlog)
        as (e & s0 & s1 & events & Hrun & Hcall & Hc & Hcalls & Hlast & Hsleeps);
        [lia|lia|lia|];
      exists nm, e, s0, s1
  end.
  eexists _, events. split; [exact Hrun|]. split; [done|]. split; [done|].
  rewrite Hlog, Hc, Hcalls, Hsleeps. split; [lia|]. split; [lia|]. split; [done|lia].
Qed.


(** X8. For a retry count that is not negative, every call before the
    last one raised an exception of the retryable set, and what [run]
    returns or raises is what the last call of the operation returned or
    raised, with one exception: when more than 1024 retries are allowed
    and the first 1025 calls all raised retryable exceptions, [run] stops
    there and raises the [OverflowError] of the backoff.  So up to
    [max_retries = 1024] [run] never invents a result, never swallows the
    final exception, and never retries after a success or after an
    exception outside the set. *)
Theorem run_result_is_last_call self op name s o s' events :
  0 <= max_retries self ->
  run self op name s = Some (o, s', events) ->
  (forall i o', calls events !! i = Some o' ->
     (Datatypes.S i < length (calls events))%nat ->
     exists e, o' = Raised e /\ retry_on self e = true)
  /\ (last (calls events) = Some o
      \/ (1025 <= max_retries self
          /\ o = Raised OverflowError
          /\ length (calls events) = 1025%nat
          /\ exists e, last (calls events) = Some (Raised e) /\ retry_on self e = true))
  /\ (max_retries self <= 1024 -> last (calls events) = Some o).
Proof.
  intros Hnn Hrun. unfold RetryableOperation.run in Hrun.
  apply run_loop_shape in Hrun as (_ & _ & Hearlier & Hlast); [|done].
  split; [done|]. split.
  - destruct Hlast as [?|(-> & Hat & Hroom & He)]; [by left|].
    right. split; [lia|]. split; [done|]. split; [lia|done].
  - intros Hsmall. destruct Hlast as [?|(_ & Hat & Hroom & _)]; [done|lia].
Qed.

(** X9. Recovery from transient failures: when the operation raises
    retryable exceptions on its next [k] calls and returns on the call
    after, with [k <= max_retries] and [k <= 1024], [run] returns that
    value after exactly [k + 1] calls and [k] sleeps.  The number of
    failures left is a function [left] of the state that sleeping,
    drawing the jitter and logging do not change. *)
Theorem run_recovers (left : S -> nat) self op name s :
  (forall s, left s = 0%nat -> exists v, fst (call op s) = Returned v) ->
  (forall s n, left s = Datatypes.S n ->
     exists e, fst (call op s) = Raised e /\ retry_on self e = true
               /\ left (snd (call op s)) = n) ->
  (forall d s, left (asyncio_sleep d s) = left s) ->
  (forall s, left (snd (random_random s)) = left s) ->
  (forall l s, left (log l s) = left s) ->
  Z.of_nat (left s) <= max_retries self ->
  Z.of_nat (left s) <= 1024 ->
  exists v s' events,
    run self op name s = Some (Returned v, s', events)
    /\ length (calls events) = Datatypes.S (left s)
    /\ last (calls events) = Some (Returned v)
    /\ length (sleeps events) = left s.
Proof.
  intros Hok Hfail Hsleep Hrand Hlog Hbudget Hsmall. unfold RetryableOperation.run.
  match goal with
  | |- context [RetryableOperation.run_loop _ _ _ _ _ ?f self op ?nm 0 None s] =>
      destruct (run_loop_recovers left f self op nm 0 None s Hok Hfail Hsleep Hrand Hlog)
        as (v & s' & events & Hrun & Hcalls & Hlast & Hsleeps); [lia|lia|lia|]
  end.
  by exists v, s', events.
Qed.

(** X10. A negative [max_retries] disables the operation: [run] never
    calls it, sleeps and logs nothing, leaves the state as it is, and
    raises the [RuntimeError] of its last line. *)
Theorem negative_retry_count_never_calls self op name s :
  max_retries self < 0 ->
  exists operation_name,
    run self op name s
    = Some (Raised (RuntimeError (FailedForUnknownReasons operation_name)), s, [])
    /\ (forall n, name = Some n -> n <> EmptyString -> operation_name = n)
    /\ (name = None -> operation_name = default "unknown_operation"%string (__name__ op)).
Proof.
  intros Hneg. unfold RetryableOperation.run. simpl.
  rewrite (proj2 (Z.leb_gt _ _)) by lia. eexists. split; [reflexivity|]. split.
  - intros n -> Hn. by rewrite bool_decide_eq_false_2.
  - by intros ->.
Qed.

(** X11. Every delay slept by [run] is capped: for a base delay that is
    not negative and draws of [random.random()] in the unit interval, a
    delay lies between 0 and 90 seconds (60 seconds of capped backoff
    plus at most half of it as jitter), and between 0 and 60 seconds
    without jitter.  At most [max_retries] delays are slept, so a run
    sleeps at most [90 * max_retries] seconds in total. *)
Theorem retry_delays_are_capped self op name s r s' events :
  run self op name s = Some (r, s', events) ->
  (forall s, (0 <= fst (random_random s) <= 1)%Q) ->
  (0 <= base_delay self)%Q ->
  (forall d, d ∈ sleeps events ->
     (0 <= d <= 90)%Q /\ (use_jitter self = false -> (d <= 60)%Q))
  /\ Z.of_nat (length (sleeps events)) <= Z.max 0 (max_retries self)
  /\ (RetrySpec.total_delay (sleeps events)
      <= 90 * inject_Z (Z.max 0 (max_retries self)))%Q.
Proof.
  intros Hrun Hrand Hbase. unfold RetryableOperation.run in Hrun.
  pose proof (run_loop_delays asyncio_sleep random_random log RuntimeError OverflowError
                _ _ _ _ _ _ _ _ _ _ Hrun) as Hdelays.
  assert (forall d, d ∈ sleeps events ->
            (0 <= d <= 90)%Q /\ (use_jitter self = false -> (d <= 60)%Q)) as Hcap.
  { intros d [i Hi]%list_elem_of_lookup.
    destruct (Hdelays i d Hi) as (_ & _ & j & Heq & Hoff & Hon).
    pose proof (capped_nonneg self (0 + 1 + Z.of_nat i) Hbase) as Hnn.
    pose proof (Q.le_min_r (base_delay self * inject_Z (2 ^ (0 + 1 + Z.of_nat i - 1))) 60)
      as Hcap.
    destruct (use_jitter self).
    - destruct (Hon eq_refl) as [s0 ->]. unfold random_uniform in Heq.
      specialize (Hrand s0). destruct (random_random s0) as [u s1].
      simpl in Heq, Hrand. rewrite Heq. split; [nra|done].
    - rewrite (Hoff eq_refl) in Heq. rewrite Heq. split; [lra|]. intros _. lra. }
  assert (Z.of_nat (length (sleeps events)) <= Z.max 0 (max_retries self)) as Hlen.
  { destruct (sleeps events) as [|d0 l] eqn:Hsl; [simpl; lia|].
    destruct (lookup_lt_is_Some_2 (d0 :: l) (length l)) as [d Hd]; [simpl; lia|].
    destruct (Hdelays (length l) d Hd) as (Hle & _). simpl. lia. }
  split; [done|]. split; [done|].
  eapply Qle_trans; [apply total_delay_bound; intros d Hd; by apply Hcap|].
  apply Qmult_le_l; [done|]. by rewrite <- Zle_Qle.
Qed.

End RetryFurther.

(** ** Retrier: loggers that may raise, and [retry_operation] *)

Section RetryOperationFacts.
Context {S R exn : Type}.
Variable asyncio_sleep : Q -> S -> S.
Variable random_random : S -> Q * S.
Variable RuntimeError : message exn -> exn.
Variable OverflowError : exn.
Variable AttributeError : exn.
Variable is_connection_error : exn -> bool.
Import RetryableOperation.

Implicit Types (self : RetryableOperation.t exn) (op : callable S R exn).

(** X25. Called without loggers, [retry_operation] never retries: its
    default loggers are the built-in [print], which has no [error] or
    [warning] method, so the first logging call raises [AttributeError].
    For [max_retries >= 0] the operation is called exactly once; its
    result is returned when it succeeds, and when it raises any
    exception, retryable or not, [retry_operation] raises
    [AttributeError] in its place, without a sleep. *)
Theorem retry_operation_without_loggers_never_retries op name max_retries s :
  0 <= max_retries ->
  (forall v s1, call op s = (Returned v, s1) ->
     RetryOperation.retry_operation asyncio_sleep random_random RuntimeError
       OverflowError AttributeError is_connection_error op name max_retries None s
     = Some (Returned v, s1, [EvCall (Returned v)]))
  /\ (forall e s1, call op s = (Raised e, s1) ->
        exists s',
          RetryOperation.retry_operation asyncio_sleep random_random RuntimeError
            OverflowError AttributeError is_connection_error op name max_retries None s
          = Some (Raised AttributeError, s', [EvCall (Raised e)])).
Proof.
  intros Hnn. unfold RetryOperation.retry_operation, RetryOperation.run. simpl.
  rewrite (proj2 (Z.leb_le _ _) Hnn). split.
  - intros v s1 ->. done.
  - intros e s1 ->. unfold RetryOperation.print_loggers.
    destruct (is_connection_error e).
    + destruct (0 + 1 >? max_retries).
      * eexists. reflexivity.
      * unfold backoff, float_of_pow2. simpl.
        unfold random_uniform. destruct (random_random s1) as [u s2].
        eexists. reflexivity.
    + eexists. reflexivity.
Qed.

End RetryOperationFacts.

(** ** Manager: reasoning about methods *)

Section ManagerFacts.
Context {World exn client spreadsheet worksheet : Type}.
Variable B : GoogleAPIsManager.backend World exn client spreadsheet worksheet.
Import GoogleAPIsManager.

Abbreviation total m := (@ManagerSpec.total World exn client worksheet _ m).
Abbreviation keeps_caches m := (@ManagerSpec.keeps_caches World exn client worksheet _ m).

Abbreviation state := (GoogleAPIsManager.state World exn client worksheet).
Abbreviation M := (GoogleAPIsManager.M (World:=World) (exn:=exn) (client:=client)
                     (worksheet:=worksheet)).

Lemma bind_inv {A C} (m : M A) (k : A -> M C) s r s' :
  bind m k s = Some (r, s') ->
  (exists a s1, m s = Some (Returned a, s1) /\ k a s1 = Some (r, s'))
  \/ (exists e, m s = Some (Raised e, s') /\ r = Raised e).
Proof.
  unfold bind. destruct (m s) as [[[a|e] s1]|]; [| |done].
  - intros H. left. by exists a, s1.
  - intros [= <- <-]. right. by exists e.
Qed.

Lemma bind_returned_inv {A C} (m : M A) (k : A -> M C) s c s' :
  bind m k s = Some (Returned c, s') ->
  exists a s1, m s = Some (Returned a, s1) /\ k a s1 = Some (Returned c, s').
Proof. intros [H|(e & _ & [=])]%bind_inv. done. Qed.

Lemma try_except_inv {A} (m : M A) (h : exn -> M A) s r s' :
  try_except m h s = Some (r, s') ->
  (exists a, m s = Some (Returned a, s') /\ r = Returned a)
  \/ (exists e s1, m s = Some (Raised e, s1) /\ h e s1 = Some (r, s')).
Proof.
  unfold try_except. destruct (m s) as [[[a|e] s1]|]; [| |done].
  - intros [= <- <-]. left. by exists a.
  - intros H. right. by exists e, s1.
Qed.

Lemma total_ret {A} (a : A) : total (ret a).
Proof. intros s. by eexists. Qed.

Lemma total_raise {A} (e : exn) : total (raise (A:=A) e).
Proof. intros s. by eexists. Qed.

Lemma total_bind {A C} (m : M A) (k : A -> M C) :
  total m -> (forall a, total (k a)) -> total (bind m k).
Proof.
  intros Hm Hk s. unfold bind. destruct (Hm s) as [[[a|e] s1] ->]; [apply Hk|by eexists].
Qed.

Lemma total_try_except {A} (m : M A) (h : exn -> M A) :
  total m -> (forall e, total (h e)) -> total (try_except m h).
Proof.
  intros Hm Hh s. unfold try_except.
  destruct (Hm s) as [[[a|e] s1] ->]; [by eexists|apply Hh].
Qed.

Lemma total_attempt {A} (m : M A) : total m -> total (attempt m).
Proof. intros Hm s. unfold attempt. destruct (Hm s) as [[o s1] ->]. by eexists. Qed.

Lemma total_remote {A} (f : World -> outcome exn A * World) : total (remote f).
Proof. intros s. unfold remote. destruct (f (world s)). by eexists. Qed.

Lemma total_uniform a b : total (uniform B a b).
Proof.
  intros s. unfold uniform, RetryableOperation.random_uniform, random_state.
  destruct (random_random B (world s)). by eexists.
Qed.

Lemma keeps_ret {A} (a : A) : keeps_caches (ret a).
Proof. by intros s r s' [= <- <-]. Qed.

Lemma keeps_raise {A} (e : exn) : keeps_caches (raise (A:=A) e).
Proof. by intros s r s' [= <- <-]. Qed.

Lemma keeps_bind {A C} (m : M A) (k : A -> M C) :
  keeps_caches m -> (forall a, keeps_caches (k a)) -> keeps_caches (bind m k).
Proof.
  intros Hm Hk s r s' [(a & s1 & H1 & H2)|(e & H1 & _)]%bind_inv.
  - rewrite (Hk _ _ _ _ H2). by eapply Hm.
  - by eapply Hm.
Qed.

Lemma keeps_try_except {A} (m : M A) (h : exn -> M A) :
  keeps_caches m -> (forall e, keeps_caches (h e)) -> keeps_caches (try_except m h).
Proof.
  intros Hm Hh s r s' [(a & H1 & _)|(e & s1 & H1 & H2)]%try_except_inv.
  - by eapply Hm.
  - rewrite (Hh _ _ _ _ H2). by eapply Hm.
Qed.

Lemma keeps_attempt {A} (m : M A) : keeps_caches m -> keeps_caches (attempt m).
Proof.
  intros Hm s r s'. unfold attempt. destruct (m s) as [[o s1]|] eqn:H; [|done].
  intros [= <- <-]. by eapply Hm.
Qed.

Lemma keeps_remote {A} (f : World -> outcome exn A * World) : keeps_caches (remote f).
Proof. intros s r s'. unfold remote. destruct (f (world s)). by intros [= <- <-]. Qed.

Lemma keeps_uniform a b : keeps_caches (uniform B a b).
Proof.
  intros s r s'. unfold uniform, RetryableOperation.random_uniform, random_state.
  destruct (random_random B (world s)). by intros [= <- <-].
Qed.

Lemma keeps_modify_self (f : manager client worksheet -> _) :
  (forall m, caches (f m) = caches m) -> keeps_caches (modify_self f).
Proof. intros Hf s r s' [= <- <-]. apply Hf. Qed.

Lemma total_basic :
  total (time_time B) /\ total get_self
  /\ (forall f, total (modify_self f)) /\ (forall d, total (sleep B d))
  /\ (forall l lv m, total (log l lv m)).
Proof. repeat split; repeat intros ?; by eexists. Qed.

Lemma total_lift_outcome {A} (o : outcome exn A) : total (lift_outcome o).
Proof. intros s. by eexists. Qed.

Lemma keeps_time_time : keeps_caches (time_time B).
Proof. by intros s r s' [= <- <-]. Qed.

Lemma keeps_get_self : keeps_caches get_self.
Proof. by intros s r s' [= <- <-]. Qed.

Lemma keeps_sleep d : keeps_caches (sleep B d).
Proof. by intros s r s' [= <- <-]. Qed.

Lemma keeps_log l lv m : keeps_caches (log l lv m).
Proof. by intros s r s' [= <- <-]. Qed.

Lemma keeps_lift_outcome {A} (o : outcome exn A) : keeps_caches (lift_outcome o).
Proof. by intros s r s' [= <- <-]. Qed.

Ltac step_total :=
  first
    [ apply total_bind; [|intros ?]
    | apply total_try_except; [|intros ?]
    | apply total_attempt
    | apply total_remote
    | apply total_uniform
    | apply total_ret
    | apply total_raise
    | apply total_lift_outcome
    | apply total_basic
    | match goal with
      | |- total (match ?x with _ => _ end) => destruct x
      end ].

Ltac step_keeps :=
  first
    [ apply keeps_bind; [|intros ?]
    | apply keeps_try_except; [|intros ?]
    | apply keeps_attempt
    | apply keeps_remote
    | apply keeps_uniform
    | apply keeps_ret
    | apply keeps_raise
    | apply keeps_time_time
    | apply keeps_get_self
    | apply keeps_sleep
    | apply keeps_log
    | apply keeps_lift_outcome
    | apply keeps_modify_self; by intros []
    | match goal with
      | |- keeps_caches (match ?x with _ => _ end) => destruct x
      end ].

Lemma total_rate_limit api : total (_rate_limit_request B api).
Proof. unfold _rate_limit_request. repeat step_total. Qed.

Lemma keeps_rate_limit api : keeps_caches (_rate_limit_request B api).
Proof. unfold _rate_limit_request. repeat step_keeps. Qed.

Lemma total_get_sheet_client : total (get_sheet_client B).
Proof. unfold get_sheet_client, log_error. repeat step_total. Qed.

Lemma keeps_get_sheet_client : keeps_caches (get_sheet_client B).
Proof. unfold get_sheet_client, log_error. repeat step_keeps. Qed.

Lemma total_initialize_sheets : total (initialize_sheets B).
Proof.
  unfold initialize_sheets, init_inventory_sheet, init_headers, log_error.
  repeat first [apply total_rate_limit | apply total_get_sheet_client | step_total].
Qed.

Lemma keeps_initialize_sheets : keeps_caches (initialize_sheets B).
Proof.
  unfold initialize_sheets, init_inventory_sheet, init_headers, log_error.
  repeat first [apply keeps_rate_limit | apply keeps_get_sheet_client | step_keeps].
Qed.

(** [initialize_sheets] swallows every exception. *)
Lemma initialize_sheets_returns s r s' :
  initialize_sheets B s = Some (r, s') -> exists p, r = Returned p.
Proof.
  unfold initialize_sheets. intros H.
  apply bind_inv in H as [(m & s1 & _ & H)|(e & [=] & _)].
  destruct (_ && _).
  { injection H as <- <-. by eexists. }
  apply try_except_inv in H as [(a & _ & ->)|(e & s2 & _ & H)]; [by eexists|].
  unfold log_error in H. apply bind_inv in H as [(? & s3 & _ & H)|(? & [=] & _)].
  injection H as <- <-. by eexists.
Qed.

(** *** Throttling *)

Lemma dict_get_set_eq {A} key (v : A) d : OrderedDict.get key (OrderedDict.set key v d) = Some v.
Proof.
  induction d as [|[k x] d IH]; simpl; [by rewrite decide_True|].
  destruct (decide (k = key)) as [->|Hne]; simpl; [by rewrite decide_True|].
  by rewrite decide_False.
Qed.

Lemma dict_set_length {A} key (v : A) d :
  length (OrderedDict.set key v d) =
    match OrderedDict.get key d with
    | Some _ => length d
    | None => Datatypes.S (length d)
    end.
Proof.
  induction d as [|[k x] d IH]; simpl; [done|].
  destruct (decide (k = key)); simpl; [done|]. rewrite IH. by destruct (OrderedDict.get key d).
Qed.

Lemma Qlt_bool_true a b : Qlt_bool a b = true <-> (a < b)%Q.
Proof.
  unfold Qlt_bool. rewrite negb_true_iff, <- not_true_iff_false, Qle_bool_iff.
  split; [apply Qnot_le_lt|apply Qlt_not_le].
Qed.

Lemma Qlt_bool_false a b : Qlt_bool a b = false <-> (b <= a)%Q.
Proof. unfold Qlt_bool. by rewrite negb_false_iff, Qle_bool_iff. Qed.

Lemma min_wait_bounds api : (1 # 2 <= min_wait api <= 3 # 2)%Q.
Proof.
  unfold min_wait, min_wait_times. simpl.
  repeat (destruct (decide (_ = api)); simpl; [lra|]). lra.
Qed.

(** The draw of [random.uniform(-0.1, 0.1)] for a draw of [random()] in
    the unit interval. *)
Lemma uniform_tenth r :
  (0 <= r <= 1)%Q -> (- (1 # 10) <= - (0.1) + (0.1 - - (0.1)) * r <= 1 # 10)%Q.
Proof. intros Hr. lra. Qed.

Lemma adjusted_wait_bounds m tsl u :
  (tsl < m)%Q -> (- (1 # 10) <= u <= 1 # 10)%Q ->
  (1 # 10 <= adjusted_wait m tsl u)%Q
  /\ ((9 # 10) * (m - tsl + (1 # 10)) <= adjusted_wait m tsl u)%Q.
Proof.
  intros Hlt Hu. unfold adjusted_wait. split; [apply Q.le_max_l|].
  match goal with |- (_ <= Qmax ?a ?b)%Q => pose proof (Q.le_max_r a b) end. nra.
Qed.

Lemma insert_desc_elem x y l : y ∈ OrderedDict.insert_desc x l -> y = x \/ y ∈ l.
Proof.
  induction l as [|z l IH]; simpl; [set_solver|].
  destruct (Qlt_bool (snd x) (snd z)); [|set_solver].
  intros [->|Hy]%elem_of_cons; [set_solver|]. apply IH in Hy. set_solver.
Qed.

Lemma sorted_desc_elem y d : y ∈ OrderedDict.sorted_desc d -> y ∈ d.
Proof.
  induction d as [|x d IH]; simpl; [done|].
  intros [->|Hy]%insert_desc_elem; [set_solver|]. apply IH in Hy. set_solver.
Qed.

Lemma pair_eq_dec (x y : string * Q) : {x = y} + {x <> y}.
Proof.
  decide equality; [|apply String.string_dec].
  decide equality; [apply Pos.eq_dec|apply Z.eq_dec].
Qed.

(** The item with the strictly greatest value comes first. *)
Lemma sorted_desc_head x d :
  x ∈ d -> (forall y, y ∈ d -> y <> x -> (snd y < snd x)%Q) ->
  exists rest, OrderedDict.sorted_desc d = x :: rest.
Proof.
  induction d as [|a d IH]; simpl; [by intros ?%elem_of_nil|].
  intros Hx Hmax. destruct (pair_eq_dec a x) as [->|Hne].
  - destruct (OrderedDict.sorted_desc d) as [|y rest] eqn:Hd; simpl; [by eexists|].
    assert (y ∈ d) as Hy by (apply sorted_desc_elem; rewrite Hd; set_solver).
    destruct (Qlt_bool (snd x) (snd y)) eqn:Hcmp; [|by eexists].
    apply Qlt_bool_true in Hcmp.
    assert (y <> x) as Hyx by (intros ->; by apply Qlt_irrefl in Hcmp).
    specialize (Hmax y (list_elem_of_further _ _ _ Hy) Hyx). lra.
  - apply elem_of_cons in Hx as [->|Hx]; [done|].
    destruct IH as [rest ->]; [done|intros y Hy; apply Hmax; set_solver|].
    simpl. rewrite (proj2 (Qlt_bool_true _ _)); [by eexists|].
    apply Hmax; set_solver.
Qed.

Lemma dict_set_elem {A} key (v : A) d : (key, v) ∈ OrderedDict.set key v d.
Proof.
  induction d as [|[k x] d IH]; simpl; [set_solver|].
  destruct (decide (k = key)) as [->|]; set_solver.
Qed.

Lemma dict_set_elem_inv {A} key (v : A) d y :
  y ∈ OrderedDict.set key v d -> y = (key, v) \/ y ∈ d.
Proof.
  induction d as [|[k x] d IH]; simpl; [set_solver|].
  destruct (decide (k = key)) as [->|]; [set_solver|].
  intros [->|Hy]%elem_of_cons; [set_solver|]. apply IH in Hy. set_solver.
Qed.

(** The request just recorded survives the housekeeping when fewer than
    20 classes were tracked, or when every tracked request is strictly
    older. *)
Lemma recorded_survives api now d :
  (length d < 20)%nat \/ (forall k t, (k, t) ∈ d -> (t < now)%Q) ->
  OrderedDict.get api (ManagerSpec.housekept (OrderedDict.set api now d)) = Some now
  /\ (length (ManagerSpec.housekept (OrderedDict.set api now d)) <= 20)%nat.
Proof.
  intros Hd. unfold ManagerSpec.housekept.
  destruct (Z.ltb_spec 20 (Z.of_nat (length (OrderedDict.set api now d)))) as [Hbig|Hsmall].
  - destruct Hd as [Hlen|Hold].
    { rewrite dict_set_length in Hbig. destruct (OrderedDict.get api d); lia. }
    destruct (sorted_desc_head (api, now) (OrderedDict.set api now d)) as [rest ->].
    + apply dict_set_elem.
    + intros [k t] [->|Hy]%dict_set_elem_inv Hne; [done|]. simpl. by eapply Hold.
    + simpl. rewrite decide_True by done. split; [done|].
      rewrite length_take. lia.
  - split; [apply dict_get_set_eq|lia].
Qed.

(** A class that is tracked already does not trigger the housekeeping. *)
Lemma recorded_again api now d :
  is_Some (OrderedDict.get api d) -> (length d <= 20)%nat ->
  ManagerSpec.housekept (OrderedDict.set api now d) = OrderedDict.set api now d.
Proof.
  intros [x Hx] Hlen. unfold ManagerSpec.housekept.
  rewrite dict_set_length, Hx. by rewrite (proj2 (Z.ltb_ge _ _)) by lia.
Qed.

(** One call of [_rate_limit_request]: it returns; it sleeps exactly when
    the last request of the class is closer than the minimum interval,
    and then for at least 90% of the computed wait and at least 0.1s; it
    records the clock reading taken on return and does the housekeeping. *)
Lemma rate_limit_call api s :
  (forall d w, (clock B w + d <= clock B (asyncio_sleep B d w))%Q) ->
  (forall w, (0 <= fst (random_random B w) <= 1)%Q
             /\ (clock B w <= clock B (snd (random_random B w)))%Q) ->
  exists s',
    _rate_limit_request B api s = Some (Returned tt, s')
    /\ let now := clock B (world s) in
       let last_request := default 0%Q (OrderedDict.get api (last_request_time (self s))) in
       ((now - last_request < min_wait api)%Q ->
          (now + (9 # 10) * (min_wait api - (now - last_request) + (1 # 10))
             <= clock B (world s'))%Q
          /\ exists d, slept s' = slept s ++ [d] /\ (1 # 10 <= d)%Q)
       /\ ((min_wait api <= now - last_request)%Q ->
            world s' = world s /\ slept s' = slept s)
       /\ last_request_time (self s')
          = ManagerSpec.housekept
              (OrderedDict.set api (clock B (world s')) (last_request_time (self s))).
Proof.
  intros Hsleep Hrand.
  unfold _rate_limit_request, bind, time_time, get_self, modify_self, ret, sleep, uniform.
  cbn [world self logs slept].
  set (now := clock B (world s)).
  set (last_request := default 0%Q (OrderedDict.get api (last_request_time (self s)))).
  unfold ManagerSpec.housekept.
  destruct (Qlt_bool (now - last_request) (min_wait api)) eqn:Hcmp.
  - apply Qlt_bool_true in Hcmp.
    unfold RetryableOperation.random_uniform, random_state.
    destruct (Hrand (world s)) as [Hr Hclock].
    destruct (random_random B (world s)) as [r w1]. cbn [fst snd] in Hr, Hclock.
    fold now in Hclock.
    cbn [world self logs slept sleep_state last_request_time with_last_request_time].
    pose proof (adjusted_wait_bounds (min_wait api) (now - last_request) _ Hcmp
                  (uniform_tenth r Hr)) as [Hfloor Hninety].
    match type of Hfloor with
    | (_ <= ?d)%Q => pose proof (Hsleep d w1) as Hslept
    end.
    match goal with
    | |- context [20 <? ?n] => destruct (20 <? n) eqn:Hn
    end; (eexists; split; [reflexivity|]; cbv zeta;
          cbn [world slept self last_request_time with_last_request_time];
          split; [intros _; split; [lra|]; eexists; split; [reflexivity|done]|];
          split; [intros ?; lra|by rewrite Hn]).
  - apply Qlt_bool_false in Hcmp.
    cbn [world self logs slept last_request_time with_last_request_time].
    match goal with
    | |- context [20 <? ?n] => destruct (20 <? n) eqn:Hn
    end; (eexists; split; [reflexivity|]; cbv zeta;
          cbn [world slept self last_request_time with_last_request_time];
          split; [intros ?; lra|]; split; [done|by rewrite Hn]).
Qed.

(** C9. With a clock that does not run backwards and a sleep that lasts
    at least as long as asked: the first [_rate_limit_request] of a class
    with no recorded request returns without sleeping (the clock shows
    Unix time, far above any minimum interval); and of two successive
    calls of one class, the second records a timestamp at least
    [0.9 * min_wait] after the timestamp recorded by the first, whatever
    the jitter draw, a sleep of the second call lasting at least 0.1s.
    The first call keeps its record through the housekeeping: fewer than
    20 classes are tracked, or every tracked request is strictly older. *)
Theorem throttle_minimum_spacing api :
  (forall s,
     OrderedDict.get api (last_request_time (self s)) = None ->
     (min_wait api <= clock B (world s))%Q ->
     exists s', _rate_limit_request B api s = Some (Returned tt, s')
                /\ slept s' = slept s /\ world s' = world s)
  /\ (forall s0 s1 w lg sl s2,
        (forall d w, (clock B w + d <= clock B (asyncio_sleep B d w))%Q) ->
        (forall w, (0 <= fst (random_random B w) <= 1)%Q
                   /\ (clock B w <= clock B (snd (random_random B w)))%Q) ->
        (length (last_request_time (self s0)) < 20)%nat
        \/ (forall k t, (k, t) ∈ last_request_time (self s0) ->
                        (t < clock B (world s1))%Q) ->
        _rate_limit_request B api s0 = Some (Returned tt, s1) ->
        (clock B (world s1) <= clock B w)%Q ->
        _rate_limit_request B api (State w (self s1) lg sl) = Some (Returned tt, s2) ->
        OrderedDict.get api (last_request_time (self s1)) = Some (clock B (world s1))
        /\ OrderedDict.get api (last_request_time (self s2)) = Some (clock B (world s2))
        /\ ((9 # 10) * min_wait api <= clock B (world s2) - clock B (world s1))%Q
        /\ (slept s2 = sl \/ exists d, slept s2 = sl ++ [d] /\ (1 # 10 <= d)%Q)).
Proof.
  split.
  - intros s Hnone Hunix.
    unfold _rate_limit_request, bind, time_time, get_self, modify_self, ret.
    cbn [world self logs slept]. rewrite Hnone. cbn [default].
    rewrite (proj2 (Qlt_bool_false _ _)) by lra.
    cbn [world self logs slept last_request_time with_last_request_time].
    match goal with
    | |- context [20 <? ?n] => destruct (20 <? n)
    end; (eexists; split; [reflexivity|split; reflexivity]).
  - intros s0 s1 w lg sl s2 Hsleep Hrand Hkept Hfirst Hlater Hsecond.
    destruct (rate_limit_call api s0 Hsleep Hrand) as (s1' & Hrun1 & H).
    cbv zeta in H. destruct H as (_ & _ & Hset1).
    rewrite Hfirst in Hrun1. injection Hrun1 as <-.
    destruct (recorded_survives api (clock B (world s1)) _ Hkept) as [Hget1 Hlen1].
    rewrite <- Hset1 in Hget1, Hlen1.
    destruct (rate_limit_call api (State w (self s1) lg sl) Hsleep Hrand)
      as (s2' & Hrun2 & H).
    cbv zeta in H. destruct H as (Hwait & Hno & Hset2).
    rewrite Hsecond in Hrun2. injection Hrun2 as <-.
    cbn [world self slept] in Hwait, Hno, Hset2. rewrite Hget1 in Hwait, Hno.
    cbn [default from_option id] in Hwait, Hno.
    split; [done|]. split.
    { rewrite Hset2, recorded_again; [apply dict_get_set_eq|by eexists|done]. }
    pose proof (min_wait_bounds api) as Hm.
    destruct (Qlt_le_dec (clock B w - clock B (world s1)) (min_wait api)) as [Hlt|Hge].
    + destruct (Hwait Hlt) as [Hclock (d & Hd & Hfloor)].
      split; [lra|]. right. by exists d.
    + destruct (Hno Hge) as [-> ->]. split; [lra|by left].
Qed.

(** *** Orders *)

Lemma keeps_run_retryable {R} handler (op : RetryableOperation.callable state R exn) name :
  (forall s, caches (self (snd (RetryableOperation.call op s))) = caches (self s)) ->
  keeps_caches (run_retryable B handler op name).
Proof.
  intros Hop s r s'. unfold run_retryable, RetryableOperation.run.
  destruct (RetryableOperation.run_loop _ _ _ _ _ _ _ _ _ _ _ _)
    as [[[r' s1] events]|] eqn:Hrun; [|done].
  intros [= <- <-].
  eapply (run_loop_frame _ _ _ _ _ (fun s => caches (self s))) in Hrun; try done.
  intros s0. unfold random_state. by destruct (random_random B (world s0)).
Qed.

Lemma add_to_sheet_keeps sheet order_data next_row s :
  caches (self (snd (RetryableOperation.call (add_to_sheet B sheet order_data next_row) s)))
  = caches (self s).
Proof.
  simpl. destruct next_row as [n|]; [destruct (negb (n =? 0))|].
  - by destruct (worksheet_insert_row B sheet order_data n (world s)).
  - by destruct (worksheet_append_row B sheet order_data (world s)).
  - by destruct (worksheet_append_row B sheet order_data (world s)).
Qed.

Lemma check_cache_orders key max_age s :
  _check_cache B key "orders" max_age s =
    let r := EnhancedCache.get (orders_cache (caches (self s))) key max_age
               (clock B (world s)) in
    Some (Returned (fst r),
          State (world s)
            (with_caches (caches_store "orders" (snd r) (caches (self s))) (self s))
            (logs s) (slept s)).
Proof.
  unfold _check_cache, bind, get_self, time_time, modify_self, ret.
  cbn [world self logs slept]. change (select_cache "orders" (caches (self s)))
    with ("orders"%string, orders_cache (caches (self s))).
  cbv zeta. destruct max_age; by destruct (EnhancedCache.get _ _ _ _).
Qed.

Lemma update_cache_orders key data ttl s :
  _update_cache B key data "orders" ttl s =
    let r := EnhancedCache.set (orders_cache (caches (self s))) key data ttl
               (clock B (world s)) in
    Some (Returned (fst r),
          State (world s)
            (with_caches (caches_store "orders" (snd r) (caches (self s))) (self s))
            (logs s) (slept s)).
Proof.
  unfold _update_cache, bind, get_self, time_time, modify_self, ret.
  cbn [world self logs slept]. change (select_cache "orders" (caches (self s)))
    with ("orders"%string, orders_cache (caches (self s))).
  done.
Qed.

Lemma caches_store_orders x c :
  caches_store "orders" x c
  = CacheTable (inventory_cache c) x (sheets_cache c) (drive_cache c).
Proof. done. Qed.

(** C8. When [add_order_to_sheet] returns [True], the orders cache is
    empty (no key is resident and the recency sequence is empty) and the
    inventory, sheets and drive caches are what they were; a
    [get_order_details] that follows, for any order id, misses the cache
    and goes on to the remote read. *)
Theorem add_order_clears_orders_cache order_data s s' :
  add_order_to_sheet B order_data s = Some (Returned true, s') ->
  EnhancedCache.cache (orders_cache (caches (self s'))) = ∅
  /\ CacheSpec.recency (orders_cache (caches (self s'))) = []
  /\ inventory_cache (caches (self s')) = inventory_cache (caches (self s))
  /\ sheets_cache (caches (self s')) = sheets_cache (caches (self s))
  /\ drive_cache (caches (self s')) = drive_cache (caches (self s))
  /\ forall order_id, exists s'',
       _check_cache B ("order_" ++ order_id) "orders" (Some 30%Q) s'
         = Some (Returned (false, None), s'')
       /\ EnhancedCache.misses (orders_cache (caches (self s'')))
          = EnhancedCache.misses (orders_cache (caches (self s'))) + 1
       /\ get_order_details B order_id s'
          = read_order_details B ("order_" ++ order_id) order_id s''.
Proof.
  unfold add_order_to_sheet. intros H.
  apply try_except_inv in H as [(a & H & [= <-])|(e & s1 & _ & H)]; cycle 1.
  { unfold log_error in H. apply bind_inv in H as [(? & ? & _ & [=])|(? & _ & [=])]. }
  apply bind_returned_inv in H as (r & s1 & Hinit & H).
  destruct (fst r) as [sheet|].
  2:{ apply bind_returned_inv in H as (? & ? & _ & [=]). }
  apply bind_returned_inv in H as ([] & s2 & Hrate & H).
  apply bind_returned_inv in H as (col & s3 & Hcol & H).
  apply bind_returned_inv in H as (next_row & s4 & Hrow & H).
  apply bind_returned_inv in H as (success & s5 & Hrun & H).
  apply bind_returned_inv in H as ([] & s6 & Hclear & [= -> <-]).
  assert (caches (self s5) = caches (self s)) as Hframe.
  { rewrite (keeps_run_retryable _ _ _ (add_to_sheet_keeps _ _ _) _ _ _ Hrun).
    assert (caches (self s4) = caches (self s3)) as ->.
    { destruct col; [by injection Hrow as <- <-|].
      unfold log_error in Hrow.
      by apply bind_returned_inv in Hrow as ([] & ? & [= <-] & [= _ <-]). }
    rewrite (keeps_attempt _ (keeps_remote _) _ _ _ Hcol).
    rewrite (keeps_rate_limit _ _ _ _ Hrate).
    apply (keeps_initialize_sheets _ _ _ Hinit). }
  apply bind_returned_inv in Hclear as (m & s7 & [= <- <-] & Hclear).
  change (caches_lookup "orders" (caches (self s5)))
    with (Some (orders_cache (caches (self s5)))) in Hclear.
  injection Hclear as <-. cbn [self caches with_caches].
  rewrite caches_store_orders, Hframe. cbn [orders_cache inventory_cache sheets_cache drive_cache].
  split; [done|]. split; [done|]. split; [done|]. split; [done|]. split; [done|].
  intros order_id. unfold get_order_details. unfold bind at 1.
  rewrite check_cache_orders. cbv zeta. cbn [self caches with_caches orders_cache].
  rewrite caches_store_orders. cbn [self caches with_caches orders_cache].
  rewrite get_absent by apply lookup_empty.
  eexists. split; [reflexivity|]. split; [reflexivity|]. reflexivity.
Qed.

(** *** Inventory *)

Lemma rate_limit_returns api s :
  exists s', _rate_limit_request B api s = Some (Returned tt, s') /\ logs s' = logs s.
Proof.
  unfold _rate_limit_request, bind, time_time, get_self, modify_self, ret, sleep, uniform.
  cbn [world self logs slept].
  destruct (Qlt_bool _ _).
  - unfold RetryableOperation.random_uniform, random_state.
    destruct (random_random B (world s)) as [r w1].
    cbn [world self logs slept sleep_state].
    match goal with |- context [20 <? ?n] => destruct (20 <? n) end;
      eexists; split; reflexivity.
  - match goal with |- context [20 <? ?n] => destruct (20 <? n) end;
      eexists; split; reflexivity.
Qed.

Lemma update_cache_inventory key data ttl s :
  _update_cache B key data "inventory" ttl s =
    let r := EnhancedCache.set (inventory_cache (caches (self s))) key data ttl
               (clock B (world s)) in
    Some (Returned (fst r),
          State (world s)
            (with_caches (caches_store "inventory" (snd r) (caches (self s))) (self s))
            (logs s) (slept s)).
Proof.
  unfold _update_cache, bind, get_self, time_time, modify_self, ret.
  cbn [world self logs slept]. change (select_cache "inventory" (caches (self s)))
    with ("inventory"%string, inventory_cache (caches (self s))).
  done.
Qed.

Lemma stocked_spec d keys :
  ManagerSpec.stocked d keys = true ->
  forall k, k ∈ keys -> exists p l, d !! k = Some (p :: l).
Proof.
  unfold ManagerSpec.stocked. rewrite forallb_forall. intros H k Hk.
  specialize (H k (proj1 (list_elem_of_In _ _) Hk)). simpl in H.
  destruct (d !! k) as [[|p l]|]; [done| |done]. by exists p, l.
Qed.

(** The default catalog is built without an exception, and every fixed
    tag and every fixed strain has a product in it. *)
Lemma default_catalog :
  exists inv : inventory,
    categorize_default B DEFAULT_INVENTORY empty_inventory = Returned inv
    /\ length (snd inv) = 6%nat
    /\ (forall tag, tag ∈ ["buds"; "local"; "carts"; "edibs"]%string ->
          exists p l, fst (fst inv) !! tag = Some (p :: l))
    /\ (forall strain, strain ∈ ["indica"; "sativa"; "hybrid"]%string ->
          exists p l, snd (fst inv) !! strain = Some (p :: l)).
Proof.
  assert (match categorize_default B DEFAULT_INVENTORY empty_inventory with
          | Returned inv =>
              ManagerSpec.stocked (fst (fst inv)) ["buds"; "local"; "carts"; "edibs"]%string
              && ManagerSpec.stocked (snd (fst inv)) ["indica"; "sativa"; "hybrid"]%string
              && (length (snd inv) =? 6)%nat
          | Raised _ => false
          end = true) as Hrun by (vm_compute; reflexivity).
  destruct (categorize_default B DEFAULT_INVENTORY empty_inventory) as [inv|e]; [|done].
  apply andb_true_iff in Hrun as [[Htags Hstrains]%andb_true_iff Hlen].
  exists inv. split; [done|]. split; [by apply Nat.eqb_eq|].
  split; by apply stocked_spec.
Qed.

(** The two fallback paths end alike: the default catalog is built, the
    degraded-mode warning is logged, the catalog is cached and returned. *)
Lemma default_inventory_path s :
  exists inv s',
    bind (_create_default_inventory B)
      (fun default_inventory =>
         _update_cache B "inventory_data" (Some (InventoryData default_inventory))
           "inventory" None) s
      = Some (Returned (Some (InventoryData inv)), s')
    /\ categorize_default B DEFAULT_INVENTORY empty_inventory = Returned inv
    /\ logs s' = logs s ++ [LogRecord "errors" WARNING UsingDefaultInventory].
Proof.
  destruct default_catalog as (inv & Hinv & _). exists inv.
  unfold bind at 1. unfold _create_default_inventory, bind, lift_outcome, log, ret.
  rewrite Hinv. rewrite update_cache_inventory. cbv zeta.
  rewrite set_eq. cbn [fst snd logs log_state].
  eexists. split; [reflexivity|]. done.
Qed.

(** C7. When the cache has no fresh catalog and the remote fetch fails
    (the sheets initialise without an inventory sheet, or reading a
    sheet raises every time), [fetch_inventory] does not raise: it returns the
    catalog built from [DEFAULT_INVENTORY], in which each of the tags
    buds, local, carts, edibs and each of the strains indica, sativa,
    hybrid has a product, and it logs the degraded-mode warning. *)
Theorem fetch_inventory_falls_back s s1 :
  _check_cache B "inventory_data" "inventory" None s = Some (Returned (false, None), s1) ->
  (exists orders_sheet s2, initialize_sheets B s1 = Some (Returned (orders_sheet, None), s2))
  \/ (forall sheet w, exists e, fst (worksheet_get_all_records B sheet w) = Raised e) ->
  exists inv s',
    fetch_inventory B s = Some (Returned (Some (InventoryData inv)), s')
    /\ categorize_default B DEFAULT_INVENTORY empty_inventory = Returned inv
    /\ (forall tag, tag ∈ ["buds"; "local"; "carts"; "edibs"]%string ->
          exists p l, fst (fst inv) !! tag = Some (p :: l))
    /\ (forall strain, strain ∈ ["indica"; "sativa"; "hybrid"]%string ->
          exists p l, snd (fst inv) !! strain = Some (p :: l))
    /\ LogRecord "errors" WARNING UsingDefaultInventory ∈ logs s'.
Proof.
  intros Hmiss Hfail.
  destruct default_catalog as (inv0 & Hinv0 & _ & Htags & Hstrains).
  assert (forall s0, exists s',
    bind (_create_default_inventory B)
      (fun default_inventory =>
         _update_cache B "inventory_data" (Some (InventoryData default_inventory))
           "inventory" None) s0
      = Some (Returned (Some (InventoryData inv0)), s')
    /\ LogRecord "errors" WARNING UsingDefaultInventory ∈ logs s') as Hdefault.
  { intros s0. destruct (default_inventory_path s0) as (inv & s' & Hrun & Hinv & Hlogs).
    rewrite Hinv0 in Hinv. injection Hinv as <-. exists s'. split; [done|].
    rewrite Hlogs. apply elem_of_app. right. by apply list_elem_of_singleton. }
  exists inv0. unfold fetch_inventory. unfold bind at 1. rewrite Hmiss.
  unfold try_except. unfold bind at 1.
  destruct (total_initialize_sheets s1) as [[r s2] Hinit].
  destruct (initialize_sheets_returns _ _ _ Hinit) as [[sh inv_sheet] ->].
  rewrite Hinit. destruct inv_sheet as [w|].
  - destruct Hfail as [(orders_sheet & s2' & Hnone)|Hraise].
    { rewrite Hnone in Hinit. by injection Hinit. }
    unfold bind at 1. destruct (rate_limit_returns "inventory" s2) as (s3 & -> & _).
    unfold bind at 1. unfold remote at 1.
    destruct (Hraise w (world s3)) as [e He].
    destruct (worksheet_get_all_records B w (world s3)) as [o w']. simpl in He. subst o.
    unfold log_error. unfold bind at 1. unfold log at 1.
    match goal with
    | |- context [bind (_create_default_inventory B) _ ?s0] =>
        destruct (Hdefault s0) as (s' & -> & Hlog)
    end.
    by exists s'.
  - destruct (Hdefault s2) as (s' & -> & Hlog). by exists s'.
Qed.

(** *** The stored ttl decides *)

(** C10. [set] stores a [ttl] field in every entry it writes: its [ttl]
    argument when truthy, the default of the cache otherwise.  [get]
    judges freshness against that field alone: on a cache reached through
    its methods the [default_ttl] argument of [get] changes nothing.  In
    particular the orders cache of the manager has a default of 60
    seconds, and an order cached by [get_order_details] is still served
    by the [max_age=30] lookup as long as at most 60 seconds have passed. *)
Theorem stored_ttl_decides :
  (forall (V : Type) (c : EnhancedCache.t V) key value ttl now,
     EnhancedCache.cache (snd (EnhancedCache.set c key value ttl now)) !! key =
       Some (EnhancedCache.Entry (Some value) (Some now)
               (Some (if truthy ttl then default 0%Q ttl
                      else EnhancedCache.default_ttl c))))
  /\ (forall (V : Type) n history (c : EnhancedCache.t V) key d1 d2 now,
        CacheSpec.reached n history c ->
        EnhancedCache.get c key d1 now = EnhancedCache.get c key d2 now)
  /\ (forall m : manager client worksheet,
        __init__ = Some m -> EnhancedCache.default_ttl (orders_cache (caches m)) = 60%Q)
  /\ (forall s order_id order r s1 w lg sl,
        EnhancedCache.default_ttl (orders_cache (caches (self s))) = 60%Q ->
        _update_cache B ("order_" ++ order_id) (Some (OrderRecord order)) "orders" None s
          = Some (r, s1) ->
        (clock B w - clock B (world s) <= 60)%Q ->
        exists s2,
          _check_cache B ("order_" ++ order_id) "orders" (Some 30%Q)
            (State w (self s1) lg sl)
          = Some (Returned (true, Some (OrderRecord order)), s2)).
Proof.
  split; [intros V; apply set_stores_ttl|].
  split; [intros V n history c key d1 d2 now; apply get_ignores_default_ttl|].
  split; [by intros m [= <-]|].
  intros s order_id order r s1 w lg sl Hdefault Hupdate Hage.
  pose (c1 := snd (EnhancedCache.set (orders_cache (caches (self s)))
                     ("order_" ++ order_id) (Some (OrderRecord order)) None
                     (clock B (world s)))).
  assert (caches (self s1) = caches_store "orders" c1 (caches (self s))) as Hs1.
  { rewrite update_cache_orders in Hupdate. cbv zeta in Hupdate.
    by injection Hupdate as _ <-. }
  rewrite check_cache_orders. cbv zeta. cbn [world self].
  rewrite Hs1, caches_store_orders. cbn [orders_cache].
  erewrite (get_fresh c1); cycle 1.
  - apply set_stores_ttl.
  - cbn [EnhancedCache.e_ttl EnhancedCache.e_timestamp default from_option id truthy].
    by rewrite Hdefault.
  - by eexists.
Qed.

(** *** Throttling: the table of recorded requests and the sleep *)

Lemma rate_limit_table api s :
  exists s',
    _rate_limit_request B api s = Some (Returned tt, s')
    /\ last_request_time (self s')
       = ManagerSpec.housekept
           (OrderedDict.set api (clock B (world s')) (last_request_time (self s)))
    /\ caches (self s') = caches (self s) /\ logs s' = logs s.
Proof.
  unfold _rate_limit_request, bind, time_time, get_self, modify_self, ret, sleep, uniform.
  unfold ManagerSpec.housekept. cbn [world self logs slept].
  destruct (Qlt_bool _ _).
  - unfold RetryableOperation.random_uniform, random_state.
    destruct (random_random B (world s)) as [r w1].
    cbn [world self logs slept sleep_state last_request_time with_last_request_time].
    match goal with |- context [20 <? ?n] => destruct (20 <? n) eqn:Hn end;
      (eexists; split; [reflexivity|];
       cbn [world self logs slept caches last_request_time with_last_request_time];
       by rewrite Hn).
  - cbn [world self logs slept last_request_time with_last_request_time].
    match goal with |- context [20 <? ?n] => destruct (20 <? n) eqn:Hn end;
      (eexists; split; [reflexivity|];
       cbn [world self logs slept caches last_request_time with_last_request_time];
       by rewrite Hn).
Qed.

Lemma housekept_small d : (length (ManagerSpec.housekept d) <= 20)%nat.
Proof.
  unfold ManagerSpec.housekept.
  destruct (Z.ltb_spec 20 (Z.of_nat (length d))); [rewrite length_take|]; lia.
Qed.

Lemma housekept_elem x d : x ∈ ManagerSpec.housekept d -> x ∈ d.
Proof.
  unfold ManagerSpec.housekept. case_match; [|done].
  intros Hx. apply sorted_desc_elem. by eapply subseteq_take.
Qed.

Lemma adjusted_wait_upper m tsl u :
  (tsl < m)%Q -> (0 <= tsl)%Q -> (- (1 # 10) <= u <= 1 # 10)%Q ->
  (adjusted_wait m tsl u <= (11 # 10) * (m + (1 # 10)))%Q.
Proof. intros Hlt Hnn Hu. unfold adjusted_wait. apply Q.max_lub; nra. Qed.

(** X12. The table of recorded requests stays small: after every call
    of [_rate_limit_request] it holds at most 20 classes, whatever it
    held before, and each record in it is the one just made or one that
    was there; the call always returns and touches neither the caches
    nor the log. *)
Theorem throttle_table_stays_small api s :
  exists s',
    _rate_limit_request B api s = Some (Returned tt, s')
    /\ (length (last_request_time (self s')) <= 20)%nat
    /\ (forall k t, (k, t) ∈ last_request_time (self s') ->
          (k, t) = (api, clock B (world s')) \/ (k, t) ∈ last_request_time (self s))
    /\ caches (self s') = caches (self s) /\ logs s' = logs s.
Proof.
  destruct (rate_limit_table api s) as (s' & Hrun & Htable & Hcaches & Hlogs).
  exists s'. split; [done|]. rewrite Htable. split; [apply housekept_small|].
  split; [|done]. intros k t Hin%housekept_elem. by apply dict_set_elem_inv in Hin.
Qed.

(** X13. One call of [_rate_limit_request] sleeps at most once.  When
    the recorded request of the class is not in the future and
    [random.random()] draws in the unit interval, the sleep lasts at
    least 0.1s and at most 110% of the minimum interval of the class plus
    the 0.1s buffer: never more than 1.76 seconds. *)
Theorem throttle_sleeps_at_most_once api s :
  (forall w, (0 <= fst (random_random B w) <= 1)%Q) ->
  (default 0%Q (OrderedDict.get api (last_request_time (self s))) <= clock B (world s))%Q ->
  exists s',
    _rate_limit_request B api s = Some (Returned tt, s')
    /\ (slept s' = slept s
        \/ exists d, slept s' = slept s ++ [d]
             /\ (1 # 10 <= d)%Q
             /\ (d <= (11 # 10) * (min_wait api + (1 # 10)))%Q
             /\ (d <= 176 # 100)%Q).
Proof.
  intros Hrand Hpast.
  unfold _rate_limit_request, bind, time_time, get_self, modify_self, ret, sleep, uniform.
  cbn [world self logs slept].
  set (now := clock B (world s)) in *.
  set (last_request := default 0%Q (OrderedDict.get api (last_request_time (self s)))) in *.
  pose proof (min_wait_bounds api) as Hm.
  destruct (Qlt_bool (now - last_request) (min_wait api)) eqn:Hcmp.
  - apply Qlt_bool_true in Hcmp.
    unfold RetryableOperation.random_uniform, random_state.
    pose proof (Hrand (world s)) as Hr.
    destruct (random_random B (world s)) as [r w1]. cbn [fst] in Hr.
    cbn [world self logs slept sleep_state last_request_time with_last_request_time].
    pose proof (adjusted_wait_bounds (min_wait api) (now - last_request) _ Hcmp
                  (uniform_tenth r Hr)) as [Hfloor _].
    assert (0 <= now - last_request)%Q as Hnn by lra.
    pose proof (adjusted_wait_upper (min_wait api) (now - last_request) _ Hcmp Hnn
                  (uniform_tenth r Hr)) as Hupper.
    match goal with |- context [20 <? ?n] => destruct (20 <? n) end;
      (eexists; split; [reflexivity|]; right; eexists; split; [reflexivity|];
       split; [done|]; split; [done|lra]).
  - cbn [world self logs slept last_request_time with_last_request_time].
    match goal with |- context [20 <? ?n] => destruct (20 <? n) end;
      (eexists; split; [reflexivity|]; by left).
Qed.

(** *** Sheets: initialisation *)

(** What [initialize_sheets] returns: no handle at all, or the handles
    it has stored, the manager being marked as initialised. *)
Lemma initialize_sheets_inv s p s' :
  initialize_sheets B s = Some (Returned p, s') ->
  p = (None, None)
  \/ (p = (_sheet (self s'), _inventory_sheet (self s'))
      /\ _sheet_initialized (self s') = true).
Proof.
  unfold initialize_sheets. intros H.
  apply bind_returned_inv in H as (m & s1 & [= <- <-] & H).
  destruct (_sheet_initialized (self s)) eqn:Hinit; cbn [andb] in H; cycle 1.
  all: try destruct (bool_decide (is_Some (_sheet (self s))) &&
                     bool_decide (is_Some (_inventory_sheet (self s)))) eqn:Hboth;
    try (injection H as <- <-; by right).
  all: apply try_except_inv in H as [(a & H & [= <-])|(e & s2 & _ & H)];
    [|unfold log_error in H; apply bind_returned_inv in H as ([] & s3 & _ & [= <- _]);
      by left].
  all: apply bind_returned_inv in H as ([] & s2 & _ & H);
    apply bind_returned_inv in H as (cl & s3 & _ & H);
    apply bind_returned_inv in H as (r & s4 & _ & H);
    (destruct r as [sp|sheet_err];
     [|unfold log_error in H; apply bind_returned_inv in H as ([] & s5 & _ & [= <- _]);
       by left]);
    apply bind_returned_inv in H as (r2 & s5 & _ & H);
    apply bind_returned_inv in H as (have_orders & s6 & _ & H);
    (destruct have_orders; [|injection H as <- _; by left]);
    apply bind_returned_inv in H as ([] & s7 & _ & H);
    apply bind_returned_inv in H as ([] & s8 & _ & H);
    apply bind_returned_inv in H as ([] & s9 & [= <-] & H);
    apply bind_returned_inv in H as (m' & s10 & [= <- <-] & [= <- <-]);
    by right.
Qed.

(** X14. [initialize_sheets] never raises: in every state it returns a
    pair of handles, each possibly [None]; it leaves the caches as they
    are; and a handle it returns is the one it has stored in the
    manager. *)
Theorem initialize_sheets_never_raises s :
  exists p s',
    initialize_sheets B s = Some (Returned p, s')
    /\ caches (self s') = caches (self s)
    /\ (forall sh, fst p = Some sh -> _sheet (self s') = Some sh)
    /\ (forall w, snd p = Some w -> _inventory_sheet (self s') = Some w).
Proof.
  destruct (total_initialize_sheets s) as [[r s'] Hrun].
  destruct (initialize_sheets_returns _ _ _ Hrun) as [p ->].
  exists p, s'. split; [done|]. split; [by eapply keeps_initialize_sheets|].
  apply initialize_sheets_inv in Hrun as [->|[-> _]]; simpl; split; by intros ?.
Qed.

(** X15. Once [initialize_sheets] has returned both handles, every later
    call returns the same two handles and changes nothing: neither the
    manager nor the world (no throttling, no request to the backend, no
    log record). *)
Theorem initialize_sheets_is_idempotent s sh w s1 :
  initialize_sheets B s = Some (Returned (Some sh, Some w), s1) ->
  forall world' lg sl,
    initialize_sheets B (State world' (self s1) lg sl)
    = Some (Returned (Some sh, Some w), State world' (self s1) lg sl).
Proof.
  intros Hrun world' lg sl.
  apply initialize_sheets_inv in Hrun as [[=]|[[= Hsh Hw] Hinit]].
  unfold initialize_sheets, bind, get_self. cbn [self].
  rewrite Hinit, <- Hsh, <- Hw. cbn [andb].
  by rewrite !bool_decide_eq_true_2 by by eexists.
Qed.

(** *** Orders: the row written *)

(** X16. The row that [add_order_to_sheet] writes always has as many
    cells as the header has columns (13): a shorter row is padded with
    empty strings, a longer one is cut, and a row of 13 cells, such as
    the rows the order manager builds, is written as it is. *)
Theorem adjust_columns_fits_header row :
  length (adjust_columns row) = length SHEET_HEADERS
  /\ adjust_columns row = take 13 (row ++ replicate 13 (CStr EmptyString))
  /\ (length row = 13%nat -> adjust_columns row = row).
Proof.
  unfold adjust_columns. change (length SHEET_HEADERS) with 13%nat.
  case_bool_decide as Heq; [|case_bool_decide as Hlt].
  - split; [done|]. split; [by rewrite take_app_length'|done].
  - split; [rewrite length_app, length_replicate; lia|]. split; [|lia].
    rewrite take_app_ge by lia. rewrite take_replicate. do 2 f_equal. lia.
  - split; [rewrite length_take; lia|]. split; [|lia].
    by rewrite take_app_le by lia.
Qed.

(** *** Inventory: the cache in front of the sheet *)

Lemma check_cache_inventory key max_age s :
  _check_cache B key "inventory" max_age s =
    let r := EnhancedCache.get (inventory_cache (caches (self s))) key max_age
               (clock B (world s)) in
    Some (Returned (fst r),
          State (world s)
            (with_caches (caches_store "inventory" (snd r) (caches (self s))) (self s))
            (logs s) (slept s)).
Proof.
  unfold _check_cache, bind, get_self, time_time, modify_self, ret.
  cbn [world self logs slept]. change (select_cache "inventory" (caches (self s)))
    with ("inventory"%string, inventory_cache (caches (self s))).
  cbv zeta. destruct max_age; by destruct (EnhancedCache.get _ _ _ _).
Qed.

Lemma caches_store_inventory x c :
  caches_store "inventory" x c
  = CacheTable x (orders_cache c) (sheets_cache c) (drive_cache c).
Proof. done. Qed.

Lemma get_default_ttl {V} (c : EnhancedCache.t V) key d now :
  EnhancedCache.default_ttl (snd (EnhancedCache.get c key d now))
  = EnhancedCache.default_ttl c.
Proof.
  unfold EnhancedCache.get. destruct (EnhancedCache.cache c !! key); [|done].
  case_match; cbv zeta; cbn [snd EnhancedCache.default_ttl EnhancedCache.with_misses];
    [|done].
  by destruct (remove_entry_frame c key) as (_ & _ & _ & -> & _).
Qed.

Lemma set_fst {V} (c : EnhancedCache.t V) key value ttl now :
  fst (EnhancedCache.set c key value ttl now) = value.
Proof. by rewrite set_eq. Qed.

Lemma store_inventory_returns inv s :
  exists s',
    FrameSpec.store_inventory B inv s = Some (Returned (Some (InventoryData inv)), s')
    /\ world s' = world s /\ logs s' = logs s /\ slept s' = slept s
    /\ caches (self s')
       = caches_store "inventory"
           (snd (EnhancedCache.set (inventory_cache (caches (self s))) "inventory_data"
                   (Some (InventoryData inv)) None (clock B (world s))))
           (caches (self s)).
Proof.
  unfold FrameSpec.store_inventory. rewrite update_cache_inventory. cbv zeta.
  rewrite set_fst. eexists. split; [reflexivity|done].
Qed.

Lemma total_read_inventory : total (FrameSpec.read_inventory B).
Proof.
  unfold FrameSpec.read_inventory, _create_default_inventory.
  repeat first [apply total_initialize_sheets | apply total_rate_limit | step_total].
Qed.

Lemma keeps_read_inventory : keeps_caches (FrameSpec.read_inventory B).
Proof.
  unfold FrameSpec.read_inventory, _create_default_inventory.
  repeat first [apply keeps_initialize_sheets | apply keeps_rate_limit | step_keeps].
Qed.

(** After a miss, [fetch_inventory] reads the catalog and stores it; when
    the read raises, it stores the default catalog. *)
Lemma fetch_inventory_miss s data s0 :
  _check_cache B "inventory_data" "inventory" None s = Some (Returned (false, data), s0) ->
  fetch_inventory B s =
    try_except
      (bind (FrameSpec.read_inventory B) (FrameSpec.store_inventory B))
      (fun e =>
         bind (log_error (ErrorFetchingInventory e)) (fun _ =>
         bind (_create_default_inventory B) (FrameSpec.store_inventory B))) s0.
Proof.
  intros Hmiss. unfold fetch_inventory. unfold bind at 1. rewrite Hmiss.
  unfold try_except.
  assert (forall (m1 m2 : M (option payload)), m1 s0 = m2 s0 ->
            forall h, match m1 s0 with Some (Raised e, s2) => h e s2 | r => r end
                      = match m2 s0 with Some (Raised e, s2) => h e s2 | r => r end) as Hcong.
  { intros m1 m2 -> h. done. }
  apply Hcong. unfold FrameSpec.read_inventory, FrameSpec.store_inventory, bind.
  destruct (initialize_sheets B s0) as [[[[o [w|]]|e] s2]|]; cbn [snd]; try done.
  destruct (_rate_limit_request B "inventory" s2) as [[[[]|e] s3]|]; try done.
  by destruct (remote (worksheet_get_all_records B w) s3) as [[[rows|e] s4]|].
Qed.

(** Whatever path a [fetch_inventory] that missed the cache takes, it
    ends with the cache store, the caches being until then what the
    lookup left. *)
Lemma fetch_inventory_stores s data s0 v s1 :
  _check_cache B "inventory_data" "inventory" None s = Some (Returned (false, data), s0) ->
  fetch_inventory B s = Some (Returned v, s1) ->
  exists x s_pre,
    FrameSpec.store_inventory B x s_pre = Some (Returned v, s1)
    /\ caches (self s_pre) = caches (self s0).
Proof.
  intros Hmiss Hrun. rewrite (fetch_inventory_miss _ _ _ Hmiss) in Hrun.
  apply try_except_inv in Hrun as [(a & Hbody & [= <-])|(e & s2 & Hbody & Hh)].
  - apply bind_returned_inv in Hbody as (x & s2 & Hread & Hstore).
    exists x, s2. split; [done|]. by eapply keeps_read_inventory.
  - assert (caches (self s2) = caches (self s0)) as Hs2.
    { apply bind_inv in Hbody as [(x & s3 & Hread & Hstore)|(e' & Hread & _)].
      - destruct (store_inventory_returns x s3) as (s4 & Hs & _). by rewrite Hs in Hstore.
      - by eapply keeps_read_inventory. }
    unfold log_error in Hh.
    apply bind_returned_inv in Hh as ([] & s3 & [= <-] & Hh).
    apply bind_returned_inv in Hh as (x & s4 & Hdefault & Hstore).
    exists x, s4. split; [done|].
    unfold _create_default_inventory in Hdefault.
    apply bind_returned_inv in Hdefault as (x' & s5 & Hlift & Hdefault).
    apply bind_returned_inv in Hdefault as ([] & s6 & [= <-] & [= _ <-]).
    unfold lift_outcome in Hlift. injection Hlift as _ <-. done.
Qed.

(** X17. [fetch_inventory] never raises: in every state it returns,
    whatever the backend does (a failure of the remote read is turned
    into the default catalog). *)
Theorem fetch_inventory_never_raises s :
  exists v s', fetch_inventory B s = Some (Returned v, s').
Proof.
  pose proof (check_cache_inventory "inventory_data" None s) as Hcheck. cbv zeta in Hcheck.
  destruct (EnhancedCache.get _ _ _ _) as [[[|] data] c1]; cbn [fst snd] in Hcheck.
  { unfold fetch_inventory. unfold bind at 1. rewrite Hcheck. by eexists _, _. }
  rewrite (fetch_inventory_miss _ _ _ Hcheck). unfold try_except, bind at 1.
  match goal with |- context [FrameSpec.read_inventory B ?s0] =>
    destruct (total_read_inventory s0) as [[[x|e] s2] ->]
  end.
  - destruct (store_inventory_returns x s2) as (s3 & -> & _). by eexists _, _.
  - unfold log_error. unfold bind at 1. unfold log at 1.
    match goal with |- context [bind (_create_default_inventory B) _ ?s0] =>
      destruct (default_inventory_path s0) as (inv & s' & Hrun & _)
    end.
    unfold FrameSpec.store_inventory. rewrite Hrun. by eexists _, _.
Qed.

(** X18. A fresh cached catalog is served without any request: when the
    inventory cache holds an entry for the catalog whose age does not
    exceed its ttl, [fetch_inventory] returns the cached data and leaves
    the world, the log, the sleeps and the throttle table as they are;
    only the hit counter of the inventory cache grows. *)
Theorem fetch_inventory_serves_fresh_cache s e :
  EnhancedCache.cache (inventory_cache (caches (self s))) !! "inventory_data"%string = Some e ->
  (clock B (world s) - default 0%Q (EnhancedCache.e_timestamp e)
   <= default (EnhancedCache.default_ttl (inventory_cache (caches (self s))))
        (EnhancedCache.e_ttl e))%Q ->
  exists s',
    fetch_inventory B s = Some (Returned (default None (EnhancedCache.e_data e)), s')
    /\ world s' = world s /\ slept s' = slept s /\ logs s' = logs s
    /\ last_request_time (self s') = last_request_time (self s)
    /\ EnhancedCache.hits (inventory_cache (caches (self s')))
       = EnhancedCache.hits (inventory_cache (caches (self s))) + 1.
Proof.
  intros He Hfresh. unfold fetch_inventory. unfold bind at 1.
  rewrite check_cache_inventory. cbv zeta.
  rewrite (get_fresh _ _ e None _ He) by done.
  cbn [fst snd]. eexists. split; [reflexivity|].
  cbn [world slept logs self last_request_time with_caches caches].
  rewrite caches_store_inventory. done.
Qed.

(** X19. What a [fetch_inventory] that missed the cache returns is a
    catalog, and it is cached for the default ttl of the inventory cache
    (300 seconds in the manager as constructed): until that much time
    has passed, a later [fetch_inventory] on the same manager returns the
    same catalog without touching the world, the log or the sleeps.
    This includes the default catalog of the degraded mode, which is
    therefore served for the whole window even if the backend has
    recovered. *)
Theorem fetched_inventory_is_cached s data s0 v s1 :
  _check_cache B "inventory_data" "inventory" None s = Some (Returned (false, data), s0) ->
  fetch_inventory B s = Some (Returned v, s1) ->
  (exists inv, v = Some (InventoryData inv))
  /\ forall w lg sl,
       (clock B w - clock B (world s1)
        <= EnhancedCache.default_ttl (inventory_cache (caches (self s))))%Q ->
       exists s2,
         fetch_inventory B (State w (self s1) lg sl) = Some (Returned v, s2)
         /\ world s2 = w /\ slept s2 = sl /\ logs s2 = lg.
Proof.
  intros Hmiss Hrun.
  destruct (fetch_inventory_stores _ _ _ _ _ Hmiss Hrun) as (x & s_pre & Hstore & Hpre).
  destruct (store_inventory_returns x s_pre) as (s1' & Hstore' & Hworld & _ & _ & Hcaches).
  rewrite Hstore in Hstore'. injection Hstore' as -> <-.
  split; [by eexists|]. intros w lg sl Hage.
  assert (EnhancedCache.default_ttl (inventory_cache (caches (self s_pre)))
          = EnhancedCache.default_ttl (inventory_cache (caches (self s)))) as Httl.
  { rewrite Hpre. rewrite check_cache_inventory in Hmiss. cbv zeta in Hmiss.
    injection Hmiss as _ <-. cbn [self caches with_caches].
    rewrite caches_store_inventory. cbn [inventory_cache]. apply get_default_ttl. }
  unfold fetch_inventory. unfold bind at 1. rewrite check_cache_inventory. cbv zeta.
  cbn [self world]. rewrite Hcaches, caches_store_inventory. cbn [inventory_cache].
  erewrite get_fresh; cycle 1.
  - apply set_stores_ttl.
  - cbn [EnhancedCache.e_ttl EnhancedCache.e_timestamp default from_option id truthy].
    rewrite Httl, <- Hworld. done.
  - cbn [fst snd]. eexists. split; [reflexivity|]. done.
Qed.

(** *** Inventory: what the catalog lists *)

Lemma make_product_stock item p :
  make_product B item = Returned p ->
  p_stock p = default (CInt 0) (item !! "Stock"%string).
Proof.
  unfold make_product, cell_lower. repeat case_match; try done; by intros [= <-].
Qed.

Lemma append_under_lookup key p d k l :
  append_under key p d !! k = Some l ->
  exists l0, d !! k = Some l0 /\ (l = l0 \/ (k = key /\ l = l0 ++ [p])).
Proof.
  unfold append_under. destruct (d !! key) as [l1|] eqn:Hkey; [|by eauto].
  destruct (decide (k = key)) as [->|Hne].
  - rewrite lookup_insert_eq. intros [= <-]. eauto.
  - rewrite lookup_insert_ne by done. eauto.
Qed.

Lemma append_under_present key p d l0 :
  d !! key = Some l0 -> append_under key p d !! key = Some (l0 ++ [p]).
Proof. intros H. unfold append_under. rewrite H. apply lookup_insert_eq. Qed.

Lemma append_under_other key p d k :
  k <> key -> append_under key p d !! k = d !! k.
Proof.
  intros H. unfold append_under. destruct (d !! key); [by rewrite lookup_insert_ne|done].
Qed.

Lemma filed_by_append f keys d all p :
  InventorySpec.filed_by f keys d all ->
  InventorySpec.filed_by f keys (append_under (f p) p d) (all ++ [p]).
Proof.
  intros (Hlists & Hkeys & Hall). split; [|split].
  - intros k l Hl. apply append_under_lookup in Hl as (l0 & Hl0 & Hcase).
    destruct (Hlists k l0 Hl0) as [Hk Hin]. split; [done|].
    intros x Hx. destruct Hcase as [->|[-> ->]].
    + destruct (Hin x Hx). split; [done|]. set_solver.
    + apply elem_of_app in Hx as [Hx| ->%list_elem_of_singleton].
      * destruct (Hin x Hx). split; [done|set_solver].
      * split; [done|set_solver].
  - intros k Hk. destruct (Hkeys k Hk) as [l0 Hl0].
    destruct (decide (k = f p)) as [->|Hne].
    + rewrite (append_under_present _ _ _ _ Hl0). by eexists.
    + rewrite append_under_other by done. by eexists.
  - intros x [Hx| ->%list_elem_of_singleton]%elem_of_app Hfx.
    + destruct (Hall x Hx Hfx) as (l0 & Hl0 & Hin).
      destruct (decide (f x = f p)) as [Heq|Hne].
      * rewrite Heq in *. rewrite (append_under_present _ _ _ _ Hl0).
        eexists. split; [done|set_solver].
      * rewrite append_under_other by done. eauto.
    + destruct (Hkeys _ Hfx) as [l0 Hl0]. rewrite (append_under_present _ _ _ _ Hl0).
      eexists. split; [done|set_solver].
Qed.

Lemma empty_filed_by f (keys : list string) :
  InventorySpec.filed_by f keys (list_to_map ((fun k => (k, [])) <$> keys)) [].
Proof.
  split; [|split].
  - intros k l Hl%elem_of_list_to_map_2.
    apply list_elem_of_fmap in Hl as (k' & [= -> ->] & Hk).
    split; [done|]. by intros p ?%elem_of_nil.
  - intros k Hk. destruct (list_to_map ((fun k => (k, [])) <$> keys) !! k) eqn:Hl; [by eexists|].
    apply not_elem_of_list_to_map_2 in Hl. exfalso. apply Hl.
    rewrite <- list_fmap_compose. apply list_elem_of_fmap. by exists k.
  - by intros p ?%elem_of_nil.
Qed.

Lemma empty_inventory_filed : InventorySpec.filed empty_inventory.
Proof.
  split.
  - apply (empty_filed_by p_tag InventorySpec.tags).
  - apply (empty_filed_by p_strain InventorySpec.strains).
Qed.

Lemma categorize_filed rows acc inv :
  categorize B rows acc = Returned inv ->
  InventorySpec.filed acc -> Forall InventorySpec.in_stock (snd acc) ->
  InventorySpec.filed inv /\ Forall InventorySpec.in_stock (snd inv)
  /\ (length (snd inv) <= length (snd acc) + length rows)%nat.
Proof.
  revert acc. induction rows as [|item rows IH]; intros acc; simpl.
  - intros [= <-] Hf Hs. split; [done|]. split; [done|lia].
  - destruct (item !! "Stock"%string) as [[text|stock]|] eqn:Hstock; [done| |].
    + destruct (Qle_bool stock 0) eqn:Hpos.
      * intros H Hf Hs. destruct (IH _ H Hf Hs) as (? & ? & ?).
        split; [done|]. split; [done|lia].
      * destruct (make_product B item) as [p|e] eqn:Hp; [|done].
        destruct acc as [[by_tag by_strain] all]. intros H [Htag Hstrain] Hs.
        cbn [fst snd] in *.
        destruct (IH _ H) as (? & ? & Hlen).
        -- split; cbn [fst snd]; by apply filed_by_append.
        -- cbn [snd]. apply Forall_app. split; [done|]. apply Forall_singleton.
           exists stock. split; [by rewrite (make_product_stock _ _ Hp), Hstock|].
           apply Qnot_le_lt. intros Hle. apply Qle_bool_iff in Hle. congruence.
        -- cbn [snd] in Hlen. rewrite length_app in Hlen. simpl in Hlen.
           split; [done|]. split; [done|lia].
    + intros H Hf Hs. destruct (IH _ H Hf Hs) as (? & ? & ?).
      split; [done|]. split; [done|lia].
Qed.

(** X20. The catalog that [fetch_inventory] builds from the rows of the
    sheet lists in-stock products only, filed under the fixed
    categories: the keys of the two dicts are exactly the four tags and
    the three strains; the list under a key holds products of
    [all_products] with that tag (strain); every product whose tag
    (strain) is one of the keys is in the list under it; every listed
    product has a numeric stock above 0; and there are at most as many
    products as rows. *)
Theorem categorize_lists_stocked_products rows by_tag by_strain all :
  categorize B rows empty_inventory = Returned (by_tag, by_strain, all) ->
  InventorySpec.filed_by p_tag InventorySpec.tags by_tag all
  /\ InventorySpec.filed_by p_strain InventorySpec.strains by_strain all
  /\ (forall p, p ∈ all -> InventorySpec.in_stock p)
  /\ (length all <= length rows)%nat.
Proof.
  intros Hrun.
  destruct (categorize_filed _ _ _ Hrun empty_inventory_filed) as ([Htag Hstrain] & Hs & Hlen).
  { constructor. }
  cbn [fst snd] in *. split; [done|]. split; [done|].
  split; [by apply Forall_forall|]. simpl in Hlen. lia.
Qed.

Lemma categorize_text_stock rows acc :
  (exists item text, item ∈ rows /\ item !! "Stock"%string = Some (CStr text)) ->
  exists e, categorize B rows acc = Raised e.
Proof.
  revert acc. induction rows as [|item rows IH]; intros acc (bad & text & Hin & Hbad).
  - by apply elem_of_nil in Hin.
  - simpl. apply elem_of_cons in Hin as [->|Hin].
    + rewrite Hbad. by eexists.
    + assert (exists item text, item ∈ rows /\ item !! "Stock"%string = Some (CStr text))
        as Hrest by eauto.
      destruct (item !! "Stock"%string) as [[t|stock]|]; [by eexists| |by apply IH].
      destruct (Qle_bool stock 0); [by apply IH|].
      destruct (make_product B item) as [p|e]; [|by eexists].
      destruct acc as [[? ?] ?]. by apply IH.
Qed.

(** The default catalog, as [_create_default_inventory] returns it. *)
Lemma create_default_inventory_returns s :
  exists inv,
    _create_default_inventory B s
    = Some (Returned inv, log_state (LogRecord "errors" WARNING UsingDefaultInventory) s)
    /\ categorize_default B DEFAULT_INVENTORY empty_inventory = Returned inv.
Proof.
  destruct default_catalog as (inv & Hinv & _). exists inv. split; [|done].
  unfold _create_default_inventory, bind, lift_outcome, log, ret. by rewrite Hinv.
Qed.

(** X21. One unreadable stock cell hides the whole sheet: when the
    rows read from the inventory sheet contain a row whose [Stock] cell
    is text (the empty string of an empty cell included), a
    [fetch_inventory] that missed the cache returns the default catalog
    instead of the rows, logs the degraded-mode warning, and does not
    raise. *)
Theorem unreadable_stock_cell_degrades s data s0 :
  _check_cache B "inventory_data" "inventory" None s = Some (Returned (false, data), s0) ->
  (forall sheet w, exists rows w',
     worksheet_get_all_records B sheet w = (Returned rows, w')
     /\ exists item text, item ∈ rows /\ item !! "Stock"%string = Some (CStr text)) ->
  exists inv s',
    fetch_inventory B s = Some (Returned (Some (InventoryData inv)), s')
    /\ categorize_default B DEFAULT_INVENTORY empty_inventory = Returned inv
    /\ LogRecord "errors" WARNING UsingDefaultInventory ∈ logs s'.
Proof.
  intros Hmiss Hbad. rewrite (fetch_inventory_miss _ _ _ Hmiss).
  assert (forall s2, exists inv s',
    bind (_create_default_inventory B) (FrameSpec.store_inventory B) s2
    = Some (Returned (Some (InventoryData inv)), s')
    /\ categorize_default B DEFAULT_INVENTORY empty_inventory = Returned inv
    /\ LogRecord "errors" WARNING UsingDefaultInventory ∈ logs s') as Hdefault.
  { intros s2. destruct (create_default_inventory_returns s2) as (inv & Hrun & Hinv).
    exists inv. unfold bind. rewrite Hrun.
    destruct (store_inventory_returns inv
                (log_state (LogRecord "errors" WARNING UsingDefaultInventory) s2))
      as (s' & -> & _ & Hlogs & _).
    exists s'. split; [done|]. split; [done|]. rewrite Hlogs. cbn [logs log_state].
    apply elem_of_app. right. by apply list_elem_of_singleton. }
  unfold try_except. unfold bind at 1. unfold FrameSpec.read_inventory. unfold bind at 1.
  destruct (total_initialize_sheets s0) as [[r s2] Hinit].
  destruct (initialize_sheets_returns _ _ _ Hinit) as [[o inv_sheet] ->].
  rewrite Hinit. cbn [snd]. destruct inv_sheet as [w|].
  - unfold bind at 1. destruct (rate_limit_returns "inventory" s2) as (s3 & -> & _).
    unfold bind at 1. unfold remote at 1.
    destruct (Hbad w (world s3)) as (rows & w' & -> & Hrow).
    unfold lift_outcome.
    destruct (categorize_text_stock rows empty_inventory Hrow) as [e ->].
    unfold log_error. unfold bind at 1. unfold log at 1.
    match goal with |- context [bind (_create_default_inventory B) _ ?s4] =>
      destruct (Hdefault s4) as (inv & s' & -> & Hinv & Hlog)
    end.
    by exists inv, s'.
  - destruct (create_default_inventory_returns s2) as (inv & -> & Hinv).
    destruct (store_inventory_returns inv
                (log_state (LogRecord "errors" WARNING UsingDefaultInventory) s2))
      as (s' & -> & _ & Hlogs & _).
    exists inv, s'. split; [done|]. split; [done|]. rewrite Hlogs. cbn [logs log_state].
    apply elem_of_app. right. by apply list_elem_of_singleton.
Qed.

(** *** Orders: failures and the cache *)

Abbreviation returns m := (@FrameSpec.returns World exn client worksheet _ m).
Abbreviation changes_caches_only_on good m :=
  (@FrameSpec.changes_caches_only_on World exn client worksheet _ good m).

Lemma returns_ret {A} (a : A) : returns (ret a).
Proof. intros s. by eexists _, _. Qed.

Lemma returns_bind {A C} (m : M A) (k : A -> M C) :
  returns m -> (forall a, returns (k a)) -> returns (bind m k).
Proof. intros Hm Hk s. unfold bind. destruct (Hm s) as (a & s1 & ->). apply Hk. Qed.

Lemma returns_try_except {A} (m : M A) (h : exn -> M A) :
  total m -> (forall e, returns (h e)) -> returns (try_except m h).
Proof.
  intros Hm Hh s. unfold try_except.
  destruct (Hm s) as [[[a|e] s1] ->]; [by eexists _, _|apply Hh].
Qed.

Lemma returns_log l lv m : returns (log l lv m).
Proof. intros s. by eexists _, _. Qed.

Lemma keeps_changes {A} (good : A -> Prop) (m : M A) :
  keeps_caches m -> changes_caches_only_on good m.
Proof. intros Hm s r s' H. right. by eapply Hm. Qed.

Lemma changes_bind {A C} (good : C -> Prop) (m : M A) (k : A -> M C) :
  keeps_caches m -> (forall a, changes_caches_only_on good (k a)) ->
  changes_caches_only_on good (bind m k).
Proof.
  intros Hm Hk s r s' [(a & s1 & H1 & H2)|(e & H1 & _)]%bind_inv.
  - destruct (Hk _ _ _ _ H2) as [?|Heq]; [by left|]. right. rewrite Heq. by eapply Hm.
  - right. by eapply Hm.
Qed.

Lemma changes_try_except {A} (good : A -> Prop) (m : M A) (h : exn -> M A) :
  changes_caches_only_on good m -> (forall e, keeps_caches (h e)) ->
  changes_caches_only_on good (try_except m h).
Proof.
  intros Hm Hh s r s' [(a & H1 & ->)|(e & s1 & H1 & H2)]%try_except_inv.
  - by eapply Hm.
  - right. rewrite (Hh _ _ _ _ H2).
    destruct (Hm _ _ _ H1) as [(a & [=] & _)|Heq]. done.
Qed.

Lemma total_update_cache key data cache_type ttl :
  total (_update_cache B key data cache_type ttl).
Proof.
  intros s. unfold _update_cache, bind, get_self, time_time, modify_self, ret.
  destruct (select_cache _ _). destruct (EnhancedCache.set _ _ _ _ _). by eexists.
Qed.

Lemma total_check_cache key cache_type max_age :
  total (_check_cache B key cache_type max_age).
Proof.
  intros s. unfold _check_cache, bind, get_self, time_time, modify_self, ret.
  destruct (select_cache _ _). destruct (EnhancedCache.get _ _ _ _). by eexists.
Qed.

Lemma total_run_retryable {R} handler (op : RetryableOperation.callable state R exn) name :
  total (run_retryable B handler op name).
Proof.
  intros s. unfold run_retryable.
  destruct (run_total (sleep_state B) (random_state B) log_state (RuntimeError B)
              (OverflowError B)
              handler op name s) as [[[o s1] events] ->].
  by eexists.
Qed.

Lemma total_add_order_body order_data :
  total (bind (initialize_sheets B) (fun r =>
    match fst r with
    | None => bind (log_error FailedToInitializeSheetForAddingOrder) (fun _ => ret false)
    | Some sheet =>
        bind (_rate_limit_request B "sheets_write") (fun _ =>
        let order_data := adjust_columns order_data in
        bind (attempt (remote (worksheet_col_values B sheet 1))) (fun r =>
        bind (match r with
              | Returned col_a => ret (Some (Z.of_nat (length col_a) + 1))
              | Raised row_err =>
                  bind (log_error (ErrorFindingNextRow row_err)) (fun _ => ret None)
              end) (fun next_row =>
        let retry_handler :=
          RetryableOperation.Retryable 3 1%Q (is_connection_error B) true in
        bind (run_retryable B retry_handler (add_to_sheet B sheet order_data next_row)
                (Some "add_order_to_sheet"%string)) (fun success =>
        bind (if success then
                bind get_self (fun self =>
                match caches_lookup "orders" (caches self) with
                | Some orders =>
                    modify_self (fun self =>
                      with_caches (caches_store "orders" (EnhancedCache.clear orders None)
                                     (caches self)) self)
                | None => ret tt
                end)
              else ret tt) (fun _ => ret success)))))
    end)).
Proof.
  unfold log_error.
  repeat first [apply total_initialize_sheets | apply total_rate_limit
               | apply total_run_retryable | step_total].
Qed.

(** The cache frame of [add_order_to_sheet]: the caches change only when
    it returns [True]. *)
Lemma add_order_changes_caches order_data :
  changes_caches_only_on (fun b => b = true) (add_order_to_sheet B order_data).
Proof.
  unfold add_order_to_sheet, log_error. apply changes_try_except; cycle 1.
  { intros e. repeat step_keeps. }
  apply changes_bind; [apply keeps_initialize_sheets|]. intros r.
  destruct (fst r) as [sheet|]; [|apply keeps_changes; repeat step_keeps].
  apply changes_bind; [apply keeps_rate_limit|]. intros _.
  apply changes_bind; [repeat step_keeps|]. intros col.
  apply changes_bind; [repeat step_keeps|]. intros next_row.
  apply changes_bind; [apply keeps_run_retryable, add_to_sheet_keeps|].
  intros [|]; [|apply keeps_changes; repeat step_keeps].
  intros s r' s' H. left. exists true. split; [|done].
  unfold bind, get_self, modify_self, ret in H.
  destruct (caches_lookup "orders" (caches (self s))); by injection H as <- _.
Qed.

(** X22. [add_order_to_sheet] never raises: in every state it returns
    [True] or [False], whatever the backend does.  When it returns
    [False] (no orders sheet, or the insert failed after its retries)
    the four caches are what they were: the orders cache is cleared by
    a successful insert only. *)
Theorem add_order_failure_keeps_caches order_data s :
  exists b s',
    add_order_to_sheet B order_data s = Some (Returned b, s')
    /\ (b = false -> caches (self s') = caches (self s)).
Proof.
  assert (returns (add_order_to_sheet B order_data)) as Hret.
  { unfold add_order_to_sheet. apply returns_try_except; [apply total_add_order_body|].
    intros e. unfold log_error. apply returns_bind; [apply returns_log|].
    intros _. apply returns_ret. }
  destruct (Hret s) as (b & s' & Hrun). exists b, s'. split; [done|].
  intros ->. destruct (add_order_changes_caches order_data _ _ _ Hrun) as [(a & [= <-] & [=])|?].
  done.
Qed.

Lemma total_read_order_details_body cache_key order_id :
  total (bind (initialize_sheets B) (fun r =>
    match fst r with
    | None => bind (log_error FailedToGetSheetForOrderDetails) (fun _ => ret None)
    | Some sheet =>
        bind (_rate_limit_request B "sheets_read") (fun _ =>
        bind (remote (worksheet_get_all_records B sheet)) (fun orders =>
        match List.find (fun order : gmap string cell =>
                           cell_is (order !! "Order ID"%string) order_id
                           && cell_is (order !! "Product"%string) "COMPLETE ORDER")
                orders with
        | Some order => _update_cache B cache_key (Some (OrderRecord order)) "orders" None
        | None => _update_cache B cache_key None "orders" (Some 30%Q)
        end))
    end)).
Proof.
  unfold log_error.
  repeat first [apply total_initialize_sheets | apply total_rate_limit
               | apply total_update_cache | step_total].
Qed.

(** X23. [get_order_details] never raises: in every state it returns
    an order record or [None], whatever the backend does. *)
Theorem get_order_details_never_raises order_id s :
  exists v s', get_order_details B order_id s = Some (Returned v, s').
Proof.
  unfold get_order_details. unfold bind at 1. rewrite check_cache_orders. cbv zeta.
  destruct (EnhancedCache.get _ _ _ _) as [[[|] data] c1]; cbn [fst snd].
  { by eexists _, _. }
  assert (returns (read_order_details B ("order_" ++ order_id) order_id)) as Hret.
  { unfold read_order_details.
    apply returns_try_except; [apply total_read_order_details_body|].
    intros e. unfold log_error. apply returns_bind; [apply returns_log|].
    intros _. apply returns_ret. }
  apply Hret.
Qed.

(** X24. An order that is not found is remembered for 30 seconds: when
    the lookup misses the cache, the orders sheet is read and holds no
    [COMPLETE ORDER] row for the id, [get_order_details] returns [None]
    and caches [None] with a ttl of 30 seconds (not the 60 seconds of a
    found order); until 30 seconds have passed a later call for the same
    id returns [None] without touching the world, even if the order has
    been written to the sheet by another process in between. *)
Theorem order_not_found_is_cached order_id s data s0 sheet inv s1 s2 orders w3 :
  _check_cache B ("order_" ++ order_id) "orders" (Some 30%Q) s
    = Some (Returned (false, data), s0) ->
  initialize_sheets B s0 = Some (Returned (Some sheet, inv), s1) ->
  _rate_limit_request B "sheets_read" s1 = Some (Returned tt, s2) ->
  worksheet_get_all_records B sheet (world s2) = (Returned orders, w3) ->
  List.find (fun order : gmap string cell =>
               cell_is (order !! "Order ID"%string) order_id
               && cell_is (order !! "Product"%string) "COMPLETE ORDER") orders = None ->
  exists s',
    get_order_details B order_id s = Some (Returned None, s')
    /\ world s' = w3
    /\ forall w lg sl,
         (clock B w - clock B w3 <= 30)%Q ->
         exists s'',
           get_order_details B order_id (State w (self s') lg sl)
           = Some (Returned None, s'')
           /\ world s'' = w /\ slept s'' = sl /\ logs s'' = lg.
Proof.
  intros Hmiss Hinit Hrate Hread Hfind.
  unfold get_order_details at 1. unfold bind at 1. rewrite Hmiss.
  unfold read_order_details, try_except. unfold bind at 1. rewrite Hinit. cbn [fst].
  unfold bind at 1. rewrite Hrate. unfold bind at 1. unfold remote at 1. rewrite Hread.
  rewrite Hfind. rewrite update_cache_orders. cbv zeta. rewrite set_fst.
  eexists. split; [reflexivity|]. split; [done|].
  intros w lg sl Hage.
  unfold get_order_details. unfold bind at 1. rewrite check_cache_orders. cbv zeta.
  cbn [world self caches with_caches]. rewrite caches_store_orders. cbn [orders_cache].
  erewrite get_fresh; cycle 1.
  - apply set_stores_ttl.
  - cbn [EnhancedCache.e_ttl EnhancedCache.e_timestamp default from_option id].
    change (truthy (Some 30%Q)) with true. cbv iota. done.
  - cbn [fst snd EnhancedCache.e_data default from_option id].
    eexists. split; [reflexivity|]. done.
Qed.

(** *** Statistics *)

Lemma select_cache_cases cache_type c :
  select_cache cache_type c = ("inventory"%string, inventory_cache c)
  \/ select_cache cache_type c = ("orders"%string, orders_cache c)
  \/ select_cache cache_type c = ("sheets"%string, sheets_cache c)
  \/ select_cache cache_type c = ("drive"%string, drive_cache c).
Proof.
  unfold select_cache, caches_lookup. repeat case_bool_decide; subst; auto.
Qed.

Lemma cache_stats_totals (m : manager client worksheet) :
  OrderStatus.t_hits (snd (OrderStatus.get_cache_stats m))
  = EnhancedCache.hits (inventory_cache (caches m))
    + EnhancedCache.hits (orders_cache (caches m))
    + EnhancedCache.hits (sheets_cache (caches m))
    + EnhancedCache.hits (drive_cache (caches m))
  /\ OrderStatus.t_misses (snd (OrderStatus.get_cache_stats m))
     = EnhancedCache.misses (inventory_cache (caches m))
       + EnhancedCache.misses (orders_cache (caches m))
       + EnhancedCache.misses (sheets_cache (caches m))
       + EnhancedCache.misses (drive_cache (caches m))
  /\ OrderStatus.t_total_requests (snd (OrderStatus.get_cache_stats m))
     = OrderStatus.t_hits (snd (OrderStatus.get_cache_stats m))
       + OrderStatus.t_misses (snd (OrderStatus.get_cache_stats m))
  /\ OrderStatus.t_cache_types (snd (OrderStatus.get_cache_stats m)) = 4.
Proof. done. Qed.

(** The totals after the cache selected by [cache_type] was replaced by
    one whose counters grew by [dh] and [dm]. *)
Lemma stored_totals cache_type (m : manager client worksheet) x dh dm :
  EnhancedCache.hits x
    = EnhancedCache.hits (snd (select_cache cache_type (caches m))) + dh ->
  EnhancedCache.misses x
    = EnhancedCache.misses (snd (select_cache cache_type (caches m))) + dm ->
  let m' := with_caches
              (caches_store (fst (select_cache cache_type (caches m))) x (caches m)) m in
  OrderStatus.t_hits (snd (OrderStatus.get_cache_stats m'))
    = OrderStatus.t_hits (snd (OrderStatus.get_cache_stats m)) + dh
  /\ OrderStatus.t_misses (snd (OrderStatus.get_cache_stats m'))
     = OrderStatus.t_misses (snd (OrderStatus.get_cache_stats m)) + dm
  /\ OrderStatus.t_total_requests (snd (OrderStatus.get_cache_stats m'))
     = OrderStatus.t_total_requests (snd (OrderStatus.get_cache_stats m)) + dh + dm.
Proof.
  intros Hh Hm m'.
  destruct (cache_stats_totals m) as (Hh0 & Hm0 & Ht & _).
  destruct (cache_stats_totals m') as (Hh1 & Hm1 & Ht' & _).
  rewrite Ht', Ht, Hh1, Hm1, Hh0, Hm0. unfold m'. cbn [caches with_caches].
  destruct (select_cache_cases cache_type (caches m)) as [H|[H|[H|H]]];
    rewrite H in *; cbn [fst snd] in *;
    match goal with
    | |- context [caches_store ?ct x ?c] =>
        change (caches_store ct x c) with
          (match ct with
           | "inventory"%string =>
               CacheTable x (orders_cache c) (sheets_cache c) (drive_cache c)
           | "orders"%string =>
               CacheTable (inventory_cache c) x (sheets_cache c) (drive_cache c)
           | "sheets"%string =>
               CacheTable (inventory_cache c) (orders_cache c) x (drive_cache c)
           | _ => CacheTable (inventory_cache c) (orders_cache c) (sheets_cache c) x
           end)
    end;
    cbn [inventory_cache orders_cache sheets_cache drive_cache]; lia.
Qed.

(** X27. Every cache lookup of the manager is counted once in the totals
    of [get_cache_stats]: a [_check_cache] call always returns, adds one
    to [total_requests], and adds it to [hits] when it returns a valid
    entry and to [misses] otherwise, whatever the cache type (an unknown
    type is counted on the inventory cache); [cache_types] is 4.  A
    [_update_cache] call always returns and changes none of the three
    counters. *)
Theorem cache_lookups_are_counted key cache_type max_age s :
  exists r s',
    _check_cache B key cache_type max_age s = Some (Returned r, s')
    /\ (let before := snd (OrderStatus.get_cache_stats (self s)) in
        let after := snd (OrderStatus.get_cache_stats (self s')) in
        OrderStatus.t_total_requests after = OrderStatus.t_total_requests before + 1
        /\ OrderStatus.t_hits after
           = OrderStatus.t_hits before + (if fst r then 1 else 0)
        /\ OrderStatus.t_misses after
           = OrderStatus.t_misses before + (if fst r then 0 else 1)
        /\ OrderStatus.t_cache_types after = 4)
    /\ forall data ttl, exists v s'',
         _update_cache B key data cache_type ttl s = Some (Returned v, s'')
         /\ (let before := snd (OrderStatus.get_cache_stats (self s)) in
             let after := snd (OrderStatus.get_cache_stats (self s'')) in
             OrderStatus.t_total_requests after = OrderStatus.t_total_requests before
             /\ OrderStatus.t_hits after = OrderStatus.t_hits before
             /\ OrderStatus.t_misses after = OrderStatus.t_misses before).
Proof.
  unfold _check_cache, _update_cache, bind, get_self, time_time, modify_self, ret.
  cbn [world self logs slept].
  destruct (select_cache cache_type (caches (self s))) as [ct c0] eqn:Hsel.
  assert (ct = fst (select_cache cache_type (caches (self s)))) as Hct by (by rewrite Hsel).
  assert (c0 = snd (select_cache cache_type (caches (self s)))) as Hc0 by (by rewrite Hsel).
  destruct (EnhancedCache.get c0 key
              match max_age with Some a => Some a | None => None end
              (clock B (world s))) as [[b data] c1] eqn:Hget.
  pose proof (get_counters c0 key
                match max_age with Some a => Some a | None => None end
                (clock B (world s))) as [Hhit Hmiss].
  rewrite Hget in Hhit, Hmiss. cbn [fst snd] in Hhit, Hmiss.
  eexists _, _. split; [reflexivity|]. cbn [self fst]. split.
  - cbv zeta. rewrite Hct. rewrite Hc0 in Hhit, Hmiss.
    split; [|split; [|split; [|done]]];
      destruct b;
      [destruct (Hhit eq_refl) as [Hh Hm]|destruct (Hmiss eq_refl) as [Hh Hm]
      |destruct (Hhit eq_refl) as [Hh Hm]|destruct (Hmiss eq_refl) as [Hh Hm]
      |destruct (Hhit eq_refl) as [Hh Hm]|destruct (Hmiss eq_refl) as [Hh Hm]];
      first [ destruct (stored_totals cache_type (self s) c1 1 0) as (H1 & H2 & H3);
              [lia|lia|]; cbv zeta in H1, H2, H3; lia
            | destruct (stored_totals cache_type (self s) c1 0 1) as (H1 & H2 & H3);
              [lia|lia|]; cbv zeta in H1, H2, H3; lia ].
  - intros data' ttl.
    destruct (EnhancedCache.set c0 key data' ttl (clock B (world s))) as [v c2] eqn:Hset.
    pose proof (set_counters c0 key data' ttl (clock B (world s))) as [Hh Hm].
    rewrite Hset in Hh, Hm. cbn [snd] in Hh, Hm.
    eexists _, _. split; [reflexivity|]. cbn [self]. cbv zeta.
    rewrite Hct. rewrite Hc0 in Hh, Hm.
    destruct (stored_totals cache_type (self s) c2 0 0) as (H1 & H2 & H3);
      [lia|lia|]. cbv zeta in H1, H2, H3. lia.
Qed.

(** *** Orders: a failed lookup *)

Lemma get_miss_absent {V} (c : EnhancedCache.t V) key d now :
  fst (fst (EnhancedCache.get c key d now)) = false ->
  EnhancedCache.cache (snd (EnhancedCache.get c key d now)) !! key = None.
Proof.
  unfold EnhancedCache.get.
  destruct (EnhancedCache.cache c !! key) as [e|] eqn:He; [|done].
  case_match; [|done]. intros _. cbv zeta. cbn [snd EnhancedCache.cache EnhancedCache.with_misses].
  rewrite remove_entry_cache. apply lookup_delete_eq.
Qed.

(** X30. A lookup that fails is not remembered: when the lookup misses
    the cache and reading the orders sheet raises, [get_order_details]
    returns [None] and stores nothing (the caches are what the cache
    lookup left, with no entry for the order), so that, unlike an order
    that was not found, the next call for the id misses the cache again
    and goes back to the sheet at once. *)
Theorem order_lookup_failure_is_not_cached order_id s data s0 :
  _check_cache B ("order_" ++ order_id) "orders" (Some 30%Q) s
    = Some (Returned (false, data), s0) ->
  (forall sheet w, exists e, fst (worksheet_get_all_records B sheet w) = Raised e) ->
  exists s',
    get_order_details B order_id s = Some (Returned None, s')
    /\ caches (self s') = caches (self s0)
    /\ EnhancedCache.cache (orders_cache (caches (self s')))
         !! ("order_" ++ order_id)%string = None
    /\ forall w lg sl, exists s'',
         _check_cache B ("order_" ++ order_id) "orders" (Some 30%Q)
           (State w (self s') lg sl)
         = Some (Returned (false, None), s'').
Proof.
  intros Hmiss Hfail.
  assert (EnhancedCache.cache (orders_cache (caches (self s0)))
            !! ("order_" ++ order_id)%string = None) as Habsent.
  { rewrite check_cache_orders in Hmiss. cbv zeta in Hmiss.
    injection Hmiss as Hr <-. cbn [self caches with_caches].
    rewrite caches_store_orders. cbn [orders_cache]. apply get_miss_absent.
    by rewrite Hr. }
  assert (exists s',
            read_order_details B ("order_" ++ order_id) order_id s0
            = Some (Returned None, s')
            /\ caches (self s') = caches (self s0)) as (s' & Hread & Hframe).
  { unfold read_order_details, try_except. unfold bind at 1.
    destruct (total_initialize_sheets s0) as [[r s1] Hinit].
    destruct (initialize_sheets_returns _ _ _ Hinit) as [[sh inv] ->].
    rewrite Hinit. cbn [fst].
    pose proof (keeps_initialize_sheets _ _ _ Hinit) as Hs1.
    destruct sh as [sheet|].
    - unfold bind at 1.
      destruct (rate_limit_table "sheets_read" s1) as (s2 & -> & _ & Hs2 & _).
      unfold bind at 1. unfold remote at 1.
      destruct (Hfail sheet (world s2)) as [e He].
      destruct (worksheet_get_all_records B sheet (world s2)) as [o w']. simpl in He.
      subst o. unfold log_error, bind, log, ret.
      eexists. split; [reflexivity|]. cbn [self log_state]. by rewrite Hs2.
    - unfold log_error, bind, log, ret.
      eexists. split; [reflexivity|]. by cbn [self log_state]. }
  exists s'. split.
  { unfold get_order_details. unfold bind at 1. by rewrite Hmiss. }
  split; [done|]. rewrite Hframe. split; [done|].
  intros w lg sl. rewrite check_cache_orders. cbv zeta. cbn [self world].
  rewrite Hframe, get_absent by done. by eexists.
Qed.

(** *** Status updates *)

Variable worksheet_update_cell :
  worksheet -> Z -> Z -> cell -> World -> outcome exn unit * World.
Variable int_of_text : string -> option Z.
Variable emit : string -> level -> note exn -> World -> World.

Abbreviation update_order_status :=
  (OrderStatus.update_order_status B worksheet_update_cell int_of_text emit).

Lemma keeps_log_note logger lvl n : keeps_caches (OrderStatus.log_note emit logger lvl n).
Proof. by intros s r s' [= <- <-]. Qed.

Lemma total_log_note logger lvl n : total (OrderStatus.log_note emit logger lvl n).
Proof. intros s. by eexists. Qed.

(** The closure [update_sheet_cells] leaves the caches alone, and what it
    returns is [True]. *)
Lemma update_cells_spec sheet row updates s :
  caches (self (snd (OrderStatus.update_cells B worksheet_update_cell sheet row updates s)))
  = caches (self s)
  /\ forall b,
       fst (OrderStatus.update_cells B worksheet_update_cell sheet row updates s)
       = Returned b -> b = true.
Proof.
  revert s. induction updates as [|[field value] updates IH]; intros s;
    cbn [OrderStatus.update_cells].
  { split; [done|]. by intros b [= <-]. }
  destruct (OrderedDict.get field SHEET_COLUMN_INDICES) as [col|]; [|apply IH].
  destruct (worksheet_update_cell sheet row col value (world s)) as [[[]|e] w].
  - destruct (IH (sleep_state B (1 # 2) (State w (self s) (logs s) (slept s))))
      as [Hc Hb].
    split; [by rewrite Hc|done].
  - split; [done|]. by intros b [=].
Qed.

Lemma update_sheet_cells_keeps sheet row updates s :
  caches (self (snd (RetryableOperation.call
                       (OrderStatus.update_sheet_cells B worksheet_update_cell
                          sheet row updates) s)))
  = caches (self s).
Proof. apply update_cells_spec. Qed.

Lemma update_cells_run_true handler sheet row updates name s b s' :
  0 <= RetryableOperation.max_retries handler ->
  run_retryable B handler
    (OrderStatus.update_sheet_cells B worksheet_update_cell sheet row updates) name s
  = Some (Returned b, s') ->
  b = true.
Proof.
  intros Hnn. unfold run_retryable, RetryableOperation.run.
  destruct (RetryableOperation.run_loop _ _ _ _ _ _ _ _ _ _ _ _)
    as [[[o s1] events]|] eqn:Hrun; [|done].
  intros [= -> <-].
  pose proof (run_loop_shape _ _ _ _ _ _ _ _ _ _ _ _ _ _ _ Hrun) as Hshape.
  destruct Hshape as (_ & _ & _ & [Hlast|([=] & _)]); [lia|].
  apply last_Some_elem_of in Hlast.
  destruct (run_loop_outcomes _ _ _ _ _ _ _ _ _ _ _ _ _ _ _ Hrun _ Hlast) as [s0 Hs0].
  symmetry in Hs0. by apply (proj2 (update_cells_spec sheet row updates s0)) in Hs0.
Qed.

Lemma clear_key_cache {V} (c : EnhancedCache.t V) key :
  key <> EmptyString ->
  EnhancedCache.cache (EnhancedCache.clear c (Some key))
  = delete key (EnhancedCache.cache c).
Proof.
  intros Hkey. unfold EnhancedCache.clear. rewrite bool_decide_eq_false_2 by done.
  case_bool_decide as Hres.
  - unfold Deque.contains. by case_bool_decide.
  - rewrite delete_id; [done|]. by apply eq_None_not_Some.
Qed.

Lemma changes_bind_with {A C} (P : A -> Prop) (good : C -> Prop) (m : M A) (k : A -> M C) :
  keeps_caches m ->
  (forall s a s', m s = Some (Returned a, s') -> P a) ->
  (forall a, P a -> changes_caches_only_on good (k a)) ->
  changes_caches_only_on good (bind m k).
Proof.
  intros Hm HP Hk s r s' [(a & s1 & H1 & H2)|(e & H1 & _)]%bind_inv.
  - destruct (Hk a (HP _ _ _ H1) _ _ _ H2) as [?|Heq]; [by left|].
    right. rewrite Heq. by eapply Hm.
  - right. by eapply Hm.
Qed.

Lemma update_order_status_returns order_id new_status tracking_link :
  returns (update_order_status order_id new_status tracking_link).
Proof.
  unfold OrderStatus.update_order_status. apply returns_try_except.
  - repeat first [apply total_initialize_sheets | apply total_rate_limit
                 | apply total_run_retryable | apply total_log_note
                 | step_total | progress cbv zeta].
  - intros e. apply returns_bind; [intros s; by eexists _, _|].
    intros _. apply returns_ret.
Qed.

Lemma update_order_status_changes order_id new_status tracking_link :
  changes_caches_only_on (fun p => fst p = true)
    (update_order_status order_id new_status tracking_link).
Proof.
  unfold OrderStatus.update_order_status. apply changes_try_except; cycle 1.
  { intros e. repeat first [apply keeps_log_note | step_keeps]. }
  apply changes_bind; [apply keeps_initialize_sheets|]. intros r.
  destruct (fst r) as [sheet|];
    [|apply keeps_changes; repeat first [apply keeps_log_note | step_keeps]].
  apply changes_bind; [apply keeps_rate_limit|]. intros _.
  apply changes_bind; [apply keeps_remote|]. intros all_orders.
  destruct (OrderStatus.find_order order_id 0 all_orders) as [[idx order]|];
    [|apply keeps_changes; repeat first [apply keeps_log_note | step_keeps]].
  cbv zeta. apply (changes_bind_with (fun success => success = true)).
  - apply keeps_run_retryable. apply update_sheet_cells_keeps.
  - intros s a s' Hrun. eapply update_cells_run_true; [|exact Hrun]. simpl. lia.
  - intros success -> s r' s' H. left.
    unfold bind, get_self, modify_self, OrderStatus.log_note, ret in H.
    destruct (caches_lookup "orders" (caches (self s))); injection H as <- _;
      by eexists.
Qed.

(** What [update_order_status] returns: a failure without a customer, or
    a success after which the key of the order has been cleared from the
    orders cache. *)
Lemma update_order_status_inv order_id new_status tracking_link s b customer_id s' :
  update_order_status order_id new_status tracking_link s
  = Some (Returned (b, customer_id), s') ->
  (b = false /\ customer_id = None)
  \/ (b = true
      /\ caches (self s')
         = caches_store "orders"
             (EnhancedCache.clear (orders_cache (caches (self s)))
                (Some ("order_" ++ order_id)%string))
             (caches (self s))).
Proof.
  unfold OrderStatus.update_order_status. intros H.
  apply try_except_inv in H as [(a & H & [= <-])|(e & s1 & _ & H)]; cycle 1.
  { apply bind_returned_inv in H as ([] & s2 & _ & [= <- <- _]). by left. }
  apply bind_returned_inv in H as (r & s1 & Hinit & H).
  destruct (fst r) as [sheet|]; cycle 1.
  { apply bind_returned_inv in H as ([] & s2 & _ & [= <- <- _]). by left. }
  apply bind_returned_inv in H as ([] & s2 & Hrate & H).
  apply bind_returned_inv in H as (all_orders & s3 & Hread & H).
  destruct (OrderStatus.find_order order_id 0 all_orders) as [[idx order]|]; cycle 1.
  { apply bind_returned_inv in H as ([] & s4 & _ & [= <- <- _]). by left. }
  cbv zeta in H.
  apply bind_returned_inv in H as (success & s4 & Hrun & H).
  apply bind_returned_inv in H as ([] & s5 & Hclear & H).
  apply bind_returned_inv in H as ([] & s6 & Hlog & [= <- <- <-]).
  assert (success = true) as ->.
  { eapply update_cells_run_true; [|exact Hrun]. simpl. lia. }
  right. split; [done|].
  assert (caches (self s4) = caches (self s)) as Hframe.
  { rewrite (keeps_run_retryable _ _ _ (update_sheet_cells_keeps _ _ _) _ _ _ Hrun).
    rewrite (keeps_remote _ _ _ _ Hread).
    rewrite (keeps_rate_limit _ _ _ _ Hrate).
    apply (keeps_initialize_sheets _ _ _ Hinit). }
  apply bind_returned_inv in Hclear as (m & s7 & [= <- <-] & Hclear).
  change (caches_lookup "orders" (caches (self s4)))
    with (Some (orders_cache (caches (self s4)))) in Hclear.
  injection Hclear as <-. injection Hlog as <-.
  cbn [self caches with_caches]. by rewrite Hframe.
Qed.

(** X28. [update_order_status] never raises: in every state it returns
    a pair [(success, customer_id)], whatever the backend does.  When
    [success] is [False] (no orders sheet, no [COMPLETE ORDER] row for
    the id, or the cell updates failed after their retries) the customer
    id is [None] and the four caches are what they were: a cached record
    of the order is not invalidated by a failed update, even when the
    status cell had been written before the failure. *)
Theorem update_order_status_failure_keeps_caches order_id new_status tracking_link s :
  exists b customer_id s',
    update_order_status order_id new_status tracking_link s
    = Some (Returned (b, customer_id), s')
    /\ (b = false -> customer_id = None /\ caches (self s') = caches (self s)).
Proof.
  destruct (update_order_status_returns order_id new_status tracking_link s)
    as ([b customer_id] & s' & Hrun).
  exists b, customer_id, s'. split; [done|]. intros ->. split.
  - by destruct (update_order_status_inv _ _ _ _ _ _ _ Hrun) as [[_ ?]|[[=] _]].
  - by destruct (update_order_status_changes _ _ _ _ _ _ Hrun)
      as [(a & [= <-] & [=])|?].
Qed.

(** X29. A successful [update_order_status] invalidates the cached
    record of that order and nothing else: the key [order_<id>] leaves
    the orders cache, every other cached order keeps its entry (unlike
    [add_order_to_sheet], which clears the whole orders cache), the
    inventory, sheets and drive caches are unchanged, and the next
    lookup of the order misses the cache. *)
Theorem update_order_status_clears_one_order order_id new_status tracking_link s
    customer_id s' :
  update_order_status order_id new_status tracking_link s
  = Some (Returned (true, customer_id), s') ->
  let key := ("order_" ++ order_id)%string in
  EnhancedCache.cache (orders_cache (caches (self s')))
  = delete key (EnhancedCache.cache (orders_cache (caches (self s))))
  /\ (forall k, k <> key ->
        EnhancedCache.cache (orders_cache (caches (self s'))) !! k
        = EnhancedCache.cache (orders_cache (caches (self s))) !! k)
  /\ inventory_cache (caches (self s')) = inventory_cache (caches (self s))
  /\ sheets_cache (caches (self s')) = sheets_cache (caches (self s))
  /\ drive_cache (caches (self s')) = drive_cache (caches (self s))
  /\ exists s'',
       _check_cache B key "orders" (Some 30%Q) s' = Some (Returned (false, None), s'').
Proof.
  intros Hrun key.
  destruct (update_order_status_inv _ _ _ _ _ _ _ Hrun) as [[[=] _]|[_ Hcaches]].
  assert (EnhancedCache.cache (orders_cache (caches (self s')))
          = delete key (EnhancedCache.cache (orders_cache (caches (self s))))) as Hmap.
  { rewrite Hcaches, caches_store_orders. cbn [orders_cache].
    by apply clear_key_cache. }
  split; [done|]. split; [intros k Hk; by rewrite Hmap, lookup_delete_ne|].
  rewrite Hcaches, caches_store_orders.
  cbn [inventory_cache sheets_cache drive_cache].
  split; [done|]. split; [done|]. split; [done|].
  rewrite check_cache_orders. cbv zeta.
  rewrite get_absent by (rewrite Hmap; apply lookup_delete_eq).
  by eexists.
Qed.

End ManagerFacts.

(** * The claims at concrete inputs *)

Import Examples.

(** C1 at [max_retries = 1025]: [always_times_out] is called 1025 times,
    not 1026, and [OverflowError] is raised in place of [TimeoutError]. *)
Lemma run_overflows_after_1025_calls_witness :
  1025 <= RetryableOperation.max_retries patient
  /\ (forall s, exists e,
        fst (RetryableOperation.call always_times_out s) = Raised e
        /\ RetryableOperation.retry_on patient e = true)
  /\ (forall s, Z.of_nat (snd (RetryableOperation.call always_times_out s))
                = Z.of_nat s + 1)
  /\ exists events,
       RetryableOperation.run sleep_nat draw_half no_log runtime_error overflow_error
         patient always_times_out None 0%nat
       = Some (Raised "OverflowError"%string, 1025%nat, events)
       /\ length (RetryableOperation.calls events) = 1025%nat
       /\ last (RetryableOperation.calls events) = Some (Raised "TimeoutError"%string)
       /\ length (RetryableOperation.sleeps events) = 1024%nat.
Proof.
  assert (forall s, exists e,
            fst (RetryableOperation.call always_times_out s) = Raised e
            /\ RetryableOperation.retry_on patient e = true) as Hfail.
  { intros s. eexists. split; reflexivity. }
  assert (forall s, Z.of_nat (snd (RetryableOperation.call always_times_out s))
                    = Z.of_nat s + 1) as Hcount.
  { intros s. simpl. lia. }
  split; [simpl; lia|]. split; [exact Hfail|]. split; [exact Hcount|].
  destruct (run_overflows_after_1025_calls sleep_nat draw_half no_log runtime_error
              overflow_error Z.of_nat patient always_times_out None 0%nat)
    as (e & s0 & s1 & events & Hrun & Hcall & _ & Hn & Hcalls & Hlast & Hsleeps).
  - simpl. lia.
  - exact Hfail.
  - exact Hcount.
  - reflexivity.
  - reflexivity.
  - reflexivity.
  - assert (s1 = 1025%nat) as -> by lia.
    simpl in Hcall. injection Hcall as <- _.
    exists events. split; [exact Hrun|]. split; [exact Hcalls|].
    split; [exact Hlast|exact Hsleeps].
Defined.

(** C2 at [max_retries = 3]: one call, no sleep. *)
Lemma run_fails_fast_witness :
  0 <= RetryableOperation.max_retries policy
  /\ RetryableOperation.call rejects_input 0%nat = (Raised "ValueError"%string, 1%nat)
  /\ RetryableOperation.retry_on policy "ValueError"%string = false
  /\ exists operation_name events,
       RetryableOperation.run sleep_nat draw_half no_log runtime_error overflow_error policy
         rejects_input None 0%nat
       = Some (Raised "ValueError"%string,
               no_log (LogRecord "errors" ERROR
                         (NonRetryableError operation_name "ValueError"%string)) 1%nat,
               events)
       /\ RetryableOperation.calls events = [Raised "ValueError"%string]
       /\ RetryableOperation.sleeps events = [].
Proof.
  split; [simpl; lia|]. split; [reflexivity|]. split; [reflexivity|].
  apply (run_fails_fast sleep_nat draw_half no_log runtime_error overflow_error policy
           rejects_input None 0%nat "ValueError"%string 1%nat).
  - simpl. lia.
  - reflexivity.
  - reflexivity.
Defined.


(** C4 at the boundary: an entry written at 0 with a ttl of 60 is served
    at 60 and is gone at 61. *)
Lemma get_ttl_boundary_witness :
  CacheSpec.reached 2 one_key_history one_key_cache
  /\ EnhancedCache.cache one_key_cache !! "k"%string
     = Some (EnhancedCache.Entry (Some (Some 7%nat)) (Some 0%Q) (Some 60%Q))
  /\ EnhancedCache.cache one_key_cache !! "other"%string = None
  /\ fst (EnhancedCache.get one_key_cache "k" (Some 30%Q) 60%Q) = (true, Some 7%nat)
  /\ fst (EnhancedCache.get one_key_cache "k" (Some 30%Q) 61%Q) = (false, None)
  /\ fst (EnhancedCache.get one_key_cache "other" None 5%Q) = (false, None).
Proof.
  assert (CacheSpec.reached 2 one_key_history one_key_cache) as Hr.
  { eexists. split; reflexivity. }
  assert (EnhancedCache.cache one_key_cache !! "k"%string
          = Some (EnhancedCache.Entry (Some (Some 7%nat)) (Some 0%Q) (Some 60%Q))) as He.
  { vm_compute. reflexivity. }
  assert (EnhancedCache.cache one_key_cache !! "other"%string = None) as Hnone.
  { vm_compute. reflexivity. }
  split; [exact Hr|]. split; [exact He|]. split; [exact Hnone|].
  destruct (@get_ttl_boundary nat) as [Hpresent Habsent].
  split; [|split].
  - destruct (Hpresent 2 one_key_history one_key_cache "k"%string (Some 7%nat)
                0%Q 60%Q 60%Q (Some 30%Q) Hr He) as (Hfresh & _).
    apply Hfresh. vm_compute. discriminate.
  - destruct (Hpresent 2 one_key_history one_key_cache "k"%string (Some 7%nat)
                0%Q 60%Q 61%Q (Some 30%Q) Hr He) as (_ & Hstale).
    apply Hstale. vm_compute. reflexivity.
  - apply (Habsent one_key_cache "other"%string None 5%Q Hnone).
Defined.

(** C5 on the full cache of two entries after [set(A)], [set(B)],
    [get(A)]: [B] is the least recently used key and [set(C)] evicts it. *)
Lemma set_evicts_least_recently_used_witness :
  CacheSpec.reached 2 full_history full_cache
  /\ Z.of_nat (size (EnhancedCache.cache full_cache)) = EnhancedCache.max_items full_cache
  /\ ~ CacheSpec.resident full_cache "C"
  /\ CacheSpec.least_recently_used full_history full_cache "B"
  /\ ~ CacheSpec.resident (snd (EnhancedCache.set full_cache "C" (Some 3%nat) None 3%Q)) "B"
  /\ CacheSpec.resident (snd (EnhancedCache.set full_cache "C" (Some 3%nat) None 3%Q)) "A"
  /\ CacheSpec.resident (snd (EnhancedCache.set full_cache "C" (Some 3%nat) None 3%Q)) "C".
Proof.
  assert (CacheSpec.reached 2 full_history full_cache) as Hr.
  { eexists. split; reflexivity. }
  assert (Z.of_nat (size (EnhancedCache.cache full_cache))
          = EnhancedCache.max_items full_cache) as Hfull by (vm_compute; reflexivity).
  assert (~ CacheSpec.resident full_cache "C") as Hnew.
  { unfold CacheSpec.resident. vm_compute. intros [e He]. discriminate He. }
  assert (CacheSpec.resident full_cache "A") as HA.
  { unfold CacheSpec.resident. vm_compute. eexists. reflexivity. }
  assert (CacheSpec.least_recently_used full_history full_cache "B") as Hlru.
  { split.
    - unfold CacheSpec.resident. vm_compute. eexists. reflexivity.
    - intros key' Hres Hne.
      destruct (reached_bounded_lockstep 2 full_history full_cache) as (_ & _ & Hlock);
        [lia|exact Hr|].
      apply Hlock in Hres.
      change (CacheSpec.recency full_cache) with ["B"; "A"]%string in Hres.
      apply elem_of_cons in Hres as [->|Hres]; [done|].
      apply list_elem_of_singleton in Hres as ->.
      exists 1%nat, 2%nat. split; [reflexivity|]. split; [reflexivity|lia]. }
  split; [exact Hr|]. split; [exact Hfull|]. split; [exact Hnew|]. split; [exact Hlru|].
  destruct (@set_evicts_least_recently_used nat) as [Hgeneral _].
  destruct (Hgeneral 2 full_history full_cache "C"%string (Some 3%nat) None 3%Q Hr Hfull Hnew)
    as (HC & Hevict & _).
  destruct (Hevict "B"%string Hlru) as [HB Hkept].
  split; [exact HB|]. split; [|exact HC].
  unfold CacheSpec.resident. rewrite (Hkept "A"%string HA); [exact HA|discriminate].
Defined.

(** C7 with a spreadsheet that cannot be read. *)
Lemma fetch_inventory_falls_back_witness :
  GoogleAPIsManager._check_cache offline "inventory_data" "inventory" None boot
    = Some (Returned (false, None),
            after (GoogleAPIsManager._check_cache offline "inventory_data" "inventory" None)
              boot)
  /\ (forall sheet w, exists e,
        fst (GoogleAPIsManager.worksheet_get_all_records offline sheet w) = Raised e)
  /\ exists inv s',
       GoogleAPIsManager.fetch_inventory offline boot
         = Some (Returned (Some (GoogleAPIsManager.InventoryData inv)), s')
       /\ GoogleAPIsManager.categorize_default offline DEFAULT_INVENTORY
            GoogleAPIsManager.empty_inventory = Returned inv
       /\ (forall tag, tag ∈ ["buds"; "local"; "carts"; "edibs"]%string ->
             exists p l, fst (fst inv) !! tag = Some (p :: l))
       /\ (forall strain, strain ∈ ["indica"; "sativa"; "hybrid"]%string ->
             exists p l, snd (fst inv) !! strain = Some (p :: l))
       /\ LogRecord "errors" WARNING UsingDefaultInventory ∈ GoogleAPIsManager.logs s'.
Proof.
  split; [vm_compute; reflexivity|].
  split; [intros sheet w; eexists; reflexivity|].
  apply (fetch_inventory_falls_back offline boot
           (after (GoogleAPIsManager._check_cache offline "inventory_data" "inventory" None)
              boot)).
  - vm_compute. reflexivity.
  - right. intros sheet w. eexists. reflexivity.
Defined.

(** C8 with the order [WW-1] cached before the insert. *)
Lemma add_order_clears_orders_cache_witness :
  GoogleAPIsManager.add_order_to_sheet online [CStr "WW-1"] with_order
    = Some (Returned true,
            after (GoogleAPIsManager.add_order_to_sheet online [CStr "WW-1"]) with_order)
  /\ is_Some (EnhancedCache.cache
                (GoogleAPIsManager.orders_cache
                   (GoogleAPIsManager.caches (GoogleAPIsManager.self with_order)))
              !! "order_WW-1"%string)
  /\ EnhancedCache.cache
       (GoogleAPIsManager.orders_cache
          (GoogleAPIsManager.caches
             (GoogleAPIsManager.self
                (after (GoogleAPIsManager.add_order_to_sheet online [CStr "WW-1"])
                   with_order)))) = ∅.
Proof.
  assert (GoogleAPIsManager.add_order_to_sheet online [CStr "WW-1"] with_order
          = Some (Returned true,
                  after (GoogleAPIsManager.add_order_to_sheet online [CStr "WW-1"])
                    with_order)) as Hrun by (vm_compute; reflexivity).
  split; [exact Hrun|]. split; [vm_compute; eexists; reflexivity|].
  apply (add_order_clears_orders_cache online [CStr "WW-1"] with_order _ Hrun).
Defined.

(** C9 for two successive writes 0.2s apart: the second one sleeps and
    records a timestamp at least [0.9 * 1.2] seconds after the first. *)
Lemma throttle_minimum_spacing_witness :
  (forall d w, (GoogleAPIsManager.clock online w + d
                <= GoogleAPIsManager.clock online (GoogleAPIsManager.asyncio_sleep online d w))%Q)
  /\ (forall w, (0 <= fst (GoogleAPIsManager.random_random online w) <= 1)%Q
                /\ (GoogleAPIsManager.clock online w
                    <= GoogleAPIsManager.clock online
                         (snd (GoogleAPIsManager.random_random online w)))%Q)
  /\ OrderedDict.get "sheets_write"
       (GoogleAPIsManager.last_request_time (GoogleAPIsManager.self boot)) = None
  /\ GoogleAPIsManager._rate_limit_request online "sheets_write" boot
     = Some (Returned tt, first_write)
  /\ GoogleAPIsManager._rate_limit_request online "sheets_write" second_write_start
     = Some (Returned tt, second_write)
  /\ GoogleAPIsManager.slept first_write = []
  /\ ((9 # 10) * (12 # 10)
      <= GoogleAPIsManager.clock online (GoogleAPIsManager.world second_write)
         - GoogleAPIsManager.clock online (GoogleAPIsManager.world first_write))%Q.
Proof.
  assert (forall d w, (GoogleAPIsManager.clock online w + d
            <= GoogleAPIsManager.clock online
                 (GoogleAPIsManager.asyncio_sleep online d w))%Q) as Hsleep.
  { intros d w. simpl. apply Qle_refl. }
  assert (forall w, (0 <= fst (GoogleAPIsManager.random_random online w) <= 1)%Q
            /\ (GoogleAPIsManager.clock online w
                <= GoogleAPIsManager.clock online
                     (snd (GoogleAPIsManager.random_random online w)))%Q) as Hrand.
  { intros w. simpl. split; [split; discriminate|apply Qle_refl]. }
  assert (GoogleAPIsManager._rate_limit_request online "sheets_write" boot
          = Some (Returned tt, first_write)) as Hfirst by (vm_compute; reflexivity).
  assert (GoogleAPIsManager._rate_limit_request online "sheets_write" second_write_start
          = Some (Returned tt, second_write)) as Hsecond by (vm_compute; reflexivity).
  split; [exact Hsleep|]. split; [exact Hrand|]. split; [reflexivity|].
  split; [exact Hfirst|]. split; [exact Hsecond|].
  destruct (throttle_minimum_spacing online "sheets_write") as [Hone Htwo].
  split.
  - destruct (Hone boot) as (s' & Hrun & Hslept & _).
    + reflexivity.
    + vm_compute. discriminate.
    + rewrite Hfirst in Hrun. injection Hrun as <-. exact Hslept.
  - destruct (Htwo boot first_write
                (GoogleAPIsManager.clock online (GoogleAPIsManager.world first_write)
                 + (2 # 10))%Q
                [] [] second_write)
      as (_ & _ & Hspacing & _).
    + exact Hsleep.
    + exact Hrand.
    + left. simpl. lia.
    + exact Hfirst.
    + vm_compute. discriminate.
    + exact Hsecond.
    + exact Hspacing.
Defined.

(** C10 on a cache holding one key, and on the order [WW-1] looked up
    45 seconds after it was cached. *)
Lemma stored_ttl_decides_witness :
  CacheSpec.reached 2 one_key_history one_key_cache
  /\ EnhancedCache.get one_key_cache "k" (Some 30%Q) 45%Q
     = EnhancedCache.get one_key_cache "k" None 45%Q
  /\ EnhancedCache.default_ttl
       (GoogleAPIsManager.orders_cache
          (GoogleAPIsManager.caches (GoogleAPIsManager.self boot))) = 60%Q
  /\ GoogleAPIsManager._update_cache online "order_WW-1"
       (Some (GoogleAPIsManager.OrderRecord an_order)) "orders" None boot
     = Some (Returned (Some (GoogleAPIsManager.OrderRecord an_order)), with_order)
  /\ exists s2,
       GoogleAPIsManager._check_cache online "order_WW-1" "orders" (Some 30%Q)
         (GoogleAPIsManager.State
            (GoogleAPIsManager.world boot + 45)%Q (GoogleAPIsManager.self with_order) [] [])
       = Some (Returned (true, Some (GoogleAPIsManager.OrderRecord an_order)), s2).
Proof.
  assert (CacheSpec.reached 2 one_key_history one_key_cache) as Hr.
  { eexists. split; reflexivity. }
  assert (GoogleAPIsManager._update_cache online "order_WW-1"
            (Some (GoogleAPIsManager.OrderRecord an_order)) "orders" None boot
          = Some (Returned (Some (GoogleAPIsManager.OrderRecord an_order)), with_order))
    as Hupdate by (vm_compute; reflexivity).
  destruct (stored_ttl_decides online) as (_ & Hignore & _ & Horder).
  split; [exact Hr|].
  split; [exact (Hignore nat 2 one_key_history one_key_cache "k"%string
                   (Some 30%Q) None 45%Q Hr)|].
  split; [reflexivity|]. split; [exact Hupdate|].
  apply (Horder boot "WW-1"%string an_order
           (Returned (Some (GoogleAPIsManager.OrderRecord an_order))) with_order
           (GoogleAPIsManager.world boot + 45)%Q [] []).
  - reflexivity.
  - exact Hupdate.
  - vm_compute. discriminate.
Defined.

(** * The further properties at concrete inputs *)

Import Scenarios.

(** X1 on the full cache of two entries. *)
Lemma positive_bound_invariant_witness :
  1 <= 2
  /\ CacheSpec.reached 2 full_history full_cache
  /\ CacheSpec.bounded_lockstep full_cache
  /\ EnhancedCache.max_items full_cache = 2
  /\ length (CacheSpec.recency full_cache) = size (EnhancedCache.cache full_cache).
Proof.
  assert (CacheSpec.reached 2 full_history full_cache) as Hr.
  { eexists. split; reflexivity. }
  split; [lia|]. split; [exact Hr|].
  apply (@positive_bound_invariant nat 2 full_history full_cache); [lia|exact Hr].
Defined.

(** X2 on the same cache: one lookup, one hit. *)
Lemma stats_count_lookups_witness :
  CacheSpec.reached 2 full_history full_cache
  /\ StatsSpec.lookups full_history = 1%nat
  /\ EnhancedCache.st_total_requests (EnhancedCache.get_stats full_cache) = 1
  /\ (0 <= EnhancedCache.st_hit_ratio (EnhancedCache.get_stats full_cache) <= 1)%Q.
Proof.
  assert (CacheSpec.reached 2 full_history full_cache) as Hr.
  { eexists. split; reflexivity. }
  split; [exact Hr|]. split; [reflexivity|].
  destruct (@stats_count_lookups nat 2 full_history full_cache Hr)
    as (_ & _ & Htotal & _ & Hratio & _).
  split; [exact Htotal|exact Hratio].
Defined.

(** X3 on the same cache: [clear('A')] leaves [B]. *)
Lemma clear_removes_one_key_or_all_witness :
  "A"%string <> EmptyString
  /\ CacheSpec.reached 2 full_history full_cache
  /\ EnhancedCache.cache (EnhancedCache.clear full_cache (Some "A"%string))
     = delete "A"%string (EnhancedCache.cache full_cache)
  /\ CacheSpec.recency (EnhancedCache.clear full_cache (Some "A"%string))
     = Deque.remove_first "A" (CacheSpec.recency full_cache).
Proof.
  assert (CacheSpec.reached 2 full_history full_cache) as Hr.
  { eexists. split; reflexivity. }
  split; [discriminate|]. split; [exact Hr|].
  destruct (@clear_removes_one_key_or_all nat full_cache) as (Hkey & _).
  destruct (Hkey "A"%string) as [Hmap Hrec]; [discriminate|].
  split; [exact Hmap|exact (Hrec 2 full_history Hr)].
Defined.

(** X4: written at 5 with a ttl of 10, read at 15. *)
Lemma set_then_get_witness :
  (15 - 5 <= py_or (Some 10%Q) (EnhancedCache.default_ttl full_cache))%Q
  /\ fst (EnhancedCache.get
            (snd (EnhancedCache.set full_cache "k" (Some 9%nat) (Some 10%Q) 5%Q))
            "k" None 15%Q) = (true, Some 9%nat).
Proof.
  assert (15 - 5 <= py_or (Some 10%Q) (EnhancedCache.default_ttl full_cache))%Q as Hage.
  { vm_compute. discriminate. }
  split; [exact Hage|].
  pose proof (@set_then_get nat full_cache "k"%string (Some 9%nat) (Some 10%Q)
                5%Q 15%Q None) as H.
  cbv zeta in H. destruct H as (_ & Hhit & _). exact (Hhit Hage).
Defined.

(** X5: overwriting the resident key [A] of the full cache. *)
Lemma set_evicts_at_most_one_witness :
  CacheSpec.resident full_cache "A"
  /\ EnhancedCache.cache (snd (EnhancedCache.set full_cache "A" (Some 5%nat) None 3%Q))
       !! "B"%string
     = EnhancedCache.cache full_cache !! "B"%string.
Proof.
  assert (CacheSpec.resident full_cache "A") as HA.
  { unfold CacheSpec.resident. vm_compute. eexists. reflexivity. }
  split; [exact HA|].
  pose proof (@set_evicts_at_most_one nat full_cache "A"%string (Some 5%nat) None 3%Q) as H.
  cbv zeta in H. destruct H as (_ & Hroom).
  destruct (Hroom (or_introl HA)) as [_ Hothers]. apply Hothers. discriminate.
Defined.

(** X6: after [set(C)] on the full cache, [C] is the most recent key. *)
Lemma used_key_becomes_most_recent_witness :
  1 <= 2
  /\ CacheSpec.reached 2 full_history full_cache
  /\ last (CacheSpec.recency
             (snd (EnhancedCache.set full_cache "C" (Some 3%nat) None 3%Q)))
     = Some "C"%string.
Proof.
  assert (CacheSpec.reached 2 full_history full_cache) as Hr.
  { eexists. split; reflexivity. }
  split; [lia|]. split; [exact Hr|].
  destruct (@used_key_becomes_most_recent nat 2 full_history full_cache "C"%string)
    as [Hset _]; [lia|exact Hr|].
  pose proof (Hset (Some 3%nat) None 3%Q) as H. cbv zeta in H. exact (proj1 H).
Defined.

(** X8 on the exhausted run of [always_times_out]. *)
Lemma run_result_is_last_call_witness :
  0 <= RetryableOperation.max_retries policy
  /\ RetryableOperation.run sleep_nat draw_half no_log runtime_error overflow_error policy
       always_times_out None 0%nat
     = Some (fst (fst exhausted), snd (fst exhausted), snd exhausted)
  /\ RetryableOperation.max_retries policy <= 1024
  /\ last (RetryableOperation.calls (snd exhausted)) = Some (fst (fst exhausted)).
Proof.
  assert (RetryableOperation.run sleep_nat draw_half no_log runtime_error overflow_error
            policy always_times_out None 0%nat
          = Some (fst (fst exhausted), snd (fst exhausted), snd exhausted)) as Hrun.
  { vm_compute. reflexivity. }
  assert (0 <= RetryableOperation.max_retries policy) as Hnn by (simpl; lia).
  assert (RetryableOperation.max_retries policy <= 1024) as Hsmall by (simpl; lia).
  split; [exact Hnn|]. split; [exact Hrun|]. split; [exact Hsmall|].
  exact (proj2 (proj2 (run_result_is_last_call sleep_nat draw_half no_log runtime_error
                         overflow_error policy always_times_out None 0%nat _ _ _ Hnn Hrun))
           Hsmall).
Defined.

(** X9 on [flaky]: two timeouts, then the result, after three calls and
    two sleeps. *)
Lemma run_recovers_witness :
  Z.of_nat (flaky_left 0) <= RetryableOperation.max_retries policy
  /\ Z.of_nat (flaky_left 0) <= 1024
  /\ exists v s' events,
       RetryableOperation.run sleep_nat draw_half no_log runtime_error overflow_error policy
         flaky None 0%nat = Some (Returned v, s', events)
       /\ length (RetryableOperation.calls events) = 3%nat
       /\ last (RetryableOperation.calls events) = Some (Returned v)
       /\ length (RetryableOperation.sleeps events) = 2%nat.
Proof.
  split; [vm_compute; discriminate|]. split; [vm_compute; discriminate|].
  apply (run_recovers sleep_nat draw_half no_log runtime_error overflow_error flaky_left
           policy flaky None 0%nat).
  - intros s Hs. unfold flaky_left in Hs. simpl.
    destruct (Nat.ltb_spec s 2); [lia|]. eexists. reflexivity.
  - intros s n Hs. unfold flaky_left in Hs. simpl.
    destruct (Nat.ltb_spec s 2); [|lia].
    eexists. split; [reflexivity|]. split; [reflexivity|].
    simpl. unfold flaky_left. lia.
  - reflexivity.
  - reflexivity.
  - reflexivity.
  - vm_compute. discriminate.
  - vm_compute. discriminate.
Defined.

(** X10 with [max_retries = -1]. *)
Lemma negative_retry_count_never_calls_witness :
  RetryableOperation.max_retries no_attempts < 0
  /\ exists operation_name,
       RetryableOperation.run sleep_nat draw_half no_log runtime_error overflow_error
         no_attempts always_times_out None 0%nat
       = Some (Raised (runtime_error (FailedForUnknownReasons operation_name)), 0%nat, []).
Proof.
  split; [simpl; lia|].
  destruct (negative_retry_count_never_calls sleep_nat draw_half no_log runtime_error
              overflow_error no_attempts always_times_out None 0%nat) as (name & Hrun & _).
  - simpl. lia.
  - exists name. exact Hrun.
Defined.

(** X11 on the exhausted run: three sleeps, none above 90 seconds. *)
Lemma retry_delays_are_capped_witness :
  RetryableOperation.run sleep_nat draw_half no_log runtime_error overflow_error policy
    always_times_out None 0%nat
    = Some (fst (fst exhausted), snd (fst exhausted), snd exhausted)
  /\ (forall s, (0 <= fst (draw_half s) <= 1)%Q)
  /\ (0 <= RetryableOperation.base_delay policy)%Q
  /\ Z.of_nat (length (RetryableOperation.sleeps (snd exhausted)))
     <= Z.max 0 (RetryableOperation.max_retries policy)
  /\ (RetrySpec.total_delay (RetryableOperation.sleeps (snd exhausted))
      <= 90 * inject_Z (Z.max 0 (RetryableOperation.max_retries policy)))%Q.
Proof.
  assert (RetryableOperation.run sleep_nat draw_half no_log runtime_error overflow_error
            policy always_times_out None 0%nat
          = Some (fst (fst exhausted), snd (fst exhausted), snd exhausted)) as Hrun.
  { vm_compute. reflexivity. }
  assert (forall s, (0 <= fst (draw_half s) <= 1)%Q) as Hdraw.
  { intros s. simpl. split; discriminate. }
  assert (0 <= RetryableOperation.base_delay policy)%Q as Hbase by (simpl; discriminate).
  split; [exact Hrun|]. split; [exact Hdraw|]. split; [exact Hbase|].
  exact (proj2 (retry_delays_are_capped sleep_nat draw_half no_log runtime_error
                  overflow_error policy always_times_out None 0%nat _ _ _ Hrun Hdraw
                  Hbase)).
Defined.

(** X13 for the first write after start. *)
Lemma throttle_sleeps_at_most_once_witness :
  (forall w, (0 <= fst (GoogleAPIsManager.random_random online w) <= 1)%Q)
  /\ (default 0%Q
        (OrderedDict.get "sheets_write"
           (GoogleAPIsManager.last_request_time (GoogleAPIsManager.self boot)))
      <= GoogleAPIsManager.clock online (GoogleAPIsManager.world boot))%Q
  /\ exists s',
       GoogleAPIsManager._rate_limit_request online "sheets_write" boot
       = Some (Returned tt, s')
       /\ (GoogleAPIsManager.slept s' = GoogleAPIsManager.slept boot
           \/ exists d,
                GoogleAPIsManager.slept s' = GoogleAPIsManager.slept boot ++ [d]
                /\ (1 # 10 <= d)%Q
                /\ (d <= (11 # 10) * (GoogleAPIsManager.min_wait "sheets_write" + (1 # 10)))%Q
                /\ (d <= 176 # 100)%Q).
Proof.
  assert (forall w, (0 <= fst (GoogleAPIsManager.random_random online w) <= 1)%Q) as Hrand.
  { intros w. simpl. split; discriminate. }
  assert (default 0%Q
            (OrderedDict.get "sheets_write"
               (GoogleAPIsManager.last_request_time (GoogleAPIsManager.self boot)))
          <= GoogleAPIsManager.clock online (GoogleAPIsManager.world boot))%Q as Hpast.
  { vm_compute. discriminate. }
  split; [exact Hrand|]. split; [exact Hpast|].
  exact (throttle_sleeps_at_most_once online "sheets_write" boot Hrand Hpast).
Defined.

(** X15 right after start: the second call changes nothing. *)
Lemma initialize_sheets_is_idempotent_witness :
  GoogleAPIsManager.initialize_sheets online boot
    = Some (Returned (Some "Orders"%string, Some "Inventory"%string), sheets_ready)
  /\ GoogleAPIsManager.initialize_sheets online
       (GoogleAPIsManager.State 0%Q (GoogleAPIsManager.self sheets_ready) [] [])
     = Some (Returned (Some "Orders"%string, Some "Inventory"%string),
             GoogleAPIsManager.State 0%Q (GoogleAPIsManager.self sheets_ready) [] []).
Proof.
  assert (GoogleAPIsManager.initialize_sheets online boot
          = Some (Returned (Some "Orders"%string, Some "Inventory"%string), sheets_ready))
    as Hrun by (vm_compute; reflexivity).
  split; [exact Hrun|].
  exact (initialize_sheets_is_idempotent online boot "Orders"%string "Inventory"%string
           sheets_ready Hrun 0%Q [] []).
Defined.

(** X16 on a row of one cell. *)
Lemma adjust_columns_fits_header_witness :
  length (GoogleAPIsManager.adjust_columns [CStr "WW-1"]) = 13%nat.
Proof.
  exact (proj1 (adjust_columns_fits_header [CStr "WW-1"])).
Defined.

(** X18 sixty seconds after the default catalog was cached. *)
Lemma fetch_inventory_serves_fresh_cache_witness :
  EnhancedCache.cache
    (GoogleAPIsManager.inventory_cache
       (GoogleAPIsManager.caches (GoogleAPIsManager.self degraded)))
    !! "inventory_data"%string = Some cached_catalog
  /\ exists s',
       GoogleAPIsManager.fetch_inventory online
         (GoogleAPIsManager.State (GoogleAPIsManager.world degraded + 60)%Q
            (GoogleAPIsManager.self degraded) [] [])
       = Some (Returned (default None (EnhancedCache.e_data cached_catalog)), s')
       /\ GoogleAPIsManager.world s' = (GoogleAPIsManager.world degraded + 60)%Q.
Proof.
  assert (EnhancedCache.cache
            (GoogleAPIsManager.inventory_cache
               (GoogleAPIsManager.caches (GoogleAPIsManager.self degraded)))
            !! "inventory_data"%string = Some cached_catalog) as He.
  { vm_compute. reflexivity. }
  split; [exact He|].
  destruct (fetch_inventory_serves_fresh_cache online
              (GoogleAPIsManager.State (GoogleAPIsManager.world degraded + 60)%Q
                 (GoogleAPIsManager.self degraded) [] [])
              cached_catalog He) as (s' & Hrun & Hworld & _).
  - vm_compute. discriminate.
  - exists s'. split; [exact Hrun|exact Hworld].
Defined.

(** X19: the default catalog is still served 300 seconds later, by a
    backend that is online again. *)
Lemma fetched_inventory_is_cached_witness :
  GoogleAPIsManager._check_cache offline "inventory_data" "inventory" None boot
    = Some (Returned (false, None),
            after (GoogleAPIsManager._check_cache offline "inventory_data" "inventory" None)
              boot)
  /\ GoogleAPIsManager.fetch_inventory offline boot
     = Some (Returned degraded_catalog, degraded)
  /\ exists s2,
       GoogleAPIsManager.fetch_inventory offline
         (GoogleAPIsManager.State (GoogleAPIsManager.world degraded + 300)%Q
            (GoogleAPIsManager.self degraded) [] [])
       = Some (Returned degraded_catalog, s2)
       /\ GoogleAPIsManager.world s2 = (GoogleAPIsManager.world degraded + 300)%Q.
Proof.
  assert (GoogleAPIsManager._check_cache offline "inventory_data" "inventory" None boot
          = Some (Returned (false, None),
                  after (GoogleAPIsManager._check_cache offline "inventory_data"
                           "inventory" None) boot)) as Hmiss.
  { vm_compute. reflexivity. }
  assert (GoogleAPIsManager.fetch_inventory offline boot
          = Some (Returned degraded_catalog, degraded)) as Hrun.
  { vm_compute. reflexivity. }
  split; [exact Hmiss|]. split; [exact Hrun|].
  destruct (fetched_inventory_is_cached offline boot None _ degraded_catalog degraded
              Hmiss Hrun) as [_ Hlater].
  destruct (Hlater (GoogleAPIsManager.world degraded + 300)%Q [] []) as (s2 & H2 & Hw & _).
  - vm_compute. discriminate.
  - exists s2. split; [exact H2|exact Hw].
Defined.

(** X20 on two rows: the sold-out one is not listed. *)
Lemma categorize_lists_stocked_products_witness :
  GoogleAPIsManager.categorize online sheet_rows GoogleAPIsManager.empty_inventory
    = Returned (fst (fst listed), snd (fst listed), snd listed)
  /\ (forall p, p ∈ snd listed -> InventorySpec.in_stock p)
  /\ (length (snd listed) <= length sheet_rows)%nat.
Proof.
  assert (GoogleAPIsManager.categorize online sheet_rows GoogleAPIsManager.empty_inventory
          = Returned (fst (fst listed), snd (fst listed), snd listed)) as Hrun.
  { vm_compute. reflexivity. }
  split; [exact Hrun|].
  exact (proj2 (proj2 (categorize_lists_stocked_products online sheet_rows _ _ _ Hrun))).
Defined.

(** X21 with a sheet whose only row has an empty stock cell. *)
Lemma unreadable_stock_cell_degrades_witness :
  GoogleAPIsManager._check_cache blank_stock "inventory_data" "inventory" None boot
    = Some (Returned (false, None),
            after (GoogleAPIsManager._check_cache blank_stock "inventory_data"
                     "inventory" None) boot)
  /\ (forall sheet w, exists rows w',
        GoogleAPIsManager.worksheet_get_all_records blank_stock sheet w = (Returned rows, w')
        /\ exists item text,
             item ∈ rows /\ item !! "Stock"%string = Some (CStr text))
  /\ exists inv s',
       GoogleAPIsManager.fetch_inventory blank_stock boot
       = Some (Returned (Some (GoogleAPIsManager.InventoryData inv)), s')
       /\ GoogleAPIsManager.categorize_default blank_stock DEFAULT_INVENTORY
            GoogleAPIsManager.empty_inventory = Returned inv
       /\ LogRecord "errors" WARNING UsingDefaultInventory ∈ GoogleAPIsManager.logs s'.
Proof.
  assert (GoogleAPIsManager._check_cache blank_stock "inventory_data" "inventory" None boot
          = Some (Returned (false, None),
                  after (GoogleAPIsManager._check_cache blank_stock "inventory_data"
                           "inventory" None) boot)) as Hmiss.
  { vm_compute. reflexivity. }
  assert (forall sheet w, exists rows w',
            GoogleAPIsManager.worksheet_get_all_records blank_stock sheet w
            = (Returned rows, w')
            /\ exists item text,
                 item ∈ rows /\ item !! "Stock"%string = Some (CStr text)) as Hbad.
  { intros sheet w. eexists _, _. split; [reflexivity|].
    eexists _, EmptyString. split; [apply list_elem_of_here|]. vm_compute. reflexivity. }
  split; [exact Hmiss|]. split; [exact Hbad|].
  exact (unreadable_stock_cell_degrades blank_stock boot None _ Hmiss Hbad).
Defined.

(** X24 for the unknown order [WW-9]: still [None] 30 seconds later. *)
Lemma order_not_found_is_cached_witness :
  GoogleAPIsManager._check_cache online "order_WW-9" "orders" (Some 30%Q) boot
    = Some (Returned (false, None), lookup_missed)
  /\ GoogleAPIsManager.initialize_sheets online lookup_missed
     = Some (Returned (Some "Orders"%string, Some "Inventory"%string), lookup_sheets)
  /\ GoogleAPIsManager._rate_limit_request online "sheets_read" lookup_sheets
     = Some (Returned tt, lookup_throttled)
  /\ exists s',
       GoogleAPIsManager.get_order_details online "WW-9" boot = Some (Returned None, s')
       /\ exists s'',
            GoogleAPIsManager.get_order_details online "WW-9"
              (GoogleAPIsManager.State (GoogleAPIsManager.world lookup_throttled + 30)%Q
                 (GoogleAPIsManager.self s') [] [])
            = Some (Returned None, s'').
Proof.
  assert (GoogleAPIsManager._check_cache online "order_WW-9" "orders" (Some 30%Q) boot
          = Some (Returned (false, None), lookup_missed)) as Hmiss.
  { vm_compute. reflexivity. }
  assert (GoogleAPIsManager.initialize_sheets online lookup_missed
          = Some (Returned (Some "Orders"%string, Some "Inventory"%string), lookup_sheets))
    as Hinit by (vm_compute; reflexivity).
  assert (GoogleAPIsManager._rate_limit_request online "sheets_read" lookup_sheets
          = Some (Returned tt, lookup_throttled)) as Hrate by (vm_compute; reflexivity).
  split; [exact Hmiss|]. split; [exact Hinit|]. split; [exact Hrate|].
  destruct (order_not_found_is_cached online "WW-9"%string boot None lookup_missed
              "Orders"%string (Some "Inventory"%string) lookup_sheets lookup_throttled
              [] (GoogleAPIsManager.world lookup_throttled) Hmiss Hinit Hrate)
    as (s' & Hrun & _ & Hlater).
  - reflexivity.
  - reflexivity.
  - exists s'. split; [exact Hrun|].
    destruct (Hlater (GoogleAPIsManager.world lookup_throttled + 30)%Q [] [])
      as (s'' & H2 & _).
    + vm_compute. discriminate.
    + exists s''. exact H2.
Defined.

(** X25 on [always_times_out]: one call, then [AttributeError]. *)
Lemma retry_operation_without_loggers_never_retries_witness :
  0 <= 3
  /\ RetryableOperation.call always_times_out 0%nat = (Raised "TimeoutError"%string, 1%nat)
  /\ exists s',
       RetryOperation.retry_operation sleep_nat draw_half runtime_error overflow_error
         "AttributeError"%string on_timeout always_times_out None 3 None 0%nat
       = Some (Raised "AttributeError"%string, s',
               [RetryableOperation.EvCall (Raised "TimeoutError"%string)]).
Proof.
  split; [lia|]. split; [reflexivity|].
  destruct (retry_operation_without_loggers_never_retries sleep_nat draw_half
              runtime_error overflow_error "AttributeError"%string on_timeout
              always_times_out None 3 0%nat) as [_ Hraise]; [lia|].
  exact (Hraise "TimeoutError"%string 1%nat eq_refl).
Defined.

(** X29 on the cached order [WW-1]: the update succeeds for customer 42
    and the record leaves the cache. *)
Lemma update_order_status_clears_one_order_witness :
  OrderStatus.update_order_status with_orders_sheet update_cell_ok no_int quiet_notes
    "WW-1" "Shipped" None with_order
    = Some (Returned (true, Some 42), shipped)
  /\ is_Some (EnhancedCache.cache
                (GoogleAPIsManager.orders_cache
                   (GoogleAPIsManager.caches (GoogleAPIsManager.self with_order)))
              !! "order_WW-1"%string)
  /\ EnhancedCache.cache
       (GoogleAPIsManager.orders_cache
          (GoogleAPIsManager.caches (GoogleAPIsManager.self shipped)))
     = delete "order_WW-1"%string
         (EnhancedCache.cache
            (GoogleAPIsManager.orders_cache
               (GoogleAPIsManager.caches (GoogleAPIsManager.self with_order)))).
Proof.
  assert (OrderStatus.update_order_status with_orders_sheet update_cell_ok no_int
            quiet_notes "WW-1" "Shipped" None with_order
          = Some (Returned (true, Some 42), shipped)) as Hrun.
  { vm_compute. reflexivity. }
  split; [exact Hrun|]. split; [vm_compute; eexists; reflexivity|].
  pose proof (update_order_status_clears_one_order with_orders_sheet update_cell_ok
                no_int quiet_notes "WW-1"%string "Shipped"%string None with_order
                (Some 42) shipped Hrun) as H.
  cbv zeta in H. exact (proj1 H).
Defined.

(** X30 with a spreadsheet that cannot be read. *)
Lemma order_lookup_failure_is_not_cached_witness :
  GoogleAPIsManager._check_cache offline "order_WW-1" "orders" (Some 30%Q) boot
    = Some (Returned (false, None), lookup_failed_miss)
  /\ (forall sheet w, exists e,
        fst (GoogleAPIsManager.worksheet_get_all_records offline sheet w) = Raised e)
  /\ exists s',
       GoogleAPIsManager.get_order_details offline "WW-1" boot = Some (Returned None, s')
       /\ EnhancedCache.cache
            (GoogleAPIsManager.orders_cache
               (GoogleAPIsManager.caches (GoogleAPIsManager.self s')))
            !! "order_WW-1"%string = None.
Proof.
  assert (GoogleAPIsManager._check_cache offline "order_WW-1" "orders" (Some 30%Q) boot
          = Some (Returned (false, None), lookup_failed_miss)) as Hmiss.
  { vm_compute. reflexivity. }
  assert (forall sheet w, exists e,
            fst (GoogleAPIsManager.worksheet_get_all_records offline sheet w) = Raised e)
    as Hfail.
  { intros sheet w. eexists. reflexivity. }
  split; [exact Hmiss|]. split; [exact Hfail|].
  destruct (order_lookup_failure_is_not_cached offline "WW-1"%string boot None
              lookup_failed_miss Hmiss Hfail) as (s' & Hrun & _ & Habsent & _).
  exists s'. split; [exact Hrun|exact Habsent].
Defined.

(** X31 at [max_retries = 3]: four calls, three sleeps, and the
    [TimeoutError] of the fourth call. *)
Lemma run_exhausts_retries_witness :
  0 <= RetryableOperation.max_retries policy <= 1024
  /\ (forall s, exists e,
        fst (RetryableOperation.call always_times_out s) = Raised e
        /\ RetryableOperation.retry_on policy e = true)
  /\ (forall s, Z.of_nat (snd (RetryableOperation.call always_times_out s))
                = Z.of_nat s + 1)
  /\ exists events,
       RetryableOperation.run sleep_nat draw_half no_log runtime_error overflow_error policy
         always_times_out None 0%nat
       = Some (Raised "TimeoutError"%string, 4%nat, events)
       /\ Z.of_nat (length (RetryableOperation.calls events)) = 3 + 1
       /\ last (RetryableOperation.calls events) = Some (Raised "TimeoutError"%string)
       /\ Z.of_nat (length (RetryableOperation.sleeps events)) = 3.
Proof.
  assert (forall s, exists e,
            fst (RetryableOperation.call always_times_out s) = Raised e
            /\ RetryableOperation.retry_on policy e = true) as Hfail.
  { intros s. eexists. split; reflexivity. }
  assert (forall s, Z.of_nat (snd (RetryableOperation.call always_times_out s))
                    = Z.of_nat s + 1) as Hcount.
  { intros s. simpl. lia. }
  split; [simpl; lia|]. split; [exact Hfail|]. split; [exact Hcount|].
  destruct (run_exhausts_retries sleep_nat draw_half no_log runtime_error overflow_error
              Z.of_nat policy always_times_out None 0%nat)
    as (nm & e & s0 & s1 & s' & events & Hrun & Hcall & Hs' & Hn & Hcalls & Hlast
        & Hsleeps).
  - simpl. lia.
  - exact Hfail.
  - exact Hcount.
  - reflexivity.
  - reflexivity.
  - reflexivity.
  - unfold no_log in Hs'. subst s'.
    assert (s1 = 4%nat) as -> by (simpl in Hn; lia).
    simpl in Hcall. injection Hcall as <- _.
    exists events. split; [exact Hrun|]. split; [exact Hcalls|].
    split; [exact Hlast|exact Hsleeps].
Defined.
